(* ===== verification/_CoqProject ===== *)
-Q . S2P
Prelude.v
Curses.v
Runtime.v
SnakeLogic.v
SnakeTick.v
SnakeLoop.v
SnakePlay.v
SnakeSpec.v
SnakeRuns.v
Widgets.v
Engine.v
