(* ===== verification/Prelude.v ===== *)
(** * Curses-Arcade: a verification development for [src/snake.py]

    ** The program

    [src/snake.py] is a terminal snake game written against Python's
    [curses] module.  It has six parts:

    - [Widget] (lines 8-35): an abstract drawable with one concrete helper,
      [draw_rect], which paints a bordered box and an optional label through
      [stdscr.addstr];
    - [MainMenu] (lines 38-60): a widget that prints title art read from a
      file and two buttons, then refreshes the screen;
    - [CursesGameEngine] (lines 63-95): sets the terminal up, draws the menu
      and waits for [chosen_button] in a loop with an empty body; its
      finaliser [__del__] restores the terminal;
    - [Controller] (lines 98-100): an empty class;
    - [Snake] (lines 102-191): the game proper.  [_update_logic] is one tick
      (spawn food, read a key, move, eat), [_draw_screen] repaints,
      [play] is the fixed-rate loop wrapped in [try]/[finally], and
      [create_screen]/[close_screen] acquire and release the terminal;
    - the module body (lines 194-197), which builds an engine, calls
      [play] and prints [Done].

    The parts interact only through the terminal ([curses]) and, for the
    snake, through the random number generator and the clock.  The module
    body uses the engine and the menu only: nothing in the file
    instantiates [Snake].

    ** The files

    - [Prelude] (this file): the Python run-time the models share.  An
      outcome is [Ret v], [Raise e] or [Timeout]; a computation over a state
      [S] is [Eff S A := S -> res A * S], so that a mutation made before an
      exception is raised is still there when [finally] runs.  [iter] and
      [while] are the loop combinators (fuel in, [Timeout] out when it runs
      dry), [for_each] is the [for] loop over a list, [zoom] runs a
      computation on a part of the state, [try_finally] is Python's
      [try]/[finally].  Notations live in [eff_scope]; [=e=] is equality of
      computations at every state, with [Proper] instances for the
      combinators.  Three judgements carry the proofs of the components:
      [preserves R m] (every run of [m] relates the state before to the
      state after by [R]; [same f] and [keeps P] are the instances used),
      [total m] (no run of [m] is a [Timeout]) and the run equations
      [bind_Ret]/[bind_Raise].  [solve_preserves] and [solve_total] walk a
      computation along its combinators ([solve_keeps] of [Runtime] adds
      the calls of the terminal and the world); [eff] is the hint database
      and [eff_rw] the rewriting base.
    - [Curses]: the terminal as the code uses it (mode flags, colour pairs,
      a cell buffer and what is shown, the key source, [LINES]/[COLS]) and
      the [Surface] class, the interface widgets are written against, with
      the terminal as its instance.  This code is not under [src/]: it is
      modelled from the spec's description of the terminal surface.
      [getch] answers at once in no-delay mode and waits for a key without
      it.  The well-formedness invariant is [sound]: every cell of the
      buffer and of the screen is within [LINES] x [COLS] and carries an
      allowed attribute; every operation keeps it.
    - [Runtime]: the rest of the world (random numbers, clock, files,
      standard output), the lifting of terminal operations to methods of an
      object ([curses], [in_world], [self], [set_self], [with_object]) and
      the tactic [solve_keeps], which proves what a method leaves alone.
    - [SnakeLogic], Module [Snake]: the [Snake] object and [_update_logic]
      with its four phases [spawn_food], [read_input], [move], [eat].
      [tick] is the same step as a function without effects, and
      [update_logic_run] says the method computes it from a well-formed
      state ([wf]: a body, a valid [facing], a screen with room, in
      no-delay mode); [add_columns] is addition of tuples by components,
      and [_add_tuples], written with [zip] and [sum], is proved equal to
      it.  [chain] says of a body that each cell is [near] the one before
      it ([Sorted near]).
    - [SnakeTick], Module [TickFacts]: what a tick does to the game, on
      every branch: the well-formedness invariant, the exact condition
      under which a tick ends the game, the translation and the growth of
      the body, where food is placed, the one key read, the tick that
      waits for a key on a screen without no-delay mode, and the chain the
      body stays, from any state and whatever the tick answers.
    - [SnakeLoop], Module [SnakeGame]: [create_screen], [_draw_screen],
      [close_screen] and [play], and how each of them runs: [play] on an
      available terminal is the loop between [opened] and [closed].  Then:
      release of the terminal on every exit path, what a repaint leaves
      on the screen, and [loop_spins]: the loop uses up any fuel when
      every frame goes on.
    - [SnakePlay], Module [PlayFacts]: a whole call of [play]: termination
      of the loop once the player stops steering, the crash of the
      untouched game at the right edge, the time a game takes ([lasted]: a
      sixth of a second for each frame completed, one key read a frame),
      the chain of the body through the whole of [play], and the game that
      never ends: a snake steered round a square of four cells
      ([circling]).
    - [SnakeSpec], Modules [Game] and [GameFacts]: the game as a labelled
      transition system on configurations (body, food, heading): the
      relation [step], the function [next] that computes it from the cells
      the generator gives, and [stepb], which decides it.  Then: the proof
      that [_update_logic] refines the system, that it realises each of
      its steps when the key and the numbers of the step are at the head
      of its streams ([tick_scripted]), what a step from a configuration
      on the screen leads to, and the invariants of its runs (length of
      the body, chain).
    - [SnakeRuns], Modules [Runs] and [RunFacts]: the rounds of the loop
      of [play] ([nsteps] of the relation [round]) against the runs of the
      system and back.  Every game
      [play] ends is a run and one last step; a game ends with everything
      on the screen or with the head in column [COLS] and [curses.error];
      when [play] returns the screen shows the game as it ended
      ([showing]); and every story (a run told in full, through configurations the
      screen can show) is played by the loop for some keys and some
      numbers of the generator.
    - [Widgets], Modules [Widget] and [MainMenu]: the [Widget] object,
      its abstract method [draw] as the class [Draw], [draw_rect] over any
      [Surface], proved equal to the list of writes [rect_writes], all of
      them [inside] the block of the box when the label is short enough,
      and [MainMenu], an instance of [Draw], on the terminal: what the menu
      paints, the room it needs and how [draw] ends in every world.
    - [Engine], Modules [CursesGameEngine], [Controller] and [Program]:
      the engine, its finaliser and the module body.  Then: the menu loop
      never exits, so [play] never returns and the program never prints
      [Done] and never reads a key; [__del__] undoes [__init__]; the
      terminal the program leaves is sound and its colours are registered.

    ** Conventions

    Python integers are unbounded, so they are [Z] with no wrap-around.
    A tuple [(y, x)] is a pair [Z * Z]; the variadic [_add_tuples] is
    given on lists and proved to agree on pairs.  A [dict] is a [gmap] and a
    missing key raises [KeyError]; [l[-1]] is [last], [l.pop(0)] drops the
    first element and raises [IndexError] on the empty list.  [facing] stays
    a string, as in the code, and the invariant says it is a key of
    [directional_mapping].  Python's truth test is the class [Truthy].
    A method of an object [O] is a computation over [O * World]; a local
    object lives for the call that builds it ([with_object]).  The
    arguments of [_add_tuples] are tuples: [None], which its annotation
    allows and [zip] would refuse, is outside the type of the model.
    [dup_first] is total, with [dup_first [] = []]; [eat], which uses it,
    raises [IndexError] on an empty body as [self.snake[0]] does.

    ** Fuel and bounds

    Loops take fuel and answer [Timeout] when it runs out; [n] units of
    fuel allow [n - 1] rounds and the test that leaves.  [Timeout] is also
    the answer of a call that waits: [getch] without no-delay mode while
    no key is there.  A theorem that a
    loop ends is stated as: this much fuel gives an answer.  [play] of
    [Snake] needs one round per tick the game lasts: [play_terminates]
    shows that [N - reads + max LINES COLS + 2] units suffice when no
    direction key arrives from the [N]-th read on, and
    [untouched_game_crashes] that [COLS] units are what the game started by
    [__init__] takes to reach its exception.  The menu loop of
    [CursesGameEngine.play] times out for every amount of fuel: that is the
    theorem; so does the loop of [Snake.play] under a player who steers in
    a circle ([play_goes_round]), which is why [play_terminates] has a
    hypothesis on the keys.  A single tick and a single repaint need no
    fuel.  [text_pos]
    of [draw_rect] goes through floating point in the code
    ([int(y + h/3)]); the model truncates the exact quotient, which agrees
    with the floats for coordinates far below [2^50].  The sleep of a frame
    is the exact rational [1/6], not a float.

    ** What is not modelled

    The internals of [curses] (terminfo, the physical terminal, wrapping of
    long strings, control characters in a string, hence the newline that
    ends each line [readlines] gives: the title art is a list of lines
    without it; how long a [getch] that waits is kept waiting: the key
    source is the sequence of answers to successive polls, and a call that
    finds none without no-delay mode is not followed further; the escape
    sequences special keys arrive as without [keypad]; terminals without
    colours or without a cursor to hide, on which [start_color] and
    [curs_set] fail; [curses.LINES] and [curses.COLS] before the first
    [initscr], when the module has no such attributes: the terminal of the
    model always has a size), the distribution of
    [randint] (any value in range may come out), wall-clock time beyond the
    sum of the requested sleeps, the contents of the title-art file, the
    imports (lines 1-6), interrupts of the program from outside
    ([KeyboardInterrupt]), a change of size of the terminal while the
    program runs, and the moment at which the interpreter runs
    [__del__]: the finaliser is an operation the theorems call.  The
    terminal follows the spec, which refuses a write exactly when it leaves
    the surface: the real library raises as well when [addch] writes the
    last cell of the last line, which the food and the snake can reach,
    and wraps a string that crosses the right edge instead of refusing it.
    The theorems on what is painted and on how a game ends are theorems
    about the spec's surface. *)

From stdpp Require Import base tactics numbers option list sorting.

(** ** Outcomes and exceptions *)

(** The Python exceptions the program can raise. *)
Inductive exn : Set :=
| CursesError | ValueError | KeyError | IndexError
| AttributeError | TypeError | FileNotFoundError.

#[export] Instance exn_eq_dec : EqDecision exn.
Proof. solve_decision. Defined.

(** What running a piece of code gives: a value, an exception, or no answer
    within the fuel given. *)
Inductive res (A : Type) : Type :=
| Ret (a : A)
| Raise (e : exn)
| Timeout.
Arguments Ret {A} a.
Arguments Raise {A} e.
Arguments Timeout {A}.

#[export] Instance res_eq_dec {A} `{EqDecision A} : EqDecision (res A).
Proof. solve_decision. Defined.

(** A computation over a mutable state: the state comes back with every
    outcome, so what was written before a [raise] persists. *)
Definition Eff (S A : Type) : Type := S -> res A * S.

Definition returned {A} (r : res A) : bool :=
  match r with Ret _ => true | _ => false end.

Definition answered {A} (r : res A) : bool :=
  match r with Timeout => false | _ => true end.

Section eff.
Context {S : Type}.

Definition ret {A} (a : A) : Eff S A := fun s => (Ret a, s).

Definition raise {A} (e : exn) : Eff S A := fun s => (Raise e, s).

Definition timeout {A} : Eff S A := fun s => (Timeout, s).

Definition bind {A B} (m : Eff S A) (k : A -> Eff S B) : Eff S B :=
  fun s =>
    match m s with
    | (Ret a, s') => k a s'
    | (Raise e, s') => (Raise e, s')
    | (Timeout, s') => (Timeout, s')
    end.

Definition gets {A} (f : S -> A) : Eff S A := fun s => (Ret (f s), s).

Definition modify (f : S -> S) : Eff S unit := fun s => (Ret tt, f s).

(** [o] or else [raise e]: a dictionary lookup, an index, an attribute of
    an object that may be [None]. *)
Definition or_raise {A} (e : exn) (o : option A) : Eff S A :=
  match o with Some a => ret a | None => raise e end.

(** [try: body finally: fin].  The finaliser runs after a value and after
    an exception; an exception of the finaliser replaces the outcome of the
    body.  A body that does not come back never reaches it. *)
Definition try_finally {A} (body : Eff S A) (fin : Eff S unit) : Eff S A :=
  fun s =>
    match body s with
    | (Timeout, s') => (Timeout, s')
    | (r, s') =>
        match fin s' with
        | (Ret _, s'') => (r, s'')
        | (Raise e, s'') => (Raise e, s'')
        | (Timeout, s'') => (Timeout, s'')
        end
    end.

(** [for x in l: body x]. *)
Fixpoint for_each {A} (l : list A) (body : A -> Eff S unit) : Eff S unit :=
  match l with
  | [] => ret tt
  | x :: l' => bind (body x) (fun _ => for_each l' body)
  end.

(** The loop combinator: [step x] answers [inl x'] to go round again with
    [x'] and [inr r] to leave with [r]. *)
Fixpoint iter {X R} (fuel : nat) (step : X -> Eff S (X + R)) (x : X)
  : Eff S R :=
  match fuel with
  | O => timeout
  | Datatypes.S n =>
      bind (step x) (fun y =>
        match y with
        | inl x' => iter n step x'
        | inr r => ret r
        end)
  end.

(** [while cond: body]. *)
Definition while (fuel : nat) (cond : Eff S bool) (body : Eff S unit)
  : Eff S unit :=
  iter fuel (fun _ : unit =>
    bind cond (fun b =>
      if b then bind body (fun _ => ret (inl tt)) else ret (inr tt))) tt.

End eff.

(** Run a computation on the part [proj s] of a larger state. *)
Definition zoom {S T A} (proj : S -> T) (upd : T -> S -> S) (m : Eff T A)
  : Eff S A :=
  fun s => let '(r, t') := m (proj s) in (r, upd t' s).

(** Two computations are the same when they agree on every state. *)
Definition eff_equiv {S A} : relation (Eff S A) :=
  fun m1 m2 => forall s, m1 s = m2 s.

Declare Scope eff_scope.
Delimit Scope eff_scope with eff.
Bind Scope eff_scope with Eff.

Notation "x <- m ;; k" := (bind m (fun x => k))
  (at level 100, m at next level, right associativity) : eff_scope.
Notation "m ;; k" := (bind m (fun _ => k))
  (at level 100, right associativity) : eff_scope.
Infix "=e=" := eff_equiv (at level 70, no associativity) : eff_scope.

(** ** Python values *)

(** [range(a, b)]. *)
Definition py_range (a b : Z) : list Z := seqZ a (b - a).

(** [l.pop(0)], keeping the rest. *)
Definition pop0 {S A} (l : list A) : Eff S (list A) :=
  match l with [] => raise IndexError | _ :: l' => ret l' end.

(** ** Automation *)

Create HintDb eff discriminated.
Create Rewrite HintDb eff_rw.

(** Unfold the monad and compute. *)
Ltac eff_run :=
  cbv [bind ret raise timeout gets modify or_raise zoom pop0] in *;
  simpl in *.

(** Case analysis on the outcome of the first computation a goal matches on. *)
Ltac eff_cases :=
  repeat match goal with
  | |- context [match ?m ?s with (_, _) => _ end] =>
      let r := fresh "r" in let s' := fresh "s" in let E := fresh "E" in
      destruct (m s) as [r s'] eqn:E; try destruct r; simpl
  end.

(** ** Laws *)

Section laws.
Context {S : Type}.
Implicit Types s : S.
Local Open Scope eff_scope.

#[export] Instance eff_equiv_equivalence {A} : Equivalence (@eff_equiv S A).
Proof.
  split; [intros m s | intros m1 m2 H s | intros m1 m2 m3 H1 H2 s];
    [done | by rewrite H | by rewrite H1, H2].
Qed.

#[export] Instance bind_proper {A B} :
  Proper (eff_equiv ==> pointwise_relation A eff_equiv ==> eff_equiv)
    (@bind S A B).
Proof.
  intros m1 m2 Hm k1 k2 Hk s. unfold bind. rewrite Hm.
  destruct (m2 s) as [[a|e|] s']; [apply Hk | done | done].
Qed.

#[export] Instance try_finally_proper {A} :
  Proper (eff_equiv ==> eff_equiv ==> eff_equiv) (@try_finally S A).
Proof.
  intros b1 b2 Hb f1 f2 Hf s. unfold try_finally. rewrite Hb.
  destruct (b2 s) as [[a|e|] s']; by rewrite ?Hf.
Qed.

Lemma bind_ret_l {A B} (a : A) (k : A -> Eff S B) : (x <- ret a;; k x) =e= k a.
Proof. done. Qed.

Lemma bind_ret_r {A} (m : Eff S A) : (x <- m;; ret x) =e= m.
Proof. intros s. unfold bind. by destruct (m s) as [[a|e|] s']. Qed.

Lemma bind_assoc {A B C} (m : Eff S A) (k : A -> Eff S B) (h : B -> Eff S C) :
  (y <- (x <- m;; k x);; h y) =e= (x <- m;; y <- k x;; h y).
Proof. intros s. unfold bind. by destruct (m s) as [[a|e|] s']. Qed.

Lemma bind_raise {A B} (e : exn) (k : A -> Eff S B) :
  (x <- raise e;; k x) =e= raise e.
Proof. done. Qed.

(** How [bind] runs, as a rewriting rule for each outcome of its head. *)
Lemma bind_Ret {A B} (m : Eff S A) (k : A -> Eff S B) s a s' :
  m s = (Ret a, s') -> bind m k s = k a s'.
Proof. unfold bind. by intros ->. Qed.

Lemma bind_Raise {A B} (m : Eff S A) (k : A -> Eff S B) s e s' :
  m s = (Raise e, s') -> bind m k s = (Raise e, s').
Proof. unfold bind. by intros ->. Qed.

Lemma bind_Timeout {A B} (m : Eff S A) (k : A -> Eff S B) s s' :
  m s = (Timeout, s') -> bind m k s = (Timeout, s').
Proof. unfold bind. by intros ->. Qed.

(** The same when only the outcome of the head is known. *)
Lemma bind_raises {A B} (m : Eff S A) (k : A -> Eff S B) s e :
  fst (m s) = Raise e -> fst (bind m k s) = Raise e.
Proof. unfold bind. destruct (m s) as [[a|e'|] s']; simpl; congruence. Qed.

(** A [bind] that returns went through a head that returned. *)
Lemma bind_inv_Ret {A B} (m : Eff S A) (k : A -> Eff S B) s b s2 :
  bind m k s = (Ret b, s2) ->
  exists a s1, m s = (Ret a, s1) /\ k a s1 = (Ret b, s2).
Proof. unfold bind. destruct (m s) as [[a|e|] s1]; naive_solver. Qed.

(** ** [try]/[finally] *)

(** The state a [try]/[finally] that answers ends in is a state the
    finaliser was run to. *)
Lemma try_finally_runs_fin {A} (body : Eff S A) (fin : Eff S unit) s r s2 :
  try_finally body fin s = (r, s2) -> answered r = true ->
  exists s1 rf, snd (body s) = s1 /\ fin s1 = (rf, s2) /\ answered rf = true.
Proof.
  unfold try_finally. destruct (body s) as [[a|e|] s1]; simpl;
    try (destruct (fin s1) as [[[]|e'|] s1'] eqn:E; intros [= <- <-] Hr;
         try done; by eexists _, _);
    by intros [= <- <-].
Qed.

(** An exception of the body comes out when the finaliser returns. *)
Lemma try_finally_Raise {A} (body : Eff S A) (fin : Eff S unit) s s1 s2 e :
  body s = (Raise e, s1) -> fin s1 = (Ret tt, s2) ->
  try_finally body fin s = (Raise e, s2).
Proof. unfold try_finally. by intros -> ->. Qed.

(** Whatever holds after every answering run of the finaliser holds after
    the whole statement. *)
Lemma try_finally_post {A} (body : Eff S A) (fin : Eff S unit) (Q : S -> Prop) s :
  (forall s1 rf s2, fin s1 = (rf, s2) -> answered rf = true -> Q s2) ->
  answered (fst (try_finally body fin s)) = true ->
  Q (snd (try_finally body fin s)).
Proof.
  intros Hfin Hr. destruct (try_finally body fin s) as [r s2] eqn:E.
  destruct (try_finally_runs_fin _ _ _ _ _ E Hr) as (s1 & rf & _ & Hf & Ha).
  simpl. eauto.
Qed.

(** ** Loops *)

Lemma iter_S {X R} n (step : X -> Eff S (X + R)) x :
  iter (Datatypes.S n) step x =e=
  (y <- step x;; match y with inl x' => iter n step x' | inr r => ret r end).
Proof. done. Qed.

(** More fuel does not change an answer. *)
Lemma iter_fuel_mono {X R} (step : X -> Eff S (X + R)) n m x s :
  n <= m -> answered (fst (iter n step x s)) = true ->
  iter m step x s = iter n step x s.
Proof.
  revert m x s. induction n as [|n IH]; intros m x s Hle; [done|].
  destruct m as [|m]; [lia|]. simpl. unfold bind.
  destruct (step x s) as [[[x'|r]|e|] s']; try done.
  apply IH. lia.
Qed.

(** An invariant of the body is an invariant of the loop. *)
Lemma iter_invariant {X R} (I : S -> Prop) (step : X -> Eff S (X + R)) :
  (forall x s, I s -> I (snd (step x s))) ->
  forall n x s, I s -> I (snd (iter n step x s)).
Proof.
  intros Hstep n. induction n as [|n IH]; intros x s Hs; [done|].
  simpl. unfold bind. specialize (Hstep x s Hs).
  destruct (step x s) as [[[x'|r]|e|] s']; simpl in *; auto.
Qed.

(** [for] loops over a concatenation. *)
Lemma for_each_app {A} (l1 l2 : list A) (body : A -> Eff S unit) :
  for_each (l1 ++ l2) body =e= (for_each l1 body;; for_each l2 body).
Proof.
  induction l1 as [|x l1 IH]; intros s; simpl; [done|].
  rewrite (bind_assoc _ _ _ s).
  destruct (body x s) as [[[]|e|] s'] eqn:E.
  - rewrite !(bind_Ret _ _ _ _ _ E). apply IH.
  - by rewrite !(bind_Raise _ _ _ _ _ E).
  - by rewrite !(bind_Timeout _ _ _ _ E).
Qed.

Lemma for_each_app_bind {A B} (l1 l2 : list A) (body : A -> Eff S unit)
    (k : Eff S B) :
  (for_each l1 body;; for_each l2 body;; k) =e= (for_each (l1 ++ l2) body;; k).
Proof.
  intros s. rewrite <- (bind_assoc _ _ _ s). unfold bind at 1 3.
  by rewrite (for_each_app l1 l2 body s).
Qed.

Lemma for_each_fmap {A B} (f : A -> B) (l : list A) (body : B -> Eff S unit) :
  for_each (f <$> l) body =e= for_each l (fun x => body (f x)).
Proof.
  induction l as [|x l IH]; [done|]. intros s. simpl. unfold bind.
  destruct (body (f x) s) as [[[]|e|] s']; [apply IH|done..].
Qed.

Lemma for_each_ext {A} (l : list A) (b1 b2 : A -> Eff S unit) :
  (forall x, x ∈ l -> b1 x =e= b2 x) -> for_each l b1 =e= for_each l b2.
Proof.
  induction l as [|x l IH]; intros Hb; [done|]. intros s. simpl. unfold bind.
  rewrite (Hb x) by left.
  destruct (b2 x s) as [[[]|e|] s']; [|done..].
  apply IH. intros y Hy. apply Hb. by right.
Qed.

(** A loop over one element is its body. *)
Lemma for_each_singleton {A} (x : A) (body : A -> Eff S unit) :
  for_each [x] body =e= body x.
Proof. intros s. simpl. unfold bind. by destruct (body x s) as [[[]|e|] s']. Qed.

Lemma for_each_invariant {A} (I : S -> Prop) (l : list A) (body : A -> Eff S unit) :
  (forall x s, x ∈ l -> I s -> I (snd (body x s))) ->
  forall s, I s -> I (snd (for_each l body s)).
Proof.
  induction l as [|x l IH]; intros Hb s Hs; [done|].
  simpl. unfold bind. pose proof (Hb x s ltac:(left) Hs) as H1.
  destruct (body x s) as [[[]|e|] s']; simpl in *; try done.
  apply IH; [|done]. intros y s0 Hy. apply Hb. by right.
Qed.

(** ** [zoom] *)

Lemma zoom_ret {T A} (proj : S -> T) (upd : T -> S -> S) (a : A) s :
  upd (proj s) s = s -> zoom proj upd (ret a) s = (Ret a, s).
Proof. unfold zoom, ret. by intros ->. Qed.

Lemma zoom_outcome {T A} (proj : S -> T) (upd : T -> S -> S) (m : Eff T A) s :
  fst (zoom proj upd m s) = fst (m (proj s)).
Proof. unfold zoom. by destruct (m (proj s)). Qed.

Lemma zoom_state {T A} (proj : S -> T) (upd : T -> S -> S) (m : Eff T A) s :
  snd (zoom proj upd m s) = upd (snd (m (proj s))) s.
Proof. unfold zoom. by destruct (m (proj s)). Qed.

End laws.

#[export] Hint Rewrite @zoom_outcome @zoom_state : eff_rw.

(** ** Lists as Python uses them *)

Section lists.
Context {A : Type}.
Implicit Types l : list A.

(** [l.append(x); l.pop(0)] keeps the length. *)
Lemma length_tail_snoc l x : length (tail (l ++ [x])) = length l.
Proof. destruct l; simpl; [done|]. rewrite length_app. simpl. lia. Qed.

(** ... and the new last element. *)
Lemma last_tail_snoc l x : l <> [] -> last (tail (l ++ [x])) = Some x.
Proof. destruct l as [|y l]; [done|]. intros _. simpl. apply last_snoc. Qed.

Lemma Forall_tail_snoc (P : A -> Prop) l x :
  Forall P l -> P x -> Forall P (tail (l ++ [x])).
Proof. intros Hl Hx. apply Forall_tail, Forall_app. by split; [|constructor]. Qed.

Lemma last_is_Some l : l <> [] -> is_Some (last l).
Proof.
  destruct l as [|x l] using rev_ind; [done|]. rewrite last_snoc. eauto.
Qed.

Lemma last_elem_of l x : last l = Some x -> x ∈ l.
Proof. intros (l' & ->)%last_Some. apply elem_of_app. right. by left. Qed.

Lemma elem_of_tail l x : x ∈ tail l -> x ∈ l.
Proof. destruct l; simpl; [done|]. by right. Qed.

(** The first element of a list that fails a decidable test. *)
Lemma first_failure (P : A -> Prop) `{!forall x, Decision (P x)} l :
  ~ Forall P l ->
  exists l1 x l2, l = l1 ++ x :: l2 /\ Forall P l1 /\ ~ P x.
Proof.
  induction l as [|x l IH]; intros Hn; [by destruct Hn|].
  destruct (decide (P x)) as [Hx|Hx]; [|by exists [], x, l].
  destruct IH as (l1 & y & l2 & -> & Hall & Hy).
  { intros Hall. apply Hn. by constructor. }
  exists (x :: l1), y, l2. split_and!; [done|by constructor|done].
Qed.

End lists.

(** ** Lists whose neighbours are related *)

Section sorted.
Context {A : Type} (R : relation A).
Implicit Types l : list A.

(** [x] may follow [l] when it is related to the last element. *)
Lemma TlRel_last l x y : last l = Some y -> R y x -> TlRel R x l.
Proof.
  intros Hl Hr. destruct l as [|a l _] using rev_ind; [done|].
  rewrite last_snoc in Hl. simplify_eq. by constructor.
Qed.

Lemma Sorted_tail l : Sorted R l -> Sorted R (tail l).
Proof. destruct 1; [constructor|done]. Qed.

(** [l.append(x); l.pop(0)]. *)
Lemma Sorted_tail_snoc l x y :
  Sorted R l -> last l = Some y -> R y x -> Sorted R (tail (l ++ [x])).
Proof. eauto using Sorted_tail, Sorted_snoc, TlRel_last. Qed.

(** [l.insert(0, l[0])]. *)
Lemma Sorted_dup `{!Reflexive R} x l :
  Sorted R (x :: l) -> Sorted R (x :: x :: l).
Proof. intros H. constructor; [done|]. by constructor. Qed.

End sorted.

Lemma elem_of_py_range a b k : k ∈ py_range a b <-> (a <= k < b)%Z.
Proof. unfold py_range. rewrite elem_of_seqZ. lia. Qed.

Lemma py_range_empty a b : (b <= a)%Z -> py_range a b = [].
Proof. intros. apply seqZ_nil. lia. Qed.

Lemma py_range_cons a b : (a < b)%Z -> py_range a b = a :: py_range (a + 1) b.
Proof.
  intros. unfold py_range. rewrite seqZ_cons by lia.
  f_equal. f_equal; lia.
Qed.

Lemma pop0_tail {S A} (l : list A) (s : S) :
  l <> [] -> pop0 l s = (Ret (tail l), s).
Proof. by destruct l. Qed.

#[export] Hint Rewrite @length_tail_snoc @last_snoc : eff_rw.
#[export] Hint Resolve last_elem_of elem_of_tail : eff.

(** ** What a computation leaves as it was

    [preserves R m]: whatever [m] answers, and from whatever state, the
    state it ends in is [R]-related to the state it started in.  With [R] a
    preorder this goes through every construct of the monad, so that a
    method is shown to keep a field, or to only ever increase a counter, by
    looking at its assignments alone. *)

Record preserves {S A} (R : relation S) (m : Eff S A) : Prop :=
  Preserves { preserved : forall s, R s (snd (m s)) }.
Arguments Preserves {S A R m} _.
Arguments preserved {S A R m} _ s.

Lemma preserved_run {S A} (R : relation S) (m : Eff S A) s r s' :
  preserves R m -> m s = (r, s') -> R s s'.
Proof. intros [H] E. specialize (H s). by rewrite E in H. Qed.

(** The states on which [f] has the same value. *)
Definition same {S B} (f : S -> B) : relation S := fun s s' => f s' = f s.

#[export] Instance same_preorder {S B} (f : S -> B) : PreOrder (same f).
Proof. split; [by intros s | intros s1 s2 s3 H1 H2; unfold same in *; congruence]. Qed.

(** The states related when [P] is not lost: [preserves (keeps P) m] says
    that [P] is an invariant of [m], whatever [m] answers. *)
Definition keeps {S} (P : S -> Prop) : relation S := fun s s' => P s -> P s'.

#[export] Instance keeps_preorder {S} (P : S -> Prop) : PreOrder (keeps P).
Proof.
  split; [intros s H; exact H | intros s1 s2 s3 H1 H2 H; apply H2, H1, H].
Qed.

Lemma preserves_weaken {S A} (R R' : relation S) (m : Eff S A) :
  (forall s s', R s s' -> R' s s') -> preserves R m -> preserves R' m.
Proof. intros H [Hm]. split. auto. Qed.

(** What depends only on kept observations is kept. *)
Lemma same_keeps {S A B} (f : S -> B) (P : S -> Prop) (m : Eff S A) :
  (forall s s', f s' = f s -> P s -> P s') ->
  preserves (same f) m -> preserves (keeps P) m.
Proof. intros H. apply preserves_weaken. intros s s' Hf Hs. by apply (H s). Qed.

(** Two observations are kept when each is. *)
Lemma same_pair {S A B C} (f : S -> B) (h : S -> C) (m : Eff S A) :
  preserves (same f) m -> preserves (same h) m ->
  preserves (same (fun s => (f s, h s))) m.
Proof. intros [Hf] [Hh]. split. intros s. unfold same in *. by rewrite Hf, Hh. Qed.

Section preserves.
Context {S : Type} (R : relation S) `{!PreOrder R}.

Lemma preserves_ret {A} (a : A) : preserves R (ret a).
Proof. by split. Qed.

Lemma preserves_raise {A} e : preserves R (@raise S A e).
Proof. by split. Qed.

Lemma preserves_timeout {A} : preserves R (@timeout S A).
Proof. by split. Qed.

Lemma preserves_gets {A} (f : S -> A) : preserves R (gets f).
Proof. by split. Qed.

Lemma preserves_or_raise {A} e (o : option A) : preserves R (or_raise e o).
Proof. destruct o; by split. Qed.

Lemma preserves_pop0 {A} (l : list A) : preserves R (pop0 l).
Proof. destruct l; by split. Qed.

Lemma preserves_modify (f : S -> S) :
  (forall s, R s (f s)) -> preserves R (modify f).
Proof. intros H. split. apply H. Qed.

Lemma preserves_bind {A B} (m : Eff S A) (k : A -> Eff S B) :
  preserves R m -> (forall a, preserves R (k a)) -> preserves R (bind m k).
Proof.
  intros [Hm] Hk. split. intros s. unfold bind. specialize (Hm s).
  destruct (m s) as [[a|e|] s']; simpl in *; [|done..].
  etrans; [done|]. apply Hk.
Qed.

Lemma preserves_try_finally {A} (body : Eff S A) (fin : Eff S unit) :
  preserves R body -> preserves R fin -> preserves R (try_finally body fin).
Proof.
  intros [Hb] [Hf]. split. intros s. unfold try_finally. specialize (Hb s).
  destruct (body s) as [[a|e|] s']; simpl in *; [| |done];
    (etrans; [done|]); specialize (Hf s');
    by destruct (fin s') as [[[]|e'|] s''].
Qed.

Lemma preserves_iter {X A} n (step : X -> Eff S (X + A)) x :
  (forall x, preserves R (step x)) -> preserves R (iter n step x).
Proof.
  intros Hs. revert x. induction n as [|n IH]; intros x; [by split|].
  simpl. apply preserves_bind; [done|]. intros [x'|r]; [done|].
  apply preserves_ret.
Qed.

Lemma preserves_for_each {A} (l : list A) (body : A -> Eff S unit) :
  (forall x, preserves R (body x)) -> preserves R (for_each l body).
Proof.
  intros Hb. induction l as [|x l IH]; simpl; [apply preserves_ret|].
  by apply preserves_bind.
Qed.

End preserves.

(** A computation on a part of the state keeps what the part has no say
    in. *)
Lemma preserves_zoom_same {S T A B} (f : S -> B) (proj : S -> T)
    (upd : T -> S -> S) (m : Eff T A) :
  (forall t s, f (upd t s) = f s) -> preserves (same f) (zoom proj upd m).
Proof. intros H. split. intros s. unfold zoom. destruct (m (proj s)). apply H. Qed.

Lemma preserves_zoom {S T A} (R : relation S) (RT : relation T)
    (proj : S -> T) (upd : T -> S -> S) (m : Eff T A) :
  (forall s t, RT (proj s) t -> R s (upd t s)) ->
  preserves RT m -> preserves R (zoom proj upd m).
Proof.
  intros H [Hm]. split. intros s. unfold zoom. specialize (Hm (proj s)).
  destruct (m (proj s)). by apply H.
Qed.

#[export] Hint Resolve preserves_ret preserves_raise preserves_timeout
  preserves_gets preserves_or_raise preserves_pop0 : eff.

(** ** Computations that always answer

    [total m]: from every state [m] returns or raises; it needs no fuel.
    Everything but [iter] and [timeout] is total when its parts are. *)

Definition total {S A} (m : Eff S A) : Prop :=
  forall s, answered (fst (m s)) = true.

Section total.
Context {S : Type}.

Lemma total_ret {A} (a : A) : total (@ret S A a).
Proof. done. Qed.

Lemma total_raise {A} e : total (@raise S A e).
Proof. done. Qed.

Lemma total_gets {A} (f : S -> A) : total (gets f).
Proof. done. Qed.

Lemma total_modify (f : S -> S) : total (modify f).
Proof. done. Qed.

Lemma total_or_raise {A} e (o : option A) : total (@or_raise S A e o).
Proof. by destruct o. Qed.

Lemma total_pop0 {A} (l : list A) : total (@pop0 S A l).
Proof. by destruct l. Qed.

Lemma total_bind {A B} (m : Eff S A) (k : A -> Eff S B) :
  total m -> (forall a, total (k a)) -> total (bind m k).
Proof.
  intros Hm Hk s. unfold bind. specialize (Hm s).
  destruct (m s) as [[a|e|] s']; [apply Hk | done | done].
Qed.

Lemma total_for_each {A} (l : list A) (body : A -> Eff S unit) :
  (forall x, total (body x)) -> total (for_each l body).
Proof.
  intros Hb. induction l as [|x l IH]; [done|]. simpl.
  by apply total_bind.
Qed.

Lemma total_try_finally {A} (body : Eff S A) (fin : Eff S unit) :
  total body -> total fin -> total (try_finally body fin).
Proof.
  intros Hb Hf s. unfold try_finally. specialize (Hb s).
  destruct (body s) as [[a|e|] s']; [| |done]; specialize (Hf s');
    by destruct (fin s') as [[[]|e'|] s''].
Qed.

(** A finaliser that always answers lets through every answer of the
    body (as that answer or as its own exception). *)
Lemma try_finally_answers {A} (body : Eff S A) (fin : Eff S unit) s :
  answered (fst (body s)) = true -> total fin ->
  answered (fst (try_finally body fin s)) = true.
Proof.
  intros Hb Hf. unfold try_finally.
  destruct (body s) as [[a|e|] s']; [| |done]; specialize (Hf s');
    by destruct (fin s') as [[[]|e'|] s''].
Qed.

Lemma total_zoom {T A} (proj : S -> T) (upd : T -> S -> S) (m : Eff T A) :
  total m -> total (zoom proj upd m).
Proof. intros Hm s. rewrite zoom_outcome. apply Hm. Qed.

End total.

#[export] Hint Resolve total_ret total_raise total_gets total_modify
  total_or_raise total_pop0 : eff.

Ltac total_step :=
  first
    [ solve [auto with eff]
    | match goal with
      | |- forall _, _ => intros ?
      | |- total (if ?b then _ else _) => destruct b
      | |- total (match ?x with _ => _ end) => destruct x
      | |- total (let _ := _ in _) => cbv zeta
      end
    | apply total_bind
    | apply total_for_each
    | apply total_try_finally
    | apply total_zoom
    | apply total_ret | apply total_raise | apply total_gets
    | apply total_modify | apply total_or_raise | apply total_pop0 ].

Ltac solve_total := repeat total_step.

(** Go through a computation construct by construct; what is left are the
    assignments. *)
Ltac preserves_step :=
  first
    [ assumption
    | match goal with
      | |- PreOrder _ => apply _
      | |- forall _, _ => intros ?
      | |- preserves _ (if ?b then _ else _) => destruct b
      | |- preserves _ (match ?x with _ => _ end) => destruct x
      | |- preserves _ (let _ := _ in _) => cbv zeta
      end
    | apply preserves_bind
    | apply preserves_ret | apply preserves_raise | apply preserves_timeout
    | apply preserves_gets | apply preserves_or_raise | apply preserves_pop0
    | apply preserves_try_finally
    | apply preserves_iter
    | apply preserves_for_each
    | apply preserves_modify
    | apply preserves_zoom_same ].

Ltac solve_preserves := repeat preserves_step; try done.
