(* ===== verification/Curses.v ===== *)
(** * Curses: the terminal surface

    The part of Python's [curses] module the program calls, as a state
    machine over a [terminal]: the mode flags that [initscr], [cbreak],
    [noecho], [keypad], [nodelay], [curs_set], [start_color] and [endwin]
    switch, the cell buffer that [addch], [addstr] and [clear] write and
    [refresh] shows, and the key source [getch] reads.  None of this code
    is under [src/]; the model follows the spec's terminal surface: a write
    outside [0, LINES) x [0, COLS) fails and changes nothing, there is no
    clipping and no wrapping; a key read answers at once in no-delay mode
    and waits for a key without it.

    [Surface] is the interface a widget draws through; [terminal] is its
    instance.  [sound] is the invariant of the picture: every cell held is
    on the surface and carries an allowed attribute, whatever is called. *)

From Stdlib Require Import Ascii.
From stdpp Require Import base tactics numbers option list strings gmap.
From S2P Require Import Prelude.

Module Curses.
Local Open Scope Z_scope.
Local Open Scope eff_scope.

(** ** Constants of the module *)

Definition KEY_DOWN : Z := 258.
Definition KEY_UP : Z := 259.
Definition KEY_LEFT : Z := 260.
Definition KEY_RIGHT : Z := 261.
(** What [getch] answers in no-delay mode when no key is waiting. *)
Definition ERR : Z := -1.
Definition COLOR_BLACK : Z := 0.
Definition COLOR_GREEN : Z := 2.

(** ** State *)

(** The switches of the terminal.  A terminal in its normal state has
    [Echo] and [Cursor] on and everything else off. *)
Inductive mode : Set :=
| Started | Ended | Keypad | Nodelay | Echo | Cbreak | Cursor | Colors.

#[global] Instance mode_eq_dec : EqDecision mode.
Proof. solve_decision. Defined.

Definition mode_code (m : mode) : nat :=
  match m with
  | Started => 0 | Ended => 1 | Keypad => 2 | Nodelay => 3
  | Echo => 4 | Cbreak => 5 | Cursor => 6 | Colors => 7
  end%nat.

Definition mode_of_code (n : nat) : option mode :=
  match n with
  | 0 => Some Started | 1 => Some Ended | 2 => Some Keypad
  | 3 => Some Nodelay | 4 => Some Echo | 5 => Some Cbreak
  | 6 => Some Cursor | 7 => Some Colors | _ => None
  end%nat.

#[global] Instance mode_countable : Countable mode.
Proof. apply (inj_countable mode_code mode_of_code). by intros []. Defined.

(** The only window the program uses. *)
Inductive window : Set := Stdscr.

#[global] Instance window_eq_dec : EqDecision window.
Proof. solve_decision. Defined.

(** One character cell: the glyph and its attribute. *)
Record cell : Set := Cell { glyph : ascii; attr : Z }.

#[global] Instance cell_eq_dec : EqDecision cell.
Proof. solve_decision. Defined.

Record terminal : Type := Terminal {
  LINES : Z;                      (* curses.LINES *)
  COLS : Z;                       (* curses.COLS *)
  available : bool;               (* can [initscr] succeed *)
  modes : gset mode;              (* the switches that are on *)
  pairs : gmap Z (Z * Z);         (* colour pairs *)
  buffer : gmap (Z * Z) cell;     (* what has been written *)
  shown : gmap (Z * Z) cell;      (* what the last [refresh] showed *)
  keys : nat -> Z;                (* what the n-th [getch] answers *)
  reads : nat                     (* how many [getch] so far *)
}.

Definition set_modes (f : gset mode -> gset mode) (t : terminal) : terminal :=
  {| LINES := LINES t; COLS := COLS t; available := available t;
     modes := f (modes t); pairs := pairs t; buffer := buffer t;
     shown := shown t; keys := keys t; reads := reads t |}.

Definition set_pairs (v : gmap Z (Z * Z)) (t : terminal) : terminal :=
  {| LINES := LINES t; COLS := COLS t; available := available t;
     modes := modes t; pairs := v; buffer := buffer t;
     shown := shown t; keys := keys t; reads := reads t |}.

Definition set_buffer (v : gmap (Z * Z) cell) (t : terminal) : terminal :=
  {| LINES := LINES t; COLS := COLS t; available := available t;
     modes := modes t; pairs := pairs t; buffer := v;
     shown := shown t; keys := keys t; reads := reads t |}.

Definition set_shown (v : gmap (Z * Z) cell) (t : terminal) : terminal :=
  {| LINES := LINES t; COLS := COLS t; available := available t;
     modes := modes t; pairs := pairs t; buffer := buffer t;
     shown := v; keys := keys t; reads := reads t |}.

Definition set_reads (v : nat) (t : terminal) : terminal :=
  {| LINES := LINES t; COLS := COLS t; available := available t;
     modes := modes t; pairs := pairs t; buffer := buffer t;
     shown := shown t; keys := keys t; reads := v |}.

(** The terminal with nothing written and nothing shown: what is left of
    it when the picture is not looked at. *)
Definition blank (t : terminal) : terminal := set_shown ∅ (set_buffer ∅ t).

Definition on (m : mode) (t : terminal) : bool := bool_decide (m ∈ modes t).

Definition switch (m : mode) (b : bool) : Eff terminal unit :=
  modify (set_modes (fun ms => if b then ms ∪ {[m]} else ms ∖ {[m]})).

(** A terminal nobody has touched: echo and cursor on, nothing else. *)
Definition fresh (rows cols : Z) (ks : nat -> Z) : terminal :=
  {| LINES := rows; COLS := cols; available := true;
     modes := {[Echo; Cursor]}; pairs := ∅; buffer := ∅; shown := ∅;
     keys := ks; reads := 0 |}.

(** The terminal is as the shell expects it: not in a curses session (or
    out of it again), echoing, line-buffered, keypad translation off. *)
Definition cooked (t : terminal) : Prop :=
  (on Started t = true -> on Ended t = true) /\
  on Echo t = true /\ on Cbreak t = false /\ on Keypad t = false.

(** The switches that lead towards a cooked terminal. *)
Definition cooking (m : mode) (b : bool) : Prop :=
  (m, b) ∈ [(Cbreak, false); (Keypad, false); (Echo, true); (Ended, true)].

(** ** Session and modes *)

(** Most module functions fail before the first [initscr]. *)
Definition need_started : Eff terminal unit :=
  fun t => if on Started t then ret tt t else raise CursesError t.

Definition initscr : Eff terminal window :=
  fun t =>
    if available t
    then (switch Started true;; switch Ended false;;
          modify (set_buffer ∅);; ret Stdscr) t
    else raise CursesError t.

Definition endwin : Eff terminal unit := need_started;; switch Ended true.

Definition keypad (w : window) (b : bool) : Eff terminal unit := switch Keypad b.

Definition nodelay (w : window) (b : bool) : Eff terminal unit := switch Nodelay b.

Definition echo : Eff terminal unit := need_started;; switch Echo true.

Definition noecho : Eff terminal unit := need_started;; switch Echo false.

Definition cbreak : Eff terminal unit := need_started;; switch Cbreak true.

Definition nocbreak : Eff terminal unit := need_started;; switch Cbreak false.

Definition curs_set (visible : bool) : Eff terminal unit :=
  need_started;; switch Cursor visible.

Definition start_color : Eff terminal unit := need_started;; switch Colors true.

Definition init_pair (n fg bg : Z) : Eff terminal unit :=
  fun t =>
    if on Colors t then modify (fun t => set_pairs (<[n := (fg, bg)]> (pairs t)) t) t
    else raise CursesError t.

(** The attribute that selects colour pair [n]. *)
Definition color_pair (n : Z) : Z := Z.shiftl n 8.

(** ** The cell buffer *)

Definition in_bounds (t : terminal) (y x : Z) : bool :=
  bool_decide (0 <= y < LINES t /\ 0 <= x < COLS t).

(** A string starting at [(y, x)] lies within the surface. *)
Definition fits (rows cols y x : Z) (s : string) : Prop :=
  0 <= y < rows /\ 0 <= x < cols /\ x + Z.of_nat (String.length s) <= cols.

#[global] Instance fits_dec rows cols y x s : Decision (fits rows cols y x s).
Proof. unfold fits. apply _. Defined.

(** The cells of [s] laid out from [(y, x)] to the right. *)
Fixpoint put_str (y x : Z) (s : string) (a : Z) (b : gmap (Z * Z) cell)
  : gmap (Z * Z) cell :=
  match s with
  | EmptyString => b
  | String ch s' => put_str y (x + 1) s' a (<[(y, x) := Cell ch a]> b)
  end.

Definition addch (w : window) (y x : Z) (ch : ascii) : Eff terminal unit :=
  fun t =>
    if in_bounds t y x
    then modify (fun t => set_buffer (<[(y, x) := Cell ch 0]> (buffer t)) t) t
    else raise CursesError t.

Definition addstr (w : window) (y x : Z) (s : string) (a : Z)
  : Eff terminal unit :=
  fun t =>
    if decide (fits (LINES t) (COLS t) y x s)
    then modify (fun t => set_buffer (put_str y x s a (buffer t)) t) t
    else raise CursesError t.

Definition clear (w : window) : Eff terminal unit := modify (set_buffer ∅).

Definition refresh (w : window) : Eff terminal unit :=
  modify (fun t => set_shown (buffer t) t).

(** What the buffer and the screen hold is sound when every cell lies on
    the surface and carries one of the attributes [attrs]. *)
Definition cell_ok (attrs : list Z) (t : terminal) (p : Z * Z) (c : cell)
  : Prop :=
  in_bounds t p.1 p.2 = true /\ attr c ∈ attrs.

Definition sound (attrs : list Z) (t : terminal) : Prop :=
  map_Forall (cell_ok attrs t) (buffer t) /\
  map_Forall (cell_ok attrs t) (shown t).

#[global] Instance sound_dec attrs t : Decision (sound attrs t).
Proof. unfold sound, cell_ok. apply _. Defined.

(** What [sound] looks at. *)
Definition picture (t : terminal)
  : Z * Z * gmap (Z * Z) cell * gmap (Z * Z) cell :=
  (LINES t, COLS t, buffer t, shown t).

(** ** Keys *)

(** [window.getch()]: the next key.  In no-delay mode the call answers at
    once, with [ERR] when no key is waiting; otherwise it does not answer
    while none is. *)
Definition getch (w : window) : Eff terminal Z :=
  fun t =>
    let key := keys t (reads t) in
    if on Nodelay t || negb (key =? ERR)
    then (Ret key, set_reads (Datatypes.S (reads t)) t)
    else (Timeout, t).

End Curses.

(** ** The interface a widget draws through

    A widget holds some object [stdscr] and only calls [addstr] and
    [refresh] on it.  [Surface W] says what such an object provides: the two
    operations, an observation of its cells and size, and the laws that
    connect them. *)
Class Surface (W : Type) : Type := {
  surf_addstr : Z -> Z -> string -> Z -> Eff W unit;
  surf_refresh : Eff W unit;
  surf_cell : W -> Z * Z -> option Curses.cell;
  surf_shown : W -> Z * Z -> option Curses.cell;
  surf_rows : W -> Z;
  surf_cols : W -> Z;
  (** a write that fits succeeds, keeps the size, and changes exactly the
      cells under the text *)
  surf_addstr_fits w y x s a :
    Curses.fits (surf_rows w) (surf_cols w) y x s ->
    exists w',
      surf_addstr y x s a w = (Ret tt, w') /\
      surf_rows w' = surf_rows w /\ surf_cols w' = surf_cols w /\
      (forall p, surf_shown w' p = surf_shown w p) /\
      forall y' x',
        surf_cell w' (y', x') =
        if decide (y' = y /\ (x <= x' < x + Z.of_nat (String.length s))%Z)
        then flip Curses.Cell a <$> String.get (Z.to_nat (x' - x)) s
        else surf_cell w (y', x');
  (** a write that does not fit raises and changes nothing *)
  surf_addstr_out w y x s a :
    ~ Curses.fits (surf_rows w) (surf_cols w) y x s ->
    surf_addstr y x s a w = (Raise CursesError, w);
  (** a refresh shows the buffer *)
  surf_refresh_shows w :
    exists w',
      surf_refresh w = (Ret tt, w') /\
      surf_rows w' = surf_rows w /\ surf_cols w' = surf_cols w /\
      (forall p, surf_cell w' p = surf_cell w p) /\
      forall p, surf_shown w' p = surf_cell w p
}.

Module CursesFacts.
Import Curses.
Local Open Scope Z_scope.

Implicit Types t : terminal.

(** ** Switches *)

Lemma on_switch m m' b t :
  on m (snd (switch m' b t)) = if decide (m = m') then b else on m t.
Proof.
  unfold on, switch, modify. simpl.
  destruct (decide (m = m')) as [->|Hne], b; simpl;
    [apply bool_decide_eq_true | apply bool_decide_eq_false
    | apply bool_decide_ext | apply bool_decide_ext]; set_solver.
Qed.

Lemma need_started_inv t r t' :
  need_started t = (r, t') ->
  t' = t /\ (r = Ret tt /\ on Started t = true \/
             r = Raise CursesError /\ on Started t = false).
Proof.
  unfold need_started, ret, raise.
  destruct (on Started t); intros [= <- <-]; auto.
Qed.

(** A guarded switch either does nothing and raises, or switches. *)
Lemma guarded_switch m b t :
  (need_started;; switch m b)%eff t =
  if on Started t then (Ret tt, snd (switch m b t)) else (Raise CursesError, t).
Proof. unfold bind, need_started. by destruct (on Started t). Qed.

Lemma fresh_cooked rows cols ks : cooked (fresh rows cols ks).
Proof. by repeat split. Qed.

(** ** The buffer *)

Lemma put_str_lookup y x s a b y' x' :
  put_str y x s a b !! (y', x') =
  if decide (y' = y /\ x <= x' < x + Z.of_nat (String.length s))
  then flip Cell a <$> String.get (Z.to_nat (x' - x)) s
  else b !! (y', x').
Proof.
  revert x b. induction s as [|ch s IH]; intros x b; simpl.
  { case_decide; [lia|done]. }
  rewrite IH. clear IH.
  destruct (decide (y' = y /\ x' = x)) as [[-> ->]|Hne].
  - rewrite decide_False by lia. rewrite decide_True by lia.
    rewrite lookup_insert_eq. by rewrite Z.sub_diag.
  - rewrite lookup_insert_ne by naive_solver.
    repeat case_decide; try lia; try done.
    replace (Z.to_nat (x' - x)) with (Datatypes.S (Z.to_nat (x' - (x + 1))))
      by lia.
    done.
Qed.

Lemma addstr_fits w y x s a t :
  fits (LINES t) (COLS t) y x s ->
  addstr w y x s a t = (Ret tt, set_buffer (put_str y x s a (buffer t)) t).
Proof. intros H. unfold addstr. by rewrite decide_True. Qed.

Lemma addstr_out w y x s a t :
  ~ fits (LINES t) (COLS t) y x s -> addstr w y x s a t = (Raise CursesError, t).
Proof. intros H. unfold addstr. by rewrite decide_False. Qed.

Lemma addch_in w y x ch t :
  in_bounds t y x = true ->
  addch w y x ch t = (Ret tt, set_buffer (<[(y, x) := Cell ch 0]> (buffer t)) t).
Proof. intros H. unfold addch. by rewrite H. Qed.

Lemma addch_out w y x ch t :
  in_bounds t y x = false -> addch w y x ch t = (Raise CursesError, t).
Proof. intros H. unfold addch. by rewrite H. Qed.

(** ** What each operation keeps

    [f] is an observation of the terminal; an operation keeps it when [f]
    does not look at the field the operation writes. *)

Section keeps.
Context {B : Type} (f : terminal -> B).

Lemma getch_keeps w :
  (forall v t, f (set_reads v t) = f t) -> preserves (same f) (getch w).
Proof.
  intros H. split. intros t. unfold getch.
  destruct (_ || _); [apply H|done].
Qed.

Lemma addch_keeps w y x ch :
  (forall v t, f (set_buffer v t) = f t) -> preserves (same f) (addch w y x ch).
Proof.
  intros H. split. intros t. unfold addch.
  destruct (in_bounds t y x); [apply H | done].
Qed.

Lemma addstr_keeps w y x s a :
  (forall v t, f (set_buffer v t) = f t) -> preserves (same f) (addstr w y x s a).
Proof. intros H. split. intros t. unfold addstr. case_decide; [apply H | done]. Qed.

Lemma clear_keeps w :
  (forall v t, f (set_buffer v t) = f t) -> preserves (same f) (clear w).
Proof. intros H. split. intros t. apply H. Qed.

Lemma refresh_keeps w :
  (forall v t, f (set_shown v t) = f t) -> preserves (same f) (refresh w).
Proof. intros H. split. intros t. apply H. Qed.

Lemma switch_keeps m b :
  (forall h t, f (set_modes h t) = f t) -> preserves (same f) (switch m b).
Proof. intros H. split. intros t. apply H. Qed.

Lemma guarded_keeps m b :
  (forall h t, f (set_modes h t) = f t) ->
  preserves (same f) (need_started;; switch m b)%eff.
Proof.
  intros H. split. intros t. rewrite guarded_switch.
  destruct (on Started t); [apply H | done].
Qed.

Lemma initscr_keeps :
  (forall h t, f (set_modes h t) = f t) ->
  (forall v t, f (set_buffer v t) = f t) -> preserves (same f) initscr.
Proof.
  intros Hm Hb. split. intros t. unfold initscr, same.
  destruct (available t); [|done]. simpl. by rewrite Hb, !Hm.
Qed.

Lemma init_pair_keeps n fg bg :
  (forall v t, f (set_pairs v t) = f t) -> preserves (same f) (init_pair n fg bg).
Proof.
  intros H. split. intros t. unfold init_pair.
  destruct (on Colors t); [apply H | done].
Qed.

End keeps.

(** ** Every operation keeps the surface sound

    Whatever is written lands on the surface or is refused: the cells of
    the buffer and of the screen stay within [LINES] x [COLS] and carry only
    the attributes the calls were given. *)

Section sound.
Context (attrs : list Z).

Lemma sound_picture t t' : picture t' = picture t -> sound attrs t -> sound attrs t'.
Proof.
  unfold sound, cell_ok, in_bounds. destruct t, t'. simpl. by intros [= -> -> -> ->].
Qed.

(** An operation that leaves the picture alone keeps it sound. *)
Lemma picture_sound {A} (m : Eff terminal A) :
  preserves (same picture) m -> preserves (keeps (sound attrs)) m.
Proof. apply same_keeps. apply sound_picture. Qed.

Lemma switch_sound m b : preserves (keeps (sound attrs)) (switch m b).
Proof. by apply picture_sound, switch_keeps. Qed.

Lemma guarded_sound m b :
  preserves (keeps (sound attrs)) (need_started;; switch m b)%eff.
Proof. by apply picture_sound, guarded_keeps. Qed.

Lemma getch_sound w : preserves (keeps (sound attrs)) (getch w).
Proof. by apply picture_sound, getch_keeps. Qed.

Lemma init_pair_sound n fg bg :
  preserves (keeps (sound attrs)) (init_pair n fg bg).
Proof.
  apply picture_sound. split. intros t. unfold init_pair.
  by destruct (on Colors t).
Qed.

Lemma clear_sound w : preserves (keeps (sound attrs)) (clear w).
Proof. split. intros t [_ Hs]. split; [apply map_Forall_empty | done]. Qed.

Lemma refresh_sound w : preserves (keeps (sound attrs)) (refresh w).
Proof. split. by intros t [Hb _]. Qed.

Lemma initscr_sound : preserves (keeps (sound attrs)) initscr.
Proof.
  split. intros t [Hb Hs]. unfold initscr.
  destruct (available t); [|by split].
  split; [apply map_Forall_empty | done].
Qed.

Lemma addch_sound w y x ch :
  0 ∈ attrs -> preserves (keeps (sound attrs)) (addch w y x ch).
Proof.
  intros H0. split. intros t [Hb Hs]. unfold addch.
  destruct (in_bounds t y x) eqn:E; [|by split].
  split; [|done]. by apply map_Forall_insert_2.
Qed.

(** The cells a string is laid on are those between its ends. *)
Lemma put_str_Forall (P : Z * Z -> cell -> Prop) y x s a b :
  map_Forall P b ->
  (forall x' ch, x <= x' < x + Z.of_nat (String.length s) -> P (y, x') (Cell ch a)) ->
  map_Forall P (put_str y x s a b).
Proof.
  revert x b. induction s as [|ch s IH]; intros x b Hb HP; [done|].
  simpl in *. apply IH.
  - apply map_Forall_insert_2; [apply HP; lia | done].
  - intros x' ch' Hx. apply HP. lia.
Qed.

Lemma addstr_sound w y x s a :
  a ∈ attrs -> preserves (keeps (sound attrs)) (addstr w y x s a).
Proof.
  intros Ha. split. intros t [Hb Hs]. unfold addstr.
  case_decide as Hfit; [|by split]. split; [|done]. simpl.
  apply put_str_Forall; [done|]. intros x' ch Hx. split; [|done].
  destruct Hfit as (Hy & Hx0 & Hlen). apply bool_decide_eq_true. simpl. lia.
Qed.

End sound.

(** More attributes allowed, still sound. *)
Lemma sound_mono attrs attrs' t :
  attrs ⊆ attrs' -> sound attrs t -> sound attrs' t.
Proof.
  intros Hsub [Hb Hs].
  split; (eapply map_Forall_impl; [done|]); intros p c [? ?]; split; auto.
Qed.

(** ** No operation of the terminal waits *)

Lemma need_started_total : total need_started.
Proof. intros t. unfold need_started. by destruct (on Started t). Qed.

Lemma initscr_total : total initscr.
Proof. intros t. unfold initscr. by destruct (available t). Qed.

Lemma init_pair_total n fg bg : total (init_pair n fg bg).
Proof. intros t. unfold init_pair. by destruct (on Colors t). Qed.

Lemma addch_total w y x ch : total (addch w y x ch).
Proof. intros t. unfold addch. by destruct (in_bounds t y x). Qed.

Lemma addstr_total w y x s a : total (addstr w y x s a).
Proof. intros t. unfold addstr. by case_decide. Qed.

(** In no-delay mode [getch] answers at once; without it, it waits for a
    key. *)
Lemma getch_answers w t :
  on Nodelay t = true \/ keys t (reads t) <> ERR ->
  getch w t = (Ret (keys t (reads t)), set_reads (Datatypes.S (reads t)) t).
Proof.
  unfold getch. intros [->|Hk]; [done|].
  apply Z.eqb_neq in Hk as ->. by rewrite orb_true_r.
Qed.

Lemma getch_blocks w t :
  on Nodelay t = false -> keys t (reads t) = ERR -> getch w t = (Timeout, t).
Proof. unfold getch. by intros -> ->. Qed.

(** ** Cooked terminals *)

Lemma switch_cooked m b : cooking m b -> preserves (keeps cooked) (switch m b).
Proof.
  intros Hc. split. intros t (H1 & H2 & H3 & H4). unfold cooked.
  rewrite !on_switch. unfold cooking in Hc.
  repeat (apply elem_of_cons in Hc as [[= -> ->]|Hc]; [by split_and!|]).
  by apply elem_of_nil in Hc.
Qed.

Lemma guarded_cooked m b :
  cooking m b -> preserves (keeps cooked) (need_started;; switch m b)%eff.
Proof.
  intros Hc. split. intros t. rewrite guarded_switch.
  destruct (on Started t); [apply (preserved (switch_cooked m b Hc)) | done].
Qed.

(** The four calls that release the terminal keep a cooked terminal
    cooked, whether they succeed or raise. *)
Lemma nocbreak_cooked : preserves (keeps cooked) nocbreak.
Proof. apply guarded_cooked. unfold cooking. set_solver. Qed.

Lemma keypad_cooked w : preserves (keeps cooked) (keypad w false).
Proof. apply switch_cooked. unfold cooking. set_solver. Qed.

Lemma echo_cooked : preserves (keeps cooked) echo.
Proof. apply guarded_cooked. unfold cooking. set_solver. Qed.

Lemma endwin_cooked : preserves (keeps cooked) endwin.
Proof. apply guarded_cooked. unfold cooking. set_solver. Qed.

Lemma on_true m t : m ∈ modes t -> on m t = true.
Proof. apply bool_decide_eq_true_2. Qed.

(** [endwin] ends the session it is called in. *)
Lemma endwin_cooks t :
  on Started t = true -> on Echo t = true -> on Cbreak t = false ->
  on Keypad t = false ->
  endwin t = (Ret tt, snd (endwin t)) /\ cooked (snd (endwin t)).
Proof.
  intros Hs He Hc Hk. unfold endwin. rewrite guarded_switch, Hs. simpl.
  split; [done|]. unfold cooked. rewrite !(on_switch _ Ended true t).
  by split_and!.
Qed.

End CursesFacts.

#[global] Hint Resolve CursesFacts.nocbreak_cooked CursesFacts.keypad_cooked
  CursesFacts.echo_cooked CursesFacts.endwin_cooked
  CursesFacts.need_started_total CursesFacts.initscr_total
  CursesFacts.init_pair_total CursesFacts.addch_total
  CursesFacts.addstr_total : eff.

(** The curses terminal is a surface. *)
#[export] Program Instance terminal_surface : Surface Curses.terminal := {|
  surf_addstr := Curses.addstr Curses.Stdscr;
  surf_refresh := Curses.refresh Curses.Stdscr;
  surf_cell t p := Curses.buffer t !! p;
  surf_shown t p := Curses.shown t !! p;
  surf_rows := Curses.LINES;
  surf_cols := Curses.COLS
|}.
Next Obligation.
  intros t y x s a H. eexists. split; [by apply CursesFacts.addstr_fits|].
  repeat split. intros y' x'. apply CursesFacts.put_str_lookup.
Qed.
Next Obligation. intros. by apply CursesFacts.addstr_out. Qed.
Next Obligation. intros t. by eexists. Qed.
