(* ===== verification/Runtime.v ===== *)
(** * Runtime: the world around the program

    What the program reaches besides the terminal: the random number
    generator ([random.randint]), the clock ([time.sleep]), the file system
    ([open(...).readlines()]) and standard output ([print]).  A [World] holds
    them with the terminal; a method of an object [O] is a computation over
    [O * World].  Also here: Python's truth test, which the code applies to
    tuples, strings and [None]. *)

From Stdlib Require Import Ascii QArith Qcanon.
From stdpp Require Import base tactics numbers option list strings gmap.
From S2P Require Import Prelude Curses.

(** ** Truthiness: what [if x:] tests *)

Class Truthy (A : Type) : Type := truthy : A -> bool.
#[global] Hint Mode Truthy ! : typeclass_instances.

#[export] Instance truthy_bool : Truthy bool := id.
#[export] Instance truthy_Z : Truthy Z := fun n => negb (n =? 0)%Z.
#[export] Instance truthy_string : Truthy string :=
  fun s => match s with EmptyString => false | _ => true end.
#[export] Instance truthy_list {A} : Truthy (list A) :=
  fun l => match l with [] => false | _ => true end.
(** A pair is a tuple of length two: never empty. *)
#[export] Instance truthy_pair {A B} : Truthy (A * B) := fun _ => true.
(** [None] is false; anything else is what it is. *)
#[export] Instance truthy_option {A} `{Truthy A} : Truthy (option A) :=
  fun o => match o with None => false | Some a => truthy a end.

(** ** Strings: [s * n] and [len(s)] *)

Fixpoint str_rep (n : nat) (s : string) : string :=
  match n with
  | O => EmptyString
  | Datatypes.S n' => String.append s (str_rep n' s)
  end.

(** [s * n]: the empty string when [n] is not positive. *)
Definition str_mul (s : string) (n : Z) : string := str_rep (Z.to_nat n) s.

Lemma length_append (s1 s2 : string) :
  String.length (String.append s1 s2) =
  (String.length s1 + String.length s2)%nat.
Proof. induction s1 as [|c s1 IH]; simpl; [done|]. by rewrite IH. Qed.

Lemma length_str_mul (s : string) (n : Z) :
  String.length (str_mul s n) = (Z.to_nat n * String.length s)%nat.
Proof.
  unfold str_mul. induction (Z.to_nat n) as [|k IH]; simpl; [done|].
  by rewrite length_append, IH.
Qed.

Module Runtime.
Local Open Scope Z_scope.
Local Open Scope eff_scope.

Record World : Type := mkWorld {
  term : Curses.terminal;
  rand : nat -> Z;                     (* raw value behind the n-th draw *)
  draws : nat;                         (* how many draws so far *)
  clock : Qc;                          (* seconds slept so far *)
  files : gmap string (list string);   (* the lines of each readable file *)
  stdout : list string                 (* what has been printed *)
}.

Definition set_term (v : Curses.terminal) (w : World) : World :=
  {| term := v; rand := rand w; draws := draws w; clock := clock w;
     files := files w; stdout := stdout w |}.

Definition set_draws (v : nat) (w : World) : World :=
  {| term := term w; rand := rand w; draws := v; clock := clock w;
     files := files w; stdout := stdout w |}.

Definition set_clock (v : Qc) (w : World) : World :=
  {| term := term w; rand := rand w; draws := draws w; clock := v;
     files := files w; stdout := stdout w |}.

Definition set_stdout (v : list string) (w : World) : World :=
  {| term := term w; rand := rand w; draws := draws w; clock := clock w;
     files := files w; stdout := v |}.

(** A world with a fresh terminal of the given size. *)
Definition boot (rows cols : Z) (ks : nat -> Z) (rnd : nat -> Z)
    (fs : gmap string (list string)) : World :=
  {| term := Curses.fresh rows cols ks; rand := rnd; draws := 0;
     clock := 0%Qc; files := fs; stdout := [] |}.

(** [random.randint(a, b)]: some integer of [a..b], [ValueError] when the
    range is empty. *)
Definition randint (a b : Z) : Eff World Z :=
  fun w =>
    if a <=? b
    then (Ret (a + rand w (draws w) mod (b - a + 1)),
          set_draws (Datatypes.S (draws w)) w)
    else raise ValueError w.

(** [time.sleep(d)]. *)
Definition sleep (d : Qc) : Eff World unit :=
  modify (fun w => set_clock (clock w + d)%Qc w).

(** [open(path).readlines()]. *)
Definition readlines (path : string) : Eff World (list string) :=
  fun w => or_raise FileNotFoundError (files w !! path) w.

(** [print(s)]. *)
Definition print (s : string) : Eff World unit :=
  modify (fun w => set_stdout (stdout w ++ [s]) w).

(** A terminal operation, in the world. *)
Definition tty {A} (m : Eff Curses.terminal A) : Eff World A :=
  zoom term set_term m.

(** ** Methods of an object [O] *)

Section methods.
Context {O : Type}.

Definition in_world {A} (m : Eff World A) : Eff (O * World) A :=
  zoom snd (fun w s => (fst s, w)) m.

Definition curses {A} (m : Eff Curses.terminal A) : Eff (O * World) A :=
  in_world (tty m).

(** Read an attribute of [self]. *)
Definition self {A} (f : O -> A) : Eff (O * World) A :=
  gets (fun s => f (fst s)).

(** Assign to an attribute of [self]. *)
Definition set_self (f : O -> O) : Eff (O * World) unit :=
  modify (fun s => (f (fst s), snd s)).

(** Run methods of another object [o'], in the same world: a local
    variable that holds an object nobody else refers to.  The object is
    dropped when the block is left. *)
Definition with_object {O' A} (o' : O') (m : Eff (O' * World) A)
  : Eff (O * World) A :=
  fun s => let '(r, s') := m (o', snd s) in (r, (fst s, snd s')).

End methods.

(** Run a method of the object [o] from code that holds no object (the
    module body): the value comes back with the object as the method left
    it. *)
Definition on_object {O A} (o : O) (m : Eff (O * World) A) : Eff World (A * O) :=
  fun w =>
    match m (o, w) with
    | (Ret a, s') => (Ret (a, fst s'), snd s')
    | (Raise e, s') => (Raise e, snd s')
    | (Timeout, s') => (Timeout, snd s')
    end.

End Runtime.

Module RuntimeFacts.
Import Runtime.
Local Open Scope Z_scope.
Local Open Scope eff_scope.

Lemma randint_in_range a b w :
  a <= b ->
  exists n, randint a b w = (Ret n, set_draws (Datatypes.S (draws w)) w) /\
            a <= n <= b.
Proof.
  intros Hab. unfold randint. rewrite (proj2 (Z.leb_le a b) Hab).
  eexists; split; [done|].
  pose proof (Z.mod_pos_bound (rand w (draws w)) (b - a + 1)). lia.
Qed.

Lemma randint_empty a b w : b < a -> randint a b w = (Raise ValueError, w).
Proof. intros H. unfold randint. by rewrite (proj2 (Z.leb_gt a b) H). Qed.

(** Every value of the range is what some generator gives. *)
Lemma randint_any a b n w :
  a <= n <= b -> rand w (draws w) = n - a ->
  randint a b w = (Ret n, set_draws (Datatypes.S (draws w)) w).
Proof.
  intros Hn Hr. unfold randint. rewrite (proj2 (Z.leb_le a b)) by lia.
  rewrite Hr, Z.mod_small by lia. do 2 f_equal. lia.
Qed.

Section methods.
Context {O : Type}.
Implicit Types (o : O) (w : World).

Lemma in_world_run {A} (m : Eff World A) o w :
  in_world m (o, w) = (fst (m w), (o, snd (m w))).
Proof. unfold in_world, zoom. simpl. by destruct (m w). Qed.

Lemma tty_run {A} (m : Eff Curses.terminal A) w :
  tty m w = (fst (m (term w)), set_term (snd (m (term w))) w).
Proof. unfold tty, zoom. by destruct (m (term w)). Qed.

Lemma curses_run {A} (m : Eff Curses.terminal A) o w :
  curses m (o, w) = (fst (m (term w)), (o, set_term (snd (m (term w))) w)).
Proof. unfold curses. by rewrite in_world_run, tty_run. Qed.

Lemma curses_gets {A} (f : Curses.terminal -> A) o w :
  curses (gets f) (o, w) = (Ret (f (term w)), (o, w)).
Proof. rewrite curses_run. simpl. by destruct w. Qed.

(** Terminal operations one after the other are one terminal program. *)
Lemma curses_bind {A B} (m : Eff Curses.terminal A)
    (k : A -> Eff Curses.terminal B) :
  (bind (curses m) (fun a => curses (k a)) : Eff (O * World) B) =e=
  curses (bind m k).
Proof.
  intros [o w]. unfold bind at 1. rewrite !curses_run. unfold bind.
  destruct (m (term w)) as [[a|e|] t']; simpl; [|done..].
  by rewrite curses_run.
Qed.

Lemma curses_for_each {A} (l : list A) (body : A -> Eff Curses.terminal unit) :
  (for_each l (fun x => curses (body x)) : Eff (O * World) unit) =e=
  curses (for_each l body).
Proof.
  induction l as [|x l IH]; intros [o w]; simpl.
  - rewrite curses_run. simpl. by destruct w.
  - rewrite <- (curses_bind _ _ (o, w)). unfold bind.
    destruct (curses (body x) (o, w)) as [[[]|e|] s']; [apply IH|done..].
Qed.

Lemma with_object_run {O' A} (o' : O') (m : Eff (O' * World) A) o w :
  with_object o' m (o, w) = (fst (m (o', w)), (o, snd (snd (m (o', w))))).
Proof. unfold with_object. simpl. by destruct (m (o', w)). Qed.

(** What the methods of a local object keep of the world, the caller
    keeps. *)
Lemma with_object_keeps {O' A B} (k : World -> B) (o' : O')
    (m : Eff (O' * World) A) :
  preserves (same (fun s : O' * World => k s.2)) m ->
  preserves (same (fun s : O * World => k s.2)) (with_object o' m).
Proof.
  intros [Hm]. split. intros [o w]. rewrite with_object_run. apply (Hm (o', w)).
Qed.

Lemma with_object_preserves {O' A} (R : relation World) (o' : O')
    (m : Eff (O' * World) A) :
  preserves (fun g g' : O' * World => R g.2 g'.2) m ->
  preserves (fun g g' : O * World => R g.2 g'.2) (with_object o' m).
Proof.
  intros [Hm]. split. intros [o w]. rewrite with_object_run. apply (Hm (o', w)).
Qed.

Lemma with_object_keeps_inv {O' A} (P : Curses.terminal -> Prop) (o' : O')
    (m : Eff (O' * World) A) :
  preserves (keeps (fun g : O' * World => P (term g.2))) m ->
  preserves (keeps (fun g : O * World => P (term g.2))) (with_object o' m).
Proof. apply (with_object_preserves (keeps (fun w => P (term w)))). Qed.

(** A method that only looks up an attribute and goes on. *)
Lemma self_bind {A B} (f : O -> A) (k : A -> Eff (O * World) B) o w :
  bind (self f) k (o, w) = k (f o) (o, w).
Proof. done. Qed.

(** ** What a method keeps

    An observation of the object is kept by everything that happens in the
    world; an observation of the terminal by what keeps it on the terminal
    and by everything that happens elsewhere. *)

Lemma curses_keeps_self {A B} (h : O -> B) (m : Eff Curses.terminal A) :
  preserves (same (fun g : O * World => h g.1)) (curses m).
Proof. by apply preserves_zoom_same. Qed.

Lemma in_world_keeps_self {A B} (h : O -> B) (m : Eff World A) :
  preserves (same (fun g : O * World => h g.1)) (in_world m).
Proof. by apply preserves_zoom_same. Qed.

(** A terminal operation relates the terminals as it does alone. *)
Lemma curses_lift {A} (R : relation Curses.terminal) (m : Eff Curses.terminal A) :
  preserves R m ->
  preserves (fun g g' : O * World => R (term g.2) (term g'.2)) (curses m).
Proof.
  intros [H]. split. intros [o w]. rewrite curses_run. simpl.
  destruct w. apply H.
Qed.

Lemma curses_keeps_term {A B} (f : Curses.terminal -> B)
    (m : Eff Curses.terminal A) :
  preserves (same f) m ->
  preserves (same (fun g : O * World => f (term g.2))) (curses m).
Proof. apply curses_lift. Qed.

Lemma curses_keeps_inv {A} (P : Curses.terminal -> Prop)
    (m : Eff Curses.terminal A) :
  preserves (keeps P) m ->
  preserves (keeps (fun g : O * World => P (term g.2))) (curses m).
Proof. apply curses_lift. Qed.

Lemma in_world_keeps {A B} (k : World -> B) (m : Eff World A) :
  preserves (same k) m ->
  preserves (same (fun g : O * World => k g.2)) (in_world m).
Proof. intros [H]. split. intros [o w]. rewrite in_world_run. apply H. Qed.

Lemma in_world_keeps_term {A B} (f : Curses.terminal -> B) (m : Eff World A) :
  preserves (same (fun w => f (term w))) m ->
  preserves (same (fun g : O * World => f (term g.2))) (in_world m).
Proof. apply (in_world_keeps (fun w => f (term w))). Qed.

Lemma curses_keeps_world {A B} (k : World -> B) (m : Eff Curses.terminal A) :
  (forall t w, k (set_term t w) = k w) ->
  preserves (same (fun g : O * World => k g.2)) (curses m).
Proof. intros H. split. intros [o w]. rewrite curses_run. apply H. Qed.

(** What leaves the terminal alone keeps every invariant of it. *)
Lemma term_keeps_inv {A} (P : Curses.terminal -> Prop) (m : Eff (O * World) A) :
  preserves (same (fun g : O * World => term g.2)) m ->
  preserves (keeps (fun g : O * World => P (term g.2))) m.
Proof. apply same_keeps. by intros s s' ->. Qed.

Lemma in_world_keeps_inv {A} (P : Curses.terminal -> Prop) (m : Eff World A) :
  preserves (same term) m ->
  preserves (keeps (fun g : O * World => P (term g.2))) (in_world m).
Proof. intros H. by apply term_keeps_inv, (in_world_keeps term). Qed.

(** The clock after a computation that ends in a sleep: it has moved by
    the time slept when the computation returns, and not at all when it
    raises on the way. *)
Lemma sleep_after_clock {A} (m : Eff (O * World) A) d g :
  preserves (same (fun g : O * World => clock g.2)) m ->
  clock (snd ((m;; in_world (sleep d)) g)).2 =
  (clock g.2 + (if returned (fst ((m;; in_world (sleep d)) g)) then d else 0))%Qc.
Proof.
  intros Hm. pose proof (preserved Hm g) as H. unfold same, bind in *.
  destruct (m g) as [[a|e|] [o w]]; simpl in *; rewrite H;
    by rewrite ?Qcplus_0_r.
Qed.

(** An assignment to an attribute leaves the terminal alone. *)
Lemma set_self_keeps_inv (P : Curses.terminal -> Prop) (f : O -> O) :
  preserves (keeps (fun g : O * World => P (term g.2))) (set_self f).
Proof. split. intros [o w] H. exact H. Qed.

End methods.

(** What a method does to the world, the code that calls it on an object
    of its own does. *)
Lemma on_object_preserves {O A} (R : relation World) (o : O)
    (m : Eff (O * World) A) :
  preserves (fun g g' : O * World => R g.2 g'.2) m ->
  preserves R (on_object o m).
Proof.
  intros [Hm]. split. intros w. specialize (Hm (o, w)). unfold on_object.
  by destruct (m (o, w)) as [[] ?].
Qed.

(** What leaves the terminal alone in the world keeps its invariants. *)
Lemma world_keeps_inv {A} (P : Curses.terminal -> Prop) (m : Eff World A) :
  preserves (same term) m -> preserves (keeps (fun w => P (term w))) m.
Proof. apply same_keeps. by intros s s' ->. Qed.

Lemma on_object_keeps_inv {O A} (P : Curses.terminal -> Prop) (o : O)
    (m : Eff (O * World) A) :
  preserves (keeps (fun g : O * World => P (term g.2))) m ->
  preserves (keeps (fun w => P (term w))) (on_object o m).
Proof. apply (on_object_preserves (keeps (fun w => P (term w)))). Qed.

Lemma tty_keeps_inv {A} (P : Curses.terminal -> Prop) (m : Eff Curses.terminal A) :
  preserves (keeps P) m -> preserves (keeps (fun w => P (term w))) (tty m).
Proof. intros [H]. split. intros w. rewrite tty_run. destruct w. apply H. Qed.

Lemma tty_keeps_term {A B} (f : Curses.terminal -> B)
    (m : Eff Curses.terminal A) :
  preserves (same f) m -> preserves (same (fun w => f (term w))) (tty m).
Proof. intros [H]. split. intros w. rewrite tty_run. destruct w. apply H. Qed.

Lemma tty_keeps {A B} (k : World -> B) (m : Eff Curses.terminal A) :
  (forall t w, k (set_term t w) = k w) -> preserves (same k) (tty m).
Proof. intros H. by apply preserves_zoom_same. Qed.

Lemma randint_keeps {B} (k : World -> B) a b :
  (forall v w, k (set_draws v w) = k w) -> preserves (same k) (randint a b).
Proof.
  intros H. split. intros w. unfold randint.
  destruct (a <=? b); [apply H | done].
Qed.

Lemma sleep_keeps {B} (k : World -> B) d :
  (forall v w, k (set_clock v w) = k w) -> preserves (same k) (sleep d).
Proof. intros H. split. intros w. apply H. Qed.

Lemma print_keeps {B} (k : World -> B) s :
  (forall v w, k (set_stdout v w) = k w) -> preserves (same k) (print s).
Proof. intros H. split. intros w. apply H. Qed.

Lemma readlines_keeps {B} (k : World -> B) path :
  preserves (same k) (readlines path).
Proof. split. intros w. unfold readlines. by destruct (files w !! path). Qed.

Lemma randint_total a b : total (randint a b).
Proof. intros w. unfold randint. by destruct (a <=? b). Qed.

Lemma readlines_total path : total (readlines path).
Proof. intros w. unfold readlines. by destruct (files w !! path). Qed.

End RuntimeFacts.

#[global] Hint Resolve RuntimeFacts.randint_total RuntimeFacts.readlines_total
  : eff.

#[export] Hint Rewrite @RuntimeFacts.in_world_run @RuntimeFacts.curses_gets
  @RuntimeFacts.curses_run @RuntimeFacts.tty_run : eff_rw.

(** Go through a method construct by construct; what is left are the
    assignments and the operations of the terminal and the world. *)
Ltac keeps_leaf :=
  first
    [ apply RuntimeFacts.curses_keeps_self
    | apply RuntimeFacts.in_world_keeps_self
    | apply RuntimeFacts.curses_keeps_term
    | apply RuntimeFacts.curses_keeps_inv
    | apply RuntimeFacts.in_world_keeps_term
    | apply RuntimeFacts.curses_keeps_world
    | apply RuntimeFacts.in_world_keeps
    | apply RuntimeFacts.randint_keeps
    | apply RuntimeFacts.sleep_keeps
    | apply RuntimeFacts.print_keeps
    | apply RuntimeFacts.readlines_keeps
    | apply CursesFacts.getch_keeps
    | apply CursesFacts.addch_keeps
    | apply CursesFacts.addstr_keeps
    | apply CursesFacts.clear_keeps
    | apply CursesFacts.refresh_keeps
    | apply CursesFacts.guarded_keeps
    | apply CursesFacts.switch_keeps
    | apply CursesFacts.initscr_keeps
    | apply CursesFacts.init_pair_keeps
    | apply RuntimeFacts.tty_keeps_term
    | apply CursesFacts.addch_sound; solve [set_solver]
    | apply CursesFacts.addstr_sound; solve [set_solver]
    | apply CursesFacts.initscr_sound
    | apply CursesFacts.clear_sound
    | apply CursesFacts.refresh_sound
    | apply CursesFacts.getch_sound
    | apply CursesFacts.init_pair_sound
    | apply CursesFacts.guarded_sound
    | apply CursesFacts.switch_sound
    | apply RuntimeFacts.tty_keeps_inv
    | apply RuntimeFacts.set_self_keeps_inv
    | apply RuntimeFacts.with_object_keeps_inv
    | apply RuntimeFacts.on_object_keeps_inv
    | apply (RuntimeFacts.on_object_preserves (same _))
    | apply RuntimeFacts.in_world_keeps_inv
    | apply RuntimeFacts.world_keeps_inv;
      first [ apply RuntimeFacts.print_keeps | apply RuntimeFacts.sleep_keeps
            | apply RuntimeFacts.randint_keeps
            | apply RuntimeFacts.readlines_keeps ]; done ].

(** A sequence is taken apart before its calls are looked at. *)
Ltac keeps_step :=
  lazymatch goal with
  | |- preserves _ (bind _ _) => first [solve [auto with eff] | preserves_step]
  | |- _ =>
      first [ solve [auto with eff] | keeps_leaf | preserves_step
            | apply RuntimeFacts.term_keeps_inv ]
  end.

Ltac solve_keeps := repeat keeps_step; try done.
