(* ===== verification/SnakeLogic.v ===== *)
(** * SnakeLogic: the [Snake] object and one tick of the game

    [Snake.__init__] and [Snake._update_logic] of [src/snake.py]
    (lines 102-165).  A tick has four phases, each a definition of its own:
    [spawn_food] (lines 144-145), [read_input] (147-149), [move] (151-159)
    and [eat] (161-163); [_update_logic] is their composition, with the early
    [return False] of line 159.  The state is the object and the world; the
    tick reads [curses.LINES]/[COLS], one key and up to four random numbers.

    Beside the method stands [tick], the same tick as a function without
    effects.  The lemmas of this file say how each phase runs from a state
    that meets its needs and what it leaves alone; the theorems, that
    [_add_tuples] adds by columns and that from a well-formed state the
    method is [tick].  What the tick does to the game is in [SnakeTick];
    the predicates its theorems speak of ([wf], [on_screen], [chain]) are
    defined here. *)

From Stdlib Require Import Ascii.
From stdpp Require Import base tactics numbers option list strings gmap sorting.
From S2P Require Import Prelude Curses Runtime.

Module Snake.
Import Runtime.
Local Open Scope Z_scope.
Local Open Scope eff_scope.

(** A cell of the screen, [(y, x)]. *)
Definition pos : Type := (Z * Z)%type.

(** A Python tuple of integers, of any length. *)
Definition tuple : Type := list Z.

Definition tuple_of_pos (p : pos) : tuple := [p.1; p.2].

Definition pos_of_tuple (t : tuple) : option pos :=
  match t with [y; x] => Some (y, x) | _ => None end.

(** ** Class attributes (lines 103-105) *)

Definition FRAMERATE : Z := 6.
Definition SNAKE_CHAR : ascii := "#"%char.
Definition FOOD_CHAR : ascii := "*"%char.

(** ** The object (lines 107-112) *)

Record Snake : Type := mkSnake {
  snake : list pos;                  (* tail first, head last *)
  food : option pos;
  stdscr : option Curses.window;
  facing : string;
  score : Z
}.

Definition set_snake (v : list pos) (s : Snake) : Snake :=
  {| snake := v; food := food s; stdscr := stdscr s; facing := facing s;
     score := score s |}.

Definition set_food (v : option pos) (s : Snake) : Snake :=
  {| snake := snake s; food := v; stdscr := stdscr s; facing := facing s;
     score := score s |}.

Definition set_stdscr (v : option Curses.window) (s : Snake) : Snake :=
  {| snake := snake s; food := food s; stdscr := v; facing := facing s;
     score := score s |}.

Definition set_facing (v : string) (s : Snake) : Snake :=
  {| snake := snake s; food := food s; stdscr := stdscr s; facing := v;
     score := score s |}.

Definition __init__ : Snake :=
  {| snake := [(0, 0)]; food := None; stdscr := None; facing := "right";
     score := 0 |}.

(** ** [_add_tuples] (lines 124-126) *)

(** [zip] of the unpacked [args]: the columns of [args], as many as the
    shortest argument has elements, and none when there is no argument. *)
Fixpoint zip_star (n : nat) (args : list tuple) : list (list Z) :=
  match n with
  | O => []
  | Datatypes.S n' =>
      match mapM head args with
      | Some col => col :: zip_star n' (tail <$> args)
      | None => []
      end
  end.

(** [sum(col)]. *)
Definition sum (col : list Z) : Z := foldl Z.add 0 col.

Definition _add_tuples (args : list tuple) : tuple :=
  sum <$> zip_star (from_option length 0%nat (head args)) args.

(** ** The tables of [_update_logic] (lines 130-142) *)

Definition keypress_movement_mapping : gmap Z string :=
  {[ Curses.KEY_LEFT := "left"; Curses.KEY_RIGHT := "right";
     Curses.KEY_UP := "up"; Curses.KEY_DOWN := "down" ]}.

Definition directional_mapping : gmap string pos :=
  {[ "left" := (0, -1); "right" := (0, 1); "up" := (-1, 0); "down" := (1, 0) ]}.

(** ** The phases of a tick *)

(** [(randint(0, curses.LINES - 1), randint(0, curses.COLS - 1))]
    (lines 145 and 163). *)
Definition random_cell : Eff (Snake * World) pos :=
  rows <- curses (gets Curses.LINES);;
  y <- in_world (randint 0 (rows - 1));;
  cols <- curses (gets Curses.COLS);;
  x <- in_world (randint 0 (cols - 1));;
  ret (y, x).

(** Lines 144-145. *)
Definition spawn_food : Eff (Snake * World) unit :=
  f <- self food;;
  if negb (truthy f)
  then (c <- random_cell;; set_self (set_food (Some c)))
  else ret tt.

(** Lines 147-149. *)
Definition read_input : Eff (Snake * World) unit :=
  scr <- self stdscr;;
  w <- or_raise AttributeError scr;;
  key <- curses (Curses.getch w);;
  let input_val := keypress_movement_mapping !! key in
  if truthy input_val
  then match input_val with
       | Some v => set_self (set_facing v)
       | None => ret tt
       end
  else ret tt.

(** The test of line 155. *)
Definition on_board (rows cols : Z) (p : pos) : bool :=
  (0 <=? p.1) && (p.1 <? rows) && (0 <? p.2) && (p.2 <=? cols).

(** Lines 151-159: the head the snake had, when it moved; [None] when the
    cell ahead is off the board and the tick is to return [False]. *)
Definition move : Eff (Snake * World) (option pos) :=
  body <- self snake;;
  hd <- or_raise IndexError (last body);;
  dir <- self facing;;
  delta <- or_raise KeyError (directional_mapping !! dir);;
  new_pos <- or_raise IndexError
               (pos_of_tuple (_add_tuples [tuple_of_pos hd; tuple_of_pos delta]));;
  rows <- curses (gets Curses.LINES);;
  cols <- curses (gets Curses.COLS);;
  if on_board rows cols new_pos
  then (set_self (fun s => set_snake (snake s ++ [new_pos]) s);;
        body' <- self snake;;
        rest <- pop0 body';;
        set_self (set_snake rest);;
        ret (Some hd))
  else ret None.

(** Lines 161-163. *)
Definition eat (hd : pos) : Eff (Snake * World) unit :=
  f <- self food;;
  if decide (Some hd = f)
  then (body <- self snake;;
        first <- or_raise IndexError (head body);;
        set_self (set_snake (first :: body));;
        c <- random_cell;;
        set_self (set_food (Some c)))
  else ret tt.

(** ** The tick (lines 128-165) *)

Definition _update_logic : Eff (Snake * World) bool :=
  spawn_food;;
  read_input;;
  moved <- move;;
  match moved with
  | Some hd => eat hd;; ret true
  | None => ret false
  end.

(** ** What the theorems speak of *)

(** The direction the snake faces once the key [key] has been read. *)
Definition steer (key : Z) (dir : string) : string :=
  default dir (keypress_movement_mapping !! key).

(** The cell ahead of [hd] in direction [dir]. *)
Definition ahead (hd : pos) (dir : string) : option pos :=
  (fun d : pos => (hd.1 + d.1, hd.2 + d.2)) <$> directional_mapping !! dir.

(** Two cells are near when they are the same cell or neighbours in a
    row or in a column. *)
Definition near (c c' : pos) : Prop :=
  Z.abs (c'.1 - c.1) + Z.abs (c'.2 - c.2) <= 1.

#[export] Instance near_dec c c' : Decision (near c c').
Proof. unfold near. apply _. Defined.

#[export] Instance near_refl : Reflexive near.
Proof. intros c. unfold near. lia. Qed.

(** The body is a chain: every cell is near the one before it. *)
Definition chain (l : list pos) : Prop := Sorted near l.

#[export] Instance chain_dec l : Decision (chain l).
Proof. unfold chain. apply _. Defined.

(** The body of the snake of [g] is a chain. *)
Definition chained (g : Snake * World) : Prop := chain (snake g.1).

(** The key the next [getch] answers. *)
Definition next_key (g : Snake * World) : Z :=
  Curses.keys (term g.2) (Curses.reads (term g.2)).

(** The terminal has at least one cell. *)
Definition room (w : World) : Prop :=
  0 < Curses.LINES (term w) /\ 0 < Curses.COLS (term w).

(** Keys are polled: the terminal is in no-delay mode, where [getch]
    answers whether or not a key is waiting. *)
Definition polling (w : World) : Prop :=
  Curses.on Curses.Nodelay (term w) = true.

(** The next [getch] answers: keys are polled, or one is waiting. *)
Definition answering (g : Snake * World) : Prop :=
  polling g.2 \/ next_key g <> Curses.ERR.

(** What a tick needs to run to its end. *)
Definition ready (g : Snake * World) : Prop :=
  snake g.1 <> [] /\
  is_Some (directional_mapping !! facing g.1) /\
  is_Some (stdscr g.1) /\
  room g.2 /\
  answering g.

(** Well-formed game states: the body is not empty, [facing] is a key of
    [directional_mapping], the screen has been created, it has room and
    its keys are polled. *)
Definition wf (g : Snake * World) : Prop :=
  snake g.1 <> [] /\
  is_Some (directional_mapping !! facing g.1) /\
  is_Some (stdscr g.1) /\
  room g.2 /\
  polling g.2.

#[export] Instance wf_dec g : Decision (wf g).
Proof. unfold wf, room, polling. apply _. Defined.

#[export] Instance ready_dec g : Decision (ready g).
Proof. unfold ready, room, answering, polling. apply _. Defined.

(** A start state for examples: the given body, food and direction on a
    [rows] x [cols] terminal in no-delay mode. *)
Definition game (rows cols : Z) (body : list pos) (f : option pos)
    (dir : string) (ks rnd : nat -> Z) : Snake * World :=
  ({| snake := body; food := f; stdscr := Some Curses.Stdscr; facing := dir;
      score := 0 |},
   let w := boot rows cols ks rnd ∅ in
   set_term (Curses.set_modes (union {[Curses.Nodelay]}) (term w)) w).

(** No key is ever waiting; a generator for the examples. *)
Definition nokey : nat -> Z := fun _ => Curses.ERR.
Definition dice : nat -> Z := fun n => 7 + 13 * Z.of_nat n.

(** The states of the scenarios: a lone cell heading right with no food
    yet; two cells with the food under the first; a cell in column 1
    heading left; three cells with the food under the head. *)
Definition scenario1 : Snake * World :=
  game 24 80 [(5, 5)] None "right" nokey dice.
Definition scenario2 : Snake * World :=
  game 24 80 [(5, 5); (5, 6)] (Some (5, 5)) "right" nokey dice.
Definition scenario3 : Snake * World :=
  game 24 80 [(0, 1)] None "left" nokey dice.
Definition feeding : Snake * World :=
  game 24 80 [(5, 4); (5, 5); (5, 6)] (Some (5, 6)) "right" nokey dice.
(** Three cells heading right when the left key is pressed. *)
Definition reversing : Snake * World :=
  game 24 80 [(5, 4); (5, 5); (5, 6)] (Some (9, 9)) "right"
    (fun _ => Curses.KEY_LEFT) dice.
(** The head in the last column of the screen, heading right. *)
Definition at_right_edge : Snake * World :=
  game 24 80 [(3, 79)] (Some (9, 9)) "right" nokey dice.

(** A lone cell on a screen that was never put in no-delay mode, with no
    key pressed. *)
Definition waiting : Snake * World :=
  (scenario1.1, boot 24 80 nokey dice ∅).

(** Evaluate, then close what is left. *)
Ltac by_compute := vm_compute; repeat split; try done; try lia; eauto.

(** ** A tick without effects: the reference the method is compared with *)

(** The cell the next two draws give, and the world once they are drawn. *)
Definition drawn (w : World) : pos :=
  (rand w (draws w) mod Curses.LINES (term w),
   rand w (Datatypes.S (draws w)) mod Curses.COLS (term w)).

Definition drew (w : World) : World :=
  set_draws (Datatypes.S (Datatypes.S (draws w))) w.

(** The world once a key is read. *)
Definition read (w : World) : World :=
  set_term (Curses.set_reads (Datatypes.S (Curses.reads (term w))) (term w)) w.

Definition fed (g : Snake * World) : Snake * World :=
  match food g.1 with
  | None => (set_food (Some (drawn g.2)) g.1, drew g.2)
  | Some _ => g
  end.

Definition steered (g : Snake * World) : Snake * World :=
  (set_facing (steer (next_key g) (facing g.1)) g.1, read g.2).

(** The cell the head is about to enter. *)
Definition target (g : Snake * World) : option pos :=
  hd ← last (snake g.1); ahead hd (facing g.1).

Definition moved (new : pos) (g : Snake * World) : Snake * World :=
  (set_snake (tail (snake g.1 ++ [new])) g.1, g.2).

Definition grown (g : Snake * World) : Snake * World :=
  match snake g.1 with
  | first :: _ =>
      (set_food (Some (drawn g.2)) (set_snake (first :: snake g.1) g.1),
       drew g.2)
  | [] => g
  end.

Definition tick (g : Snake * World) : bool * (Snake * World) :=
  let g2 := steered (fed g) in
  match target g2 with
  | Some new =>
      if on_board (Curses.LINES (term g2.2)) (Curses.COLS (term g2.2)) new
      then (true,
            if decide (last (snake g2.1) = food g2.1)
            then grown (moved new g2) else moved new g2)
      else (false, g2)
  | None => (false, g2)
  end.

(** The cell the head enters this tick: the one ahead of the head in the
    direction held once the key is read. *)
Definition cell_ahead (g : Snake * World) : option pos :=
  hd ← last (snake g.1); ahead hd (steer (next_key g) (facing g.1)).

(** The food the tick is played with: the food there was, or else the one
    drawn when the tick starts. *)
Definition food_in_play (g : Snake * World) : option pos := food (fed g).1.

(** [l.insert(0, l[0])] (line 162). *)
Definition dup_first (l : list pos) : list pos :=
  match l with first :: _ => first :: l | [] => [] end.

(** A cell of the terminal. *)
Definition on_screen (w : World) (p : pos) : Prop :=
  0 <= p.1 < Curses.LINES (term w) /\ 0 <= p.2 < Curses.COLS (term w).

#[global] Instance on_screen_dec w p : Decision (on_screen w p).
Proof. unfold on_screen. apply _. Defined.

(** ** [_add_tuples] by columns: the reference *)

(** The number of columns [zip] gives: the length of the shortest argument,
    none without arguments. *)
Definition width (args : list tuple) : nat :=
  match args with
  | [] => 0
  | t :: ts => foldr (fun t' n => Nat.min (length t') n) (length t) ts
  end.

(** The [i]-th element of each argument. *)
Definition column (i : nat) (args : list tuple) : list Z :=
  (fun t => t !!! i) <$> args.

(** Addition by components: the [i]-th element of the result is the sum
    of the [i]-th elements of the arguments. *)
Definition add_columns (args : list tuple) : tuple :=
  (fun i => sum (column i args)) <$> seq 0 (width args).

Arguments fed : simpl never.
Arguments steered : simpl never.
Arguments moved : simpl never.
Arguments grown : simpl never.
Arguments target : simpl never.

(** Unfold the reference phases on a state taken apart. *)
Ltac frame :=
  intros;
  repeat match goal with g : (Snake * World)%type |- _ => destruct g as [? ?] end;
  cbv [fed steered moved grown] in *; simpl in *;
  repeat case_match; simpl in *; try done.

(** * Theorems *)

Implicit Types (s : Snake) (w : World) (g : Snake * World) (p hd : pos).

(** ** The tables *)

Lemma keypress_values key v :
  keypress_movement_mapping !! key = Some v ->
  v ∈ ["left"; "right"; "up"; "down"].
Proof.
  unfold keypress_movement_mapping. intros H.
  repeat (apply lookup_insert_Some in H as [[_ <-]|[_ H]]; [set_solver|]).
  apply lookup_singleton_Some in H as [_ <-]. set_solver.
Qed.

Lemma directions dir :
  is_Some (directional_mapping !! dir) <->
  dir ∈ ["left"; "right"; "up"; "down"].
Proof.
  split.
  - intros [d H]. unfold directional_mapping in H.
    repeat (apply lookup_insert_Some in H as [[<- _]|[_ H]]; [set_solver|]).
    apply lookup_singleton_Some in H as [<- _]. set_solver.
  - intros H. repeat (apply elem_of_cons in H as [->|H]; [by eexists|]).
    by apply elem_of_nil in H.
Qed.

(** A direction is one cell: the deltas of the table are the unit moves. *)
Lemma unit_deltas dir d :
  directional_mapping !! dir = Some d -> Z.abs d.1 + Z.abs d.2 = 1.
Proof.
  intros H. assert (Hd : is_Some (directional_mapping !! dir)) by eauto.
  apply directions in Hd.
  repeat (apply elem_of_cons in Hd as [->|Hd]; [by inversion H|]).
  by apply elem_of_nil in Hd.
Qed.

Lemma delta_cases dir d :
  directional_mapping !! dir = Some d ->
  d ∈ [(0, -1); (0, 1); (-1, 0); (1, 0)].
Proof.
  intros H. assert (Hd : is_Some (directional_mapping !! dir)) by eauto.
  apply directions in Hd.
  repeat (apply elem_of_cons in Hd as [->|Hd];
          [injection H as <-; set_solver|]).
  by apply elem_of_nil in Hd.
Qed.

Lemma keypress_truthy key :
  truthy (keypress_movement_mapping !! key) =
  bool_decide (is_Some (keypress_movement_mapping !! key)).
Proof.
  destruct (keypress_movement_mapping !! key) as [v|] eqn:E; [|done].
  apply keypress_values in E.
  repeat (apply elem_of_cons in E as [->|E]; [done|]).
  by apply elem_of_nil in E.
Qed.

Lemma steer_valid key dir :
  is_Some (directional_mapping !! dir) ->
  is_Some (directional_mapping !! steer key dir).
Proof.
  intros H. unfold steer.
  destruct (keypress_movement_mapping !! key) as [v|] eqn:E; [|done].
  apply directions. by apply keypress_values in E.
Qed.

(** ** [_add_tuples] *)

(** On two pairs [_add_tuples] is the sum by components. *)
Lemma add_tuples_pair p d :
  pos_of_tuple (_add_tuples [tuple_of_pos p; tuple_of_pos d]) =
  Some (p.1 + d.1, p.2 + d.2).
Proof. done. Qed.

Lemma zip_star_length n args :
  Forall (fun t => n <= length t)%nat args -> args <> [] ->
  length (zip_star n args) = n.
Proof.
  revert args. induction n as [|n IH]; intros args Hall Hne; [done|]. simpl.
  destruct (mapM head args) as [col|] eqn:E.
  - simpl. f_equal. apply IH.
    + apply Forall_fmap. eapply Forall_impl; [done|].
      intros [|z t]; simpl; lia.
    + by destruct args.
  - apply mapM_None in E. apply Exists_exists in E as (t & Ht & Hh).
    rewrite Forall_forall in Hall. specialize (Hall t Ht).
    destruct t; [simpl in Hall; lia | done].
Qed.

(** The result is as long as the first argument when no argument is
    shorter. *)
Lemma add_tuples_length t args :
  Forall (fun t' => length t <= length t')%nat args ->
  length (_add_tuples (t :: args)) = length t.
Proof.
  intros H. unfold _add_tuples. simpl. rewrite length_fmap.
  apply zip_star_length; [|done]. by constructor.
Qed.

(** ** [_add_tuples] adds by columns *)

Lemma width_le args t : t ∈ args -> (width args <= length t)%nat.
Proof.
  destruct args as [|t0 ts]; [by intros ?%elem_of_nil|]. simpl.
  intros [->|Hin]%elem_of_cons.
  - induction ts as [|t' ts IH]; simpl; lia.
  - induction ts as [|t' ts IH]; [by apply elem_of_nil in Hin|]. simpl.
    apply elem_of_cons in Hin as [->|Hin]; [lia|]. specialize (IH Hin). lia.
Qed.

Lemma width_empty args : [] ∈ args -> width args = 0%nat.
Proof. intros H%width_le. simpl in H. lia. Qed.

Lemma width_tail args :
  args <> [] -> Forall (fun t => t <> []) args ->
  width args = Datatypes.S (width (tail <$> args)).
Proof.
  destruct args as [|t0 ts]; [done|]. intros _ [H0 Hts]%Forall_cons. simpl.
  induction Hts as [|t' ts H' _ IH]; simpl.
  - by destruct t0.
  - rewrite IH. destruct t'; [done|]. simpl. lia.
Qed.

(** The heads of the arguments, when none is empty. *)
Lemma mapM_head args :
  Forall (fun t => t <> []) args -> mapM head args = Some (column 0 args).
Proof.
  intros H. apply mapM_Some. unfold column. apply Forall2_fmap_r.
  apply Forall_Forall2_diag. eapply Forall_impl; [done|]. by intros [|z t].
Qed.

Lemma column_tail i args : column i (tail <$> args) = column (Datatypes.S i) args.
Proof.
  unfold column. rewrite <- list_fmap_compose. apply list_fmap_ext.
  intros _ [|z t] _; simpl; [done|]. done.
Qed.

Lemma zip_star_columns n args :
  args <> [] ->
  zip_star n args = (fun i => column i args) <$> seq 0 (Nat.min n (width args)).
Proof.
  revert args. induction n as [|n IH]; intros args Hne; [done|]. cbn [zip_star].
  destruct (decide (Forall (fun t => t <> []) args)) as [Hall|Hex].
  - rewrite (mapM_head args Hall), (width_tail args Hne Hall). simpl. f_equal.
    rewrite IH by (by destruct args).
    rewrite <- fmap_S_seq, <- list_fmap_compose.
    apply list_fmap_ext. intros _ i _. apply column_tail.
  - apply not_Forall_Exists in Hex; [|apply _].
    apply Exists_exists in Hex as (t & Hin & Hnil%dec_stable). subst t.
    rewrite (width_empty args Hin), Nat.min_0_r.
    by rewrite (proj2 (mapM_None head args)) by (apply Exists_exists; eauto).
Qed.

(** C24: [_add_tuples] is addition by components: for any number of
    tuples of any lengths, [tuple(map(sum, zip( *args)))] is the tuple of the
    sums of the columns, as long as the shortest argument and empty without
    arguments. *)
Theorem add_tuples_columnwise args : _add_tuples args = add_columns args.
Proof.
  unfold _add_tuples, add_columns. destruct args as [|t ts]; [done|].
  rewrite zip_star_columns by done. rewrite <- list_fmap_compose.
  rewrite Nat.min_r; [done|]. apply (width_le (t :: ts) t). by left.
Qed.

(** ** The phases, run from a state that meets their needs *)

Lemma random_cell_run s w :
  room w -> random_cell (s, w) = (Ret (drawn w), (s, drew w)).
Proof.
  intros [HL HC]. destruct w as [t rnd n clk fs out]. simpl in *.
  unfold random_cell, drawn, drew.
  assert (H1 : (0 <=? Curses.LINES t - 1) = true). { apply Z.leb_le. lia. }
  assert (H2 : (0 <=? Curses.COLS t - 1) = true) by (apply Z.leb_le; lia).
  cbv [bind curses in_world tty zoom gets randint ret]. simpl.
  rewrite H1. simpl. rewrite H2. simpl. rewrite !Z.add_0_l.
  replace (Curses.LINES t - 1 - 0 + 1) with (Curses.LINES t) by lia.
  by replace (Curses.COLS t - 1 - 0 + 1) with (Curses.COLS t) by lia.
Qed.

Lemma spawn_food_run g : room g.2 -> spawn_food g = (Ret tt, fed g).
Proof.
  intros Hr. destruct g as [s w]. unfold spawn_food, fed. simpl.
  rewrite (bind_Ret _ _ _ (food s) (s, w)) by done.
  destruct (food s) as [p|] eqn:E; simpl; [done|].
  by rewrite (bind_Ret _ _ _ _ _ (random_cell_run _ _ Hr)).
Qed.

Lemma set_facing_id s : set_facing (facing s) s = s.
Proof. by destruct s. Qed.

Lemma read_input_run g :
  is_Some (stdscr g.1) -> answering g -> read_input g = (Ret tt, steered g).
Proof.
  intros [scr Hs] Hp. destruct g as [s w].
  unfold read_input, steered, steer, next_key, answering in *. simpl in *.
  rewrite (bind_Ret _ _ _ (stdscr s) (s, w)) by done. rewrite Hs. simpl.
  erewrite bind_Ret by done.
  erewrite bind_Ret
    by (by rewrite RuntimeFacts.curses_run, CursesFacts.getch_answers).
  simpl. rewrite keypress_truthy.
  destruct (keypress_movement_mapping !! _) as [v|]; simpl; [done|].
  by rewrite set_facing_id.
Qed.

Lemma move_run g hd new :
  last (snake g.1) = Some hd -> ahead hd (facing g.1) = Some new ->
  move g =
  if on_board (Curses.LINES (term g.2)) (Curses.COLS (term g.2)) new
  then (Ret (Some hd), moved new g) else (Ret None, g).
Proof.
  destruct g as [s w]. unfold ahead, moved. simpl. intros Hl Ha.
  destruct (directional_mapping !! facing s) as [d|] eqn:Hd; [|done].
  injection Ha as <-. unfold move.
  rewrite (bind_Ret _ _ _ (snake s) (s, w)) by done. rewrite Hl. simpl.
  erewrite bind_Ret by done.
  rewrite (bind_Ret _ _ _ (facing s) (s, w)) by done. rewrite Hd. simpl.
  erewrite bind_Ret by done.
  erewrite bind_Ret by done.
  erewrite bind_Ret by apply RuntimeFacts.curses_gets.
  erewrite bind_Ret by apply RuntimeFacts.curses_gets.
  destruct (on_board _ _ _); [|done].
  cbv [bind set_self modify self gets ret]. simpl.
  rewrite pop0_tail; [done|]. by destruct (snake s).
Qed.

Lemma eat_run g hd :
  room g.2 -> snake g.1 <> [] ->
  eat hd g = (Ret tt, if decide (Some hd = food g.1) then grown g else g).
Proof.
  destruct g as [s w]. simpl. intros Hr Hne. unfold eat, grown.
  rewrite (bind_Ret _ _ _ (food s) (s, w)) by done. simpl.
  case_decide; [|done].
  destruct (snake s) as [|first body] eqn:Hs; [done|].
  rewrite (bind_Ret _ _ _ (snake s) (s, w)) by done. rewrite Hs. simpl.
  erewrite bind_Ret by done. erewrite bind_Ret by done.
  erewrite bind_Ret by (by apply random_cell_run). done.
Qed.

(** ** What each phase leaves alone *)

Lemma fed_frame g :
  snake (fed g).1 = snake g.1 /\ facing (fed g).1 = facing g.1 /\
  stdscr (fed g).1 = stdscr g.1 /\ score (fed g).1 = score g.1 /\
  term (fed g).2 = term g.2.
Proof. frame. Qed.

Lemma steered_frame g :
  snake (steered g).1 = snake g.1 /\ food (steered g).1 = food g.1 /\
  stdscr (steered g).1 = stdscr g.1 /\ score (steered g).1 = score g.1 /\
  Curses.LINES (term (steered g).2) = Curses.LINES (term g.2) /\
  Curses.COLS (term (steered g).2) = Curses.COLS (term g.2).
Proof. frame. Qed.

Lemma target_steered_fed g :
  ready g -> exists hd new,
    last (snake (steered (fed g)).1) = Some hd /\
    ahead hd (facing (steered (fed g)).1) = Some new /\
    target (steered (fed g)) = Some new.
Proof.
  intros (Hne & Hdir & _).
  destruct (fed_frame g) as (Hs & Hf & _).
  destruct (last_is_Some _ Hne) as [hd Hhd].
  pose proof (steer_valid (next_key (fed g)) _ Hdir) as [d Hd].
  assert (Hl : last (snake (steered (fed g)).1) = Some hd)
    by (by rewrite (proj1 (steered_frame _)), Hs).
  assert (Ha : ahead hd (facing (steered (fed g)).1) =
               Some (hd.1 + d.1, hd.2 + d.2))
    by (unfold ahead; simpl; by rewrite Hf, Hd).
  exists hd, (hd.1 + d.1, hd.2 + d.2). split_and!; [done..|].
  unfold target. by rewrite Hl.
Qed.

Lemma moved_frame new g :
  food (moved new g).1 = food g.1 /\ facing (moved new g).1 = facing g.1 /\
  stdscr (moved new g).1 = stdscr g.1 /\ score (moved new g).1 = score g.1 /\
  (moved new g).2 = g.2 /\
  (snake g.1 <> [] -> snake (moved new g).1 <> []).
Proof. frame. split_and!; try done. intros H. destruct (snake _) as [|? [|? ?]]; done. Qed.

(** ** The tick is the reference *)

(** From a well-formed state [_update_logic] raises nothing and does what
    the effect-free reference [tick] does: same answer, same object, same
    world.  Every theorem on the tick goes through this lemma. *)
Lemma wf_ready g : wf g -> ready g.
Proof. intros (? & ? & ? & ? & ?). split_and!; [done..|by left]. Qed.

Lemma update_logic_ready g :
  ready g -> _update_logic g = (Ret (tick g).1, (tick g).2).
Proof.
  intros Hwf. pose proof Hwf as (Hne & Hdir & Hscr & Hroom & Hpoll).
  destruct (target_steered_fed g Hwf) as (hd & new & Hhd & Hnew & Ht).
  destruct (fed_frame g) as (Hs1 & _ & Hscr1 & _ & Ht1).
  destruct (steered_frame (fed g)) as (Hs2 & Hf2 & _ & _ & HL & HC).
  destruct (moved_frame new (steered (fed g))) as (Hf3 & _ & _ & _ & Hw3 & Hs3).
  unfold _update_logic, tick. rewrite Ht.
  erewrite bind_Ret by (by apply spawn_food_run).
  erewrite bind_Ret
    by (apply read_input_run;
        [by rewrite Hscr1|unfold answering, polling, next_key; by rewrite Ht1]).
  pose proof (move_run _ _ _ Hhd Hnew) as Hm.
  destruct (on_board _ _ new); erewrite bind_Ret by exact Hm; [|done].
  cbv beta iota. erewrite bind_Ret.
  - unfold ret. cbn [fst snd]. by rewrite Hhd, <- Hf3.
  - apply eat_run.
    + rewrite Hw3. split; rewrite ?HL, ?HC, Ht1; apply Hroom.
    + apply Hs3. by rewrite Hs2, Hs1.
Qed.

Lemma update_logic_run g :
  wf g -> _update_logic g = (Ret (tick g).1, (tick g).2).
Proof. intros Hwf. by apply update_logic_ready, wf_ready. Qed.

(** C16: from a well-formed state the method and the reference agree: the
    four phases of [_update_logic], with their reads of the terminal, of
    the key and of the generator, give the answer, the object and the world
    that the function [tick] computes without effects. *)
Theorem update_logic_is_tick g :
  wf g -> _update_logic g = (Ret (tick g).1, (tick g).2).
Proof. apply update_logic_run. Qed.

Lemma grown_frame g :
  facing (grown g).1 = facing g.1 /\ stdscr (grown g).1 = stdscr g.1 /\
  score (grown g).1 = score g.1 /\ term (grown g).2 = term g.2 /\
  (snake g.1 <> [] -> snake (grown g).1 <> []).
Proof. frame. Qed.

Lemma grown_dup_first g : snake (grown g).1 = dup_first (snake g.1).
Proof. frame. Qed.

Lemma target_cell_ahead g : target (steered (fed g)) = cell_ahead g.
Proof. unfold target, cell_ahead. frame. Qed.

Lemma on_board_spec rows cols p :
  on_board rows cols p = true <-> 0 <= p.1 < rows /\ 0 < p.2 <= cols.
Proof. unfold on_board. rewrite !andb_true_iff. lia. Qed.

(** The three outcomes of the reference tick. *)
Lemma tick_cases g new :
  cell_ahead g = Some new ->
  let rows := Curses.LINES (term g.2) in
  let cols := Curses.COLS (term g.2) in
  let g2 := steered (fed g) in
  tick g =
  if on_board rows cols new
  then (true, if decide (last (snake g.1) = food_in_play g)
              then grown (moved new g2) else moved new g2)
  else (false, g2).
Proof.
  intros Hc. simpl. unfold tick. rewrite target_cell_ahead, Hc.
  destruct (fed_frame g) as (Hs1 & _ & _ & _ & Ht1).
  destruct (steered_frame (fed g)) as (Hs2 & Hf2 & _ & _ & -> & ->).
  rewrite Ht1, Hs2, Hs1, Hf2. done.
Qed.

Lemma wf_cell_ahead g : wf g -> is_Some (cell_ahead g).
Proof.
  intros Hwf. destruct (target_steered_fed g (wf_ready g Hwf)) as (hd & new & _ & _ & Ht).
  rewrite <- target_cell_ahead. eauto.
Qed.

(** What a tick leaves alone and what it changes, whatever its outcome. *)
Lemma tick_frame g :
  wf g ->
  let g' := (tick g).2 in
  stdscr g'.1 = stdscr g.1 /\ score g'.1 = score g.1 /\
  facing g'.1 = steer (next_key g) (facing g.1) /\
  Curses.LINES (term g'.2) = Curses.LINES (term g.2) /\
  Curses.COLS (term g'.2) = Curses.COLS (term g.2) /\
  Curses.reads (term g'.2) = Datatypes.S (Curses.reads (term g.2)) /\
  snake g'.1 <> [].
Proof.
  intros Hwf. destruct (wf_cell_ahead g Hwf) as [new Hc].
  destruct Hwf as (Hne & _). simpl. rewrite (tick_cases g new Hc).
  destruct g as [s [t rnd n clk fs out]].
  destruct s as [[|c body] f scr dir sc]; [done|].
  destruct f; cbv [fed steered moved grown food_in_play next_key]; simpl;
    repeat case_match; simpl; split_and!; try done;
    by destruct body.
Qed.

(** A tick switches nothing. *)
Lemma tick_modes g :
  Curses.modes (term (tick g).2.2) = Curses.modes (term g.2).
Proof. unfold tick, target. frame. Qed.

Lemma tick_wf g : wf g -> wf (tick g).2.
Proof.
  intros Hwf.
  destruct (tick_frame g Hwf) as (Hscr & _ & Hf & HL & HC & _ & Hne).
  destruct Hwf as (_ & Hdir & Hs & Hroom & Hpoll).
  split_and!; [done| |by rewrite Hscr|split; rewrite ?HL, ?HC; apply Hroom|].
  - rewrite Hf. by apply steer_valid.
  - unfold polling, Curses.on in *. by rewrite tick_modes.
Qed.

Lemma update_logic_answer g new :
  wf g -> cell_ahead g = Some new ->
  fst (_update_logic g) =
  Ret (on_board (Curses.LINES (term g.2)) (Curses.COLS (term g.2)) new).
Proof.
  intros Hwf Hc. rewrite (update_logic_run g Hwf). simpl.
  rewrite (tick_cases g new Hc). by destruct (on_board _ _ new).
Qed.

(** The body after a tick that went on: the moved body, doubled or not. *)
Lemma body_after_tick g new :
  wf g -> cell_ahead g = Some new ->
  on_board (Curses.LINES (term g.2)) (Curses.COLS (term g.2)) new = true ->
  let body' := snake (snd (_update_logic g)).1 in
  body' = tail (snake g.1 ++ [new]) \/
  body' = dup_first (tail (snake g.1 ++ [new])).
Proof.
  intros Hwf Hc Hb. simpl. rewrite (update_logic_run g Hwf). simpl.
  rewrite (tick_cases g new Hc), Hb. simpl. case_decide.
  - right. rewrite grown_dup_first. frame.
  - left. frame.
Qed.

Lemma last_dup_first (l : list pos) : last (dup_first l) = last l.
Proof. by destruct l. Qed.

Lemma Forall_dup_first (P : pos -> Prop) l :
  Forall P l -> Forall P (dup_first l).
Proof.
  destruct l; [done|]. intros H. constructor; [|done].
  by apply Forall_cons in H as [? _].
Qed.

Lemma NoDup_dup_first (l : list pos) : l <> [] -> ~ NoDup (dup_first l).
Proof.
  destruct l as [|x l]; [done|]. intros _ H. simpl in H.
  apply NoDup_cons in H as [H _]. apply H. by left.
Qed.

(** ** The theorems at a scenario *)

Lemma update_logic_is_tick_witness :
  _update_logic feeding = (Ret (tick feeding).1, (tick feeding).2).
Proof. apply update_logic_is_tick. by_compute. Defined.

End Snake.
