(* ===== verification/SnakeTick.v ===== *)
(** * SnakeTick: what one tick does to the game

    The properties of [Snake._update_logic] (lines 128-165 of
    [src/snake.py]), proved on the reference [tick] of [SnakeLogic] and
    carried to the method by [update_logic_run].

    The theorems: the tick never raises from a well-formed state and keeps
    it well formed; it answers [False] exactly when the cell ahead is outside
    [0, LINES) x (0, COLS], so that column [COLS], off the screen, is let
    through; on [True] the body is translated by one cell, and grown by a
    copy of its first cell when the head it had before the move was on the
    food; food is placed on the screen; one key is read; nothing keeps
    the snake from its own body; the score never changes.  The lemmas on
    the chain say that a tick, from any state and whatever it answers,
    leaves each cell of the body next to the one before it. *)

From Stdlib Require Import Ascii.
From stdpp Require Import base tactics numbers option list strings gmap.
From S2P Require Import Prelude Curses Runtime SnakeLogic.

Module TickFacts.
Import Runtime Snake.
Local Open Scope Z_scope.
Local Open Scope eff_scope.

Implicit Types (s : Snake) (w : World) (g : Snake * World) (p hd : pos).

(** ** The food *)

Lemma drawn_on_screen w : room w -> on_screen w (drawn w).
Proof.
  intros [HL HC]. unfold on_screen, drawn. simpl.
  pose proof (Z.mod_pos_bound (rand w (draws w)) _ HL).
  pose proof (Z.mod_pos_bound (rand w (Datatypes.S (draws w))) _ HC). lia.
Qed.

Lemma on_screen_resize w w' p :
  Curses.LINES (term w') = Curses.LINES (term w) ->
  Curses.COLS (term w') = Curses.COLS (term w) ->
  on_screen w p -> on_screen w' p.
Proof. unfold on_screen. by intros -> ->. Qed.

Lemma food_in_play_on_screen g :
  room g.2 -> (forall f, food g.1 = Some f -> on_screen g.2 f) ->
  exists f, food_in_play g = Some f /\ on_screen g.2 f.
Proof.
  intros Hr Hf. unfold food_in_play, fed.
  destruct (food g.1) as [f|] eqn:E; simpl; [eauto|].
  eexists; split; [done|]. by apply drawn_on_screen.
Qed.

Lemma food_after_tick g :
  wf g ->
  food (tick g).2.1 = food_in_play g \/
  food (tick g).2.1 = Some (drawn (steered (fed g)).2).
Proof.
  intros Hwf. destruct (wf_cell_ahead g Hwf) as [new Hc].
  rewrite (tick_cases g new Hc). destruct Hwf as (Hne & _).
  destruct (on_board _ _ new); simpl; [case_decide|]; unfold food_in_play.
  - right. destruct g as [[[|c [|c' b]] ? ? ? ?] ?]; [done|..]; frame.
  - left. frame.
  - left. frame.
Qed.

Lemma tick_food_on_screen g :
  wf g -> (forall f, food g.1 = Some f -> on_screen g.2 f) ->
  exists f, food (tick g).2.1 = Some f /\ on_screen g.2 f.
Proof.
  intros Hwf Hf. pose proof Hwf as (_ & _ & _ & Hr & _).
  destruct (food_after_tick g Hwf) as [-> | ->].
  - by apply food_in_play_on_screen.
  - eexists; split; [done|].
    destruct (fed_frame g) as (_ & _ & _ & _ & Ht).
    destruct (steered_frame (fed g)) as (_ & _ & _ & _ & HL & HC).
    rewrite Ht in HL, HC.
    apply (on_screen_resize (steered (fed g)).2); [done..|].
    apply drawn_on_screen. split; rewrite ?HL, ?HC; apply Hr.
Qed.

(** The body after a tick that went on, on the reference. *)
Lemma tick_body g new :
  wf g -> cell_ahead g = Some new ->
  on_board (Curses.LINES (term g.2)) (Curses.COLS (term g.2)) new = true ->
  (tick g).1 = true /\
  (snake (tick g).2.1 = tail (snake g.1 ++ [new]) \/
   snake (tick g).2.1 = dup_first (tail (snake g.1 ++ [new]))) /\
  last (snake (tick g).2.1) = Some new.
Proof.
  intros Hwf Hc Hb. pose proof (body_after_tick g new Hwf Hc Hb) as H.
  rewrite (update_logic_run g Hwf) in H. simpl in H.
  destruct Hwf as (Hne & _).
  split; [by rewrite (tick_cases g new Hc), Hb|]. split; [done|].
  destruct H as [-> | ->]; rewrite ?last_dup_first; by apply last_tail_snoc.
Qed.

(** C34: after a tick there is food, and it lies on the screen: rows
    [0, LINES), columns [0, COLS); given that the food there was, if any,
    did. *)
Theorem update_logic_food_on_screen g :
  wf g -> (forall f, food g.1 = Some f -> on_screen g.2 f) ->
  exists f, food (snd (_update_logic g)).1 = Some f /\ on_screen g.2 f.
Proof.
  intros Hwf Hf. rewrite (update_logic_run g Hwf). by apply tick_food_on_screen.
Qed.

(** ** Exceptions *)

(** From a well-formed state a tick raises no exception and needs no
    fuel: it answers [True] or [False]. *)
Lemma update_logic_safe g : wf g -> exists b, fst (_update_logic g) = Ret b.
Proof. intros Hwf. rewrite (update_logic_run g Hwf). eauto. Qed.

(** Without a screen ([stdscr] is [None], as [__init__] leaves it) a
    tick raises [AttributeError] at [getch], after the food has been
    placed: the assignment of line 145 persists. *)
Lemma update_logic_no_screen g :
  room g.2 -> stdscr g.1 = None ->
  _update_logic g = (Raise AttributeError, fed g).
Proof.
  intros Hr Hs. unfold _update_logic.
  erewrite bind_Ret by (by apply spawn_food_run).
  apply bind_Raise. unfold read_input.
  destruct (fed_frame g) as (_ & _ & Hscr & _).
  erewrite bind_Ret by (unfold self, gets; by rewrite Hscr, Hs).
  done.
Qed.

(** Without the no-delay mode and with no key waiting, [getch] does not
    answer and neither does the tick, which stays in [read_input] with the
    food already placed. *)
Lemma update_logic_blocks g :
  room g.2 -> is_Some (stdscr g.1) ->
  Curses.on Curses.Nodelay (term g.2) = false -> next_key g = Curses.ERR ->
  _update_logic g = (Timeout, fed g).
Proof.
  intros Hr [scr Hs] Hn Hk. unfold _update_logic.
  erewrite bind_Ret by (by apply spawn_food_run).
  apply bind_Timeout. unfold read_input.
  destruct (fed_frame g) as (_ & _ & Hscr & _ & Ht).
  erewrite bind_Ret by (unfold self, gets; by rewrite Hscr, Hs).
  erewrite bind_Ret by done. apply bind_Timeout.
  destruct (fed g) as [s w]. simpl in Ht.
  rewrite RuntimeFacts.curses_run, CursesFacts.getch_blocks;
    rewrite ?Ht; [|done..].
  simpl. rewrite <- Ht. by destruct w.
Qed.

(** C17: the tick needs the no-delay mode: with a body, a valid [facing]
    and a screen with room, [_update_logic] answers exactly when the
    screen is in no-delay mode or a key is waiting; otherwise [getch]
    waits, and the tick with it.  It is [create_screen] that makes every
    tick of [play] answer. *)
Theorem update_logic_waits g :
  snake g.1 <> [] -> is_Some (directional_mapping !! facing g.1) ->
  is_Some (stdscr g.1) -> room g.2 ->
  answered (fst (_update_logic g)) = true <-> answering g.
Proof.
  intros Hne Hdir Hscr Hr. split.
  - intros Ha. destruct (decide (answering g)) as [|Hn]; [done|].
    rewrite update_logic_blocks in Ha; [done..| |].
    + apply not_true_is_false. intros H. apply Hn. by left.
    + destruct (decide (next_key g = Curses.ERR)); [done|].
      exfalso. apply Hn. by right.
  - intros Ha. by rewrite update_logic_ready.
Qed.

(** On a terminal with no line, a tick that has to place food raises
    [ValueError] from [randint(0, -1)] and changes nothing. *)
Lemma update_logic_no_room g :
  food g.1 = None -> Curses.LINES (term g.2) <= 0 ->
  _update_logic g = (Raise ValueError, g).
Proof.
  intros Hf HL. destruct g as [s w]. simpl in *.
  unfold _update_logic. apply bind_Raise. unfold spawn_food.
  erewrite bind_Ret by (unfold self, gets; simpl; by rewrite Hf).
  simpl. apply bind_Raise. unfold random_cell.
  erewrite bind_Ret by apply RuntimeFacts.curses_gets.
  apply bind_Raise. rewrite RuntimeFacts.in_world_run.
  rewrite RuntimeFacts.randint_empty by lia. done.
Qed.

(** ** What a tick never touches *)

Lemma random_cell_keeps {B} (f : Snake -> B) :
  preserves (same (fun g : Snake * World => f g.1)) random_cell.
Proof. unfold random_cell. solve_preserves. Qed.

(** A tick assigns [food], [facing] and [snake] only. *)
Lemma update_logic_keeps {B} (f : Snake -> B) :
  (forall v s, f (set_food v s) = f s) ->
  (forall v s, f (set_facing v s) = f s) ->
  (forall v s, f (set_snake v s) = f s) ->
  preserves (same (fun g : Snake * World => f g.1)) _update_logic.
Proof.
  intros H1 H2 H3.
  unfold _update_logic, spawn_food, read_input, move, eat.
  solve_preserves; try apply random_cell_keeps; unfold same; simpl; auto.
Qed.

Lemma random_cell_keeps_term {B} (f : Curses.terminal -> B) :
  preserves (same (fun g : Snake * World => f (term g.2))) random_cell.
Proof. unfold random_cell. solve_keeps. Qed.

(** On the terminal a tick only reads a key. *)
Lemma update_logic_keeps_term {B} (f : Curses.terminal -> B) :
  (forall v t, f (Curses.set_reads v t) = f t) ->
  preserves (same (fun g : Snake * World => f (term g.2))) _update_logic.
Proof.
  intros H. unfold _update_logic, spawn_food, read_input, move, eat.
  solve_keeps; apply random_cell_keeps_term.
Qed.

(** The keys to come are those there were. *)
Lemma tick_keys g :
  wf g -> Curses.keys (term (tick g).2.2) = Curses.keys (term g.2).
Proof.
  intros Hwf.
  pose proof (preserved (update_logic_keeps_term Curses.keys ltac:(done)) g)
    as H.
  by rewrite (update_logic_run g Hwf) in H.
Qed.

(** C40: no tick changes the score, from any state and whatever its
    outcome: eating does not count. *)
Theorem update_logic_keeps_score g :
  score (snd (_update_logic g)).1 = score g.1.
Proof. by apply (preserved (update_logic_keeps score ltac:(done) ltac:(done) ltac:(done))). Qed.

(** C36: a tick takes exactly one key from the terminal, the next one, and
    none is discarded: the keys that were waiting behind it are answered to
    the ticks that follow, in order. *)
Theorem update_logic_reads_one_key g :
  wf g ->
  Curses.reads (term (snd (_update_logic g)).2) =
    Datatypes.S (Curses.reads (term g.2)) /\
  Curses.keys (term (snd (_update_logic g)).2) = Curses.keys (term g.2) /\
  facing (snd (_update_logic g)).1 = steer (next_key g) (facing g.1).
Proof.
  intros Hwf.
  pose proof (preserved (update_logic_keeps_term Curses.keys ltac:(done)) g).
  rewrite (update_logic_run g Hwf) in *.
  destruct (tick_frame g Hwf) as (_ & _ & Hf & _ & _ & Hr & _). by split_and!.
Qed.

(** ** The edges of the board *)

(** Column 0 ends the game and row 0 does not: a cell ahead in column 0
    makes the tick answer [False], a cell ahead in row 0 and a column of
    (0, COLS] makes it answer [True]. *)
Lemma boundary_asymmetry g y x :
  wf g -> cell_ahead g = Some (y, x) ->
  (x = 0 -> fst (_update_logic g) = Ret false) /\
  (y = 0 -> 0 < x <= Curses.COLS (term g.2) -> fst (_update_logic g) = Ret true).
Proof.
  intros Hwf Hc. rewrite (update_logic_answer g _ Hwf Hc).
  destruct Hwf as (_ & _ & _ & [HL HC] & _). split.
  - intros ->. f_equal. apply not_true_iff_false. rewrite on_board_spec. simpl. lia.
  - intros -> Hx. f_equal. apply on_board_spec. simpl. lia.
Qed.

(** C27: the snake walks off the right edge of the screen: when the cell
    ahead is in column [COLS], one past the last column of the terminal, the
    tick answers [True] and the head is in that column. *)
Theorem right_edge_leaves_screen g y :
  wf g -> cell_ahead g = Some (y, Curses.COLS (term g.2)) ->
  0 <= y < Curses.LINES (term g.2) ->
  fst (_update_logic g) = Ret true /\
  last (snake (snd (_update_logic g)).1) = Some (y, Curses.COLS (term g.2)) /\
  ~ on_screen g.2 (y, Curses.COLS (term g.2)).
Proof.
  intros Hwf Hc Hy. pose proof Hwf as (Hne & _ & _ & [HL HC] & _).
  assert (Hb : on_board (Curses.LINES (term g.2)) (Curses.COLS (term g.2))
                 (y, Curses.COLS (term g.2)) = true)
    by (apply on_board_spec; simpl; lia).
  split_and!.
  - by rewrite (update_logic_answer g _ Hwf Hc), Hb.
  - destruct (body_after_tick g _ Hwf Hc Hb) as [-> | ->];
      rewrite ?last_dup_first; by apply last_tail_snoc.
  - unfold on_screen. simpl. lia.
Qed.

(** ** No collision with itself *)

(** C35: the tick does not look at the body: when the cell ahead is already
    occupied by a cell other than the first (which moves away), the tick goes
    on and the body holds that cell twice. *)
Theorem update_logic_overlaps g new :
  wf g -> cell_ahead g = Some new ->
  on_board (Curses.LINES (term g.2)) (Curses.COLS (term g.2)) new = true ->
  new ∈ tail (snake g.1) ->
  fst (_update_logic g) = Ret true /\
  ~ NoDup (snake (snd (_update_logic g)).1).
Proof.
  intros Hwf Hc Hb Hin.
  split; [by rewrite (update_logic_answer g _ Hwf Hc), Hb|].
  assert (Hdup : ~ NoDup (tail (snake g.1 ++ [new]))).
  { destruct (snake g.1) as [|c body]; simpl in *; [by apply elem_of_nil in Hin|].
    rewrite NoDup_app. intros (_ & H & _). apply (H new Hin). by left. }
  destruct (body_after_tick g new Hwf Hc Hb) as [-> | ->]; [done|].
  apply NoDup_dup_first. destruct Hwf as (Hne & _).
  by destruct (snake g.1) as [|? [|? ?]].
Qed.

(** ** When the game ends *)

(** C1: from a well-formed state the tick answers [False] exactly when the
    cell ahead of the head, in the direction held after the key is read,
    lies outside rows [0, LINES) and columns (0, COLS]; nothing else ends
    the game. *)
Theorem update_logic_stops_iff g :
  wf g ->
  fst (_update_logic g) = Ret false <->
  exists new, cell_ahead g = Some new /\
    ~ (0 <= new.1 < Curses.LINES (term g.2) /\
       0 < new.2 <= Curses.COLS (term g.2)).
Proof.
  intros Hwf. rewrite (update_logic_run g Hwf). simpl.
  destruct (wf_cell_ahead g Hwf) as [new Hc].
  rewrite (tick_cases g new Hc). setoid_rewrite <- on_board_spec.
  destruct (on_board _ _ new) eqn:E; simpl; split; try done.
  - intros (new' & ? & Hn). by simplify_eq.
  - intros _. exists new. by rewrite E.
Qed.

(** ** The invariant *)

(** C20: a tick keeps a well-formed state well formed: the body stays
    non-empty, [facing] stays a key of [directional_mapping], the object
    keeps its screen, and the terminal keeps room for a cell and its
    no-delay mode. *)
Theorem update_logic_preserves_wf g : wf g -> wf (snd (_update_logic g)).
Proof. intros Hwf. rewrite (update_logic_run g Hwf). by apply tick_wf. Qed.

(** ** Moving and growing *)

(** C7: when the cell ahead is on the board and the head the snake had was
    not on the food, the body drops its first cell and gains the cell ahead
    as its new head (so its length is unchanged), and the food stays. *)
Theorem update_logic_moves g new :
  wf g -> cell_ahead g = Some new ->
  on_board (Curses.LINES (term g.2)) (Curses.COLS (term g.2)) new = true ->
  last (snake g.1) <> food_in_play g ->
  snake (snd (_update_logic g)).1 = tail (snake g.1 ++ [new]) /\
  food (snd (_update_logic g)).1 = food_in_play g.
Proof.
  intros Hwf Hc Hb Hf. rewrite (update_logic_run g Hwf). simpl.
  rewrite (tick_cases g new Hc), Hb. simpl. rewrite decide_False by done.
  unfold food_in_play. frame.
Qed.

Lemma grows_run g new :
  wf g -> cell_ahead g = Some new ->
  on_board (Curses.LINES (term g.2)) (Curses.COLS (term g.2)) new = true ->
  last (snake g.1) = food_in_play g ->
  snake (snd (_update_logic g)).1 = dup_first (tail (snake g.1 ++ [new])) /\
  length (snake (snd (_update_logic g)).1) = Datatypes.S (length (snake g.1)).
Proof.
  intros Hwf Hc Hb Hf. rewrite (update_logic_run g Hwf). simpl.
  rewrite (tick_cases g new Hc), Hb. simpl. rewrite decide_True by done.
  rewrite grown_dup_first. destruct Hwf as (Hne & _).
  assert (Hs : snake (moved new (steered (fed g))).1 = tail (snake g.1 ++ [new]))
    by frame.
  rewrite Hs. split; [done|].
  destruct (snake g.1) as [|c [|c' body]]; simpl; [done..|].
  rewrite length_app. simpl. lia.
Qed.

(** C8: when the cell ahead is on the board and the head the snake had
    before the move was on the food, the moved body gets a second copy of
    its first cell in front: it is one cell longer than before the tick. *)
Theorem update_logic_grows g new :
  wf g -> cell_ahead g = Some new ->
  on_board (Curses.LINES (term g.2)) (Curses.COLS (term g.2)) new = true ->
  last (snake g.1) = food_in_play g ->
  snake (snd (_update_logic g)).1 = dup_first (tail (snake g.1 ++ [new])) /\
  length (snake (snd (_update_logic g)).1) = Datatypes.S (length (snake g.1)).
Proof. apply grows_run. Qed.

(** The cell that growth doubles is the second cell of the body the
    tick started with, not its first (the former tail end): from
    [t :: x :: rest] the body becomes [x :: x :: rest ++ [new]]. *)
Lemma growth_doubles_second g new t x rest :
  wf g -> cell_ahead g = Some new ->
  on_board (Curses.LINES (term g.2)) (Curses.COLS (term g.2)) new = true ->
  last (snake g.1) = food_in_play g ->
  snake g.1 = t :: x :: rest ->
  snake (snd (_update_logic g)).1 = x :: x :: rest ++ [new].
Proof.
  intros Hwf Hc Hb Hf Hs.
  destruct (grows_run g new Hwf Hc Hb Hf) as [-> _]. by rewrite Hs.
Qed.

(** ** The body is a chain *)

(** The cell ahead is next to the head. *)
Lemma ahead_near hd dir new : ahead hd dir = Some new -> near hd new.
Proof.
  unfold ahead. intros H.
  destruct (directional_mapping !! dir) as [[dy dx]|] eqn:Hd; [|done].
  injection H as <-.
  assert (Hs : dir ∈ ["left"; "right"; "up"; "down"])
    by (apply directions; eauto).
  repeat (apply elem_of_cons in Hs as [->|Hs];
          [vm_compute in Hd; injection Hd as <- <-; unfold near; simpl; lia|]).
  by apply elem_of_nil in Hs.
Qed.

(** What [move] does to the body, from any state: nothing, or the cell
    ahead of the head is appended and the first cell dropped. *)
Lemma move_body g :
  snake (snd (move g)).1 = snake g.1 \/
  exists hd new,
    last (snake g.1) = Some hd /\ ahead hd (facing g.1) = Some new /\
    snake (snd (move g)).1 = tail (snake g.1 ++ [new]).
Proof.
  destruct (last (snake g.1)) as [hd|] eqn:Hl.
  - destruct (ahead hd (facing g.1)) as [new|] eqn:Ha.
    + rewrite (move_run g hd new Hl Ha).
      destruct (on_board _ _ new); [right|by left].
      exists hd, new. by destruct g.
    + left. destruct g as [s w]. unfold ahead in Ha. simpl in *.
      unfold move.
      rewrite (bind_Ret _ _ _ (snake s) (s, w)) by done. rewrite Hl. simpl.
      erewrite bind_Ret by done.
      rewrite (bind_Ret _ _ _ (facing s) (s, w)) by done.
      by destruct (directional_mapping !! facing s).
  - left. destruct g as [s w]. simpl in *. unfold move.
    rewrite (bind_Ret _ _ _ (snake s) (s, w)) by done. by rewrite Hl.
Qed.

(** What [eat] does to the body, from any state: nothing, or the first
    cell is doubled. *)
Lemma eat_body hd g :
  snake (snd (eat hd g)).1 = snake g.1 \/
  snake (snd (eat hd g)).1 = dup_first (snake g.1).
Proof.
  destruct g as [s w]. unfold eat.
  rewrite (bind_Ret _ _ _ (food s) (s, w)) by done. simpl.
  case_decide; [|by left].
  rewrite (bind_Ret _ _ _ (snake s) (s, w)) by done.
  destruct (snake s) as [|first body] eqn:Hs; simpl; [by left|right].
  erewrite bind_Ret by done. erewrite bind_Ret by done.
  assert (Hk : preserves (same (fun g : Snake * World => snake g.1))
                 (c <- random_cell;; set_self (set_food (Some c))))
    by (pose proof (random_cell_keeps snake); solve_preserves).
  by rewrite (preserved Hk).
Qed.

Lemma chain_dup_first l : chain l -> chain (dup_first l).
Proof. destruct l; [done|]. apply Sorted_dup, _. Qed.

Lemma move_keeps_chain : preserves (keeps chained) move.
Proof.
  split. intros g Hc. unfold chained.
  destruct (move_body g) as [->|(hd & new & Hl & Ha & ->)]; [done|].
  eapply Sorted_tail_snoc; [done..|by eapply ahead_near].
Qed.

Lemma eat_keeps_chain hd : preserves (keeps chained) (eat hd).
Proof.
  split. intros g Hc. unfold chained.
  destruct (eat_body hd g) as [-> | ->]; [done|by apply chain_dup_first].
Qed.

(** What leaves the body alone leaves the chain alone. *)
Lemma same_body_keeps_chain {A} (m : Eff (Snake * World) A) :
  preserves (same (fun g : Snake * World => snake g.1)) m ->
  preserves (keeps chained) m.
Proof. apply same_keeps. unfold chained. by intros s s' ->. Qed.

(** A tick keeps the body a chain, from any state and whatever it
    answers. *)
Lemma update_logic_keeps_chain : preserves (keeps chained) _update_logic.
Proof.
  pose proof move_keeps_chain. pose proof (random_cell_keeps snake).
  unfold _update_logic.
  apply preserves_bind;
    [apply _|apply same_body_keeps_chain; unfold spawn_food; solve_preserves
    |intros _].
  apply preserves_bind;
    [apply _|apply same_body_keeps_chain; unfold read_input; solve_preserves
    |intros _].
  apply preserves_bind; [apply _|done|intros [hd|]];
    [pose proof (eat_keeps_chain hd)|]; solve_preserves.
Qed.

(** ** The theorems at the scenarios *)

(** Column 1 heading left: the cell ahead is (0, 0) and the tick answers
    [False]. *)
Lemma update_logic_stops_iff_witness :
  fst (_update_logic scenario3) = Ret false <->
  exists new, cell_ahead scenario3 = Some new /\
    ~ (0 <= new.1 < 24 /\ 0 < new.2 <= 80).
Proof. apply update_logic_stops_iff. by_compute. Defined.

(** The left key is waiting: it is the one read, and the snake turns. *)
Lemma update_logic_reads_one_key_witness :
  Curses.reads (term (snd (_update_logic reversing)).2) =
    Datatypes.S (Curses.reads (term reversing.2)) /\
  Curses.keys (term (snd (_update_logic reversing)).2) =
    Curses.keys (term reversing.2) /\
  facing (snd (_update_logic reversing)).1 =
    steer (next_key reversing) (facing reversing.1).
Proof. apply update_logic_reads_one_key. by_compute. Defined.

Lemma update_logic_preserves_wf_witness : wf (snd (_update_logic scenario1)).
Proof. apply update_logic_preserves_wf. by_compute. Defined.

(** Food under the first cell, head elsewhere: the snake does not grow. *)
Lemma update_logic_moves_witness :
  snake (snd (_update_logic scenario2)).1 = tail (snake scenario2.1 ++ [(5, 7)]) /\
  food (snd (_update_logic scenario2)).1 = food_in_play scenario2.
Proof. apply update_logic_moves; by_compute. Defined.

Lemma update_logic_grows_witness :
  snake (snd (_update_logic feeding)).1 =
    dup_first (tail (snake feeding.1 ++ [(5, 7)])) /\
  length (snake (snd (_update_logic feeding)).1) =
    Datatypes.S (length (snake feeding.1)).
Proof. apply update_logic_grows; by_compute. Defined.

Lemma update_logic_food_on_screen_witness :
  exists f, food (snd (_update_logic scenario2)).1 = Some f /\
            on_screen scenario2.2 f.
Proof.
  apply update_logic_food_on_screen; [by_compute|].
  intros f [= <-]. by_compute.
Defined.

Lemma update_logic_waits_witness :
  answered (fst (_update_logic waiting)) = true <-> answering waiting.
Proof. apply update_logic_waits; by_compute. Defined.

(** The head in the last column, heading right: the tick lets it through
    to column 80 of an 80-column screen. *)
Lemma right_edge_leaves_screen_witness :
  fst (_update_logic at_right_edge) = Ret true /\
  last (snake (snd (_update_logic at_right_edge)).1) =
    Some (3, Curses.COLS (term at_right_edge.2)) /\
  ~ on_screen at_right_edge.2 (3, Curses.COLS (term at_right_edge.2)).
Proof. apply (right_edge_leaves_screen at_right_edge 3); by_compute. Defined.

(** Three cells heading right when the left key arrives: the head turns
    back onto the middle cell. *)
Lemma update_logic_overlaps_witness :
  fst (_update_logic reversing) = Ret true /\
  ~ NoDup (snake (snd (_update_logic reversing)).1).
Proof.
  apply (update_logic_overlaps reversing (5, 5)); [by_compute..|].
  vm_compute. set_solver.
Defined.

End TickFacts.
