(* ===== verification/SnakeLoop.v ===== *)
(** * SnakeLoop: the screen and the loop of the game

    [Snake.create_screen], [Snake._draw_screen], [Snake.play] and
    [Snake.close_screen] of [src/snake.py] (lines 115-122 and 167-191).
    [play] is [try_finally] around [create_screen] and the loop; the loop is
    [iter] on the variable [playing], tested at the head of each round as
    [while playing:] does, so that [n] units of fuel allow [n - 1] frames
    and the test that leaves.  A frame is one tick, one repaint, one
    refresh and one sleep of [1 / FRAMERATE] seconds.

    The lemmas say how each call runs: [create_screen] leaves the game
    [opened] (no-delay mode included), [close_screen] leaves it [closed],
    and [play] on an available terminal is the loop between the two.  The
    theorems: [play] leaves a cooked terminal cooked on every path that
    comes back, whatever exception ends it; a repaint shows the food over
    the snake and raises when a cell of the body is off the screen; without
    a terminal [play] raises and changes nothing; the loop runs out of any
    fuel when every frame goes on.  Whole games are in [SnakePlay]. *)

From Stdlib Require Import Ascii QArith Qcanon.
From stdpp Require Import base tactics numbers option list strings gmap.
From S2P Require Import Prelude Curses Runtime SnakeLogic SnakeTick.

Module SnakeGame.
Import Runtime Snake TickFacts.
Local Open Scope Z_scope.
Local Open Scope eff_scope.

(** [self.stdscr.<method>]: the attribute must not be [None] when a method
    is looked up on it. *)
Definition the_screen : Eff (Snake * World) Curses.window :=
  scr <- self stdscr;;
  or_raise AttributeError scr.

(** Lines 115-122. *)
Definition create_screen : Eff (Snake * World) unit :=
  scr <- curses Curses.initscr;;
  set_self (set_stdscr (Some scr));;
  w <- the_screen;;
  curses (Curses.keypad w true);;
  w <- the_screen;;
  curses (Curses.nodelay w true);;
  curses Curses.noecho;;
  curses Curses.cbreak;;
  curses (Curses.curs_set false).

(** Lines 170-171: the body of the [for] of [_draw_screen]. *)
Definition draw_square (square : pos) : Eff (Snake * World) unit :=
  if truthy square
  then (w <- the_screen;;
        curses (Curses.addch w square.1 square.2 SNAKE_CHAR))
  else ret tt.

(** Line 173.  The food is unpacked after the method is looked up: with
    no screen this raises [AttributeError], with a screen and no food
    [TypeError]. *)
Definition draw_food : Eff (Snake * World) unit :=
  w <- the_screen;;
  f <- self food;;
  c <- or_raise TypeError f;;
  curses (Curses.addch w c.1 c.2 FOOD_CHAR).

(** Lines 167-173. *)
Definition _draw_screen : Eff (Snake * World) unit :=
  w <- the_screen;;
  curses (Curses.clear w);;
  body <- self snake;;
  for_each body draw_square;;
  draw_food.

(** Lines 187-191. *)
Definition close_screen : Eff (Snake * World) unit :=
  curses Curses.nocbreak;;
  w <- the_screen;;
  curses (Curses.keypad w false);;
  curses Curses.echo;;
  curses Curses.endwin.

(** [self.FRAMERATE ** -1], in seconds. *)
Definition frame_time : Qc := (/ Q2Qc (inject_Z FRAMERATE))%Qc.

(** Lines 181-183: repaint, refresh, sleep. *)
Definition show : Eff (Snake * World) unit :=
  _draw_screen;;
  w <- the_screen;;
  curses (Curses.refresh w);;
  in_world (sleep frame_time).

(** The body of the loop (lines 180-183): the value is the new [playing]. *)
Definition frame : Eff (Snake * World) bool :=
  playing <- _update_logic;;
  show;;
  ret playing.

(** Lines 178-183: [playing = True; while playing: ...]. *)
Definition loop (fuel : nat) : Eff (Snake * World) unit :=
  iter fuel (fun playing : bool =>
    if playing then (p <- frame;; ret (inl p)) else ret (inr tt)) true.

(** Lines 175-185. *)
Definition play (fuel : nat) : Eff (Snake * World) unit :=
  try_finally (create_screen;; loop fuel) close_screen.

(** ** What the theorems speak of *)

(** The screen is held: the object has it and the session is open. *)
Definition held (g : Snake * World) : Prop :=
  is_Some (stdscr g.1) /\ Curses.on Curses.Started (term g.2) = true.

(** The switches after [create_screen] and after [close_screen]. *)
Definition raw_modes (ms : gset Curses.mode) : gset Curses.mode :=
  ((((((ms ∪ {[Curses.Started]}) ∖ {[Curses.Ended]}) ∪ {[Curses.Keypad]})
      ∪ {[Curses.Nodelay]}) ∖ {[Curses.Echo]}) ∪ {[Curses.Cbreak]})
  ∖ {[Curses.Cursor]}.

Definition cooked_modes (ms : gset Curses.mode) : gset Curses.mode :=
  (((ms ∖ {[Curses.Cbreak]}) ∖ {[Curses.Keypad]}) ∪ {[Curses.Echo]})
  ∪ {[Curses.Ended]}.

(** The state [create_screen] leaves when the terminal is available, and
    the one [close_screen] leaves when the screen is held. *)
Definition opened (g : Snake * World) : Snake * World :=
  (set_stdscr (Some Curses.Stdscr) g.1,
   set_term (Curses.set_modes raw_modes (Curses.set_buffer ∅ (term g.2))) g.2).

Definition closed (g : Snake * World) : Snake * World :=
  (g.1, set_term (Curses.set_modes cooked_modes (term g.2)) g.2).

(** The cells a repaint writes. *)
Definition snake_cell : Curses.cell := Curses.Cell SNAKE_CHAR 0.
Definition food_cell : Curses.cell := Curses.Cell FOOD_CHAR 0.

(** The buffer once the cells of [body] are written over [b]. *)
Definition paint_body (body : list pos) (b : gmap pos Curses.cell)
  : gmap pos Curses.cell :=
  foldl (fun b c => <[c := snake_cell]> b) b body.

(** What a repaint leaves in the buffer: the snake, and the food over it. *)
Definition paint (body : list pos) (f : pos) : gmap pos Curses.cell :=
  <[f := food_cell]> (paint_body body ∅).

(** The state with [b] as the buffer of the terminal. *)
Definition write (b : gmap pos Curses.cell) (g : Snake * World)
  : Snake * World :=
  (g.1, set_term (Curses.set_buffer b (term g.2)) g.2).

(** The state once the buffer is on the screen and the frame has slept. *)
Definition shown (g : Snake * World) : Snake * World :=
  (g.1,
   set_clock (clock g.2 + frame_time)%Qc
     (set_term (Curses.set_shown (Curses.buffer (term g.2)) (term g.2)) g.2)).

(** The time [frames] frames take, in seconds. *)
Definition lasted (frames : nat) : Qc :=
  Q2Qc (Z.of_nat frames # Z.to_pos FRAMERATE).
Arguments lasted : simpl never.

(** What the game is played on: the object and the terminal, whatever is
    painted on it.  The clock, too, is left out. *)
Definition view (g : Snake * World)
  : Snake * Curses.terminal * (nat -> Z) * nat :=
  (g.1, Curses.blank (term g.2), rand g.2, draws g.2).

(** Ticks that can still answer [True] while [facing] is kept: the cells
    between the head and the edge of the board ahead of it. *)
Definition run_left (g : Snake * World) : nat :=
  match last (snake g.1), directional_mapping !! facing g.1 with
  | Some hd, Some d =>
      let rows := Curses.LINES (term g.2) in
      let cols := Curses.COLS (term g.2) in
      Z.to_nat
        (if d.2 =? 1 then Z.min cols (cols - hd.2)
         else if d.2 =? -1 then Z.min cols (hd.2 - 1)
         else if d.1 =? -1 then Z.min rows hd.1
         else Z.min rows (rows - 1 - hd.1))
  | _, _ => 0%nat
  end.

(** No direction key arrives from the [N]-th read on. *)
Definition quiet (N : nat) (g : Snake * World) : Prop :=
  forall n, (N <= n)%nat ->
    keypress_movement_mapping !! Curses.keys (term g.2) n = None.

(** The frames the loop can still go through: those that may steer, then
    a straight line. *)
Definition frames_left (N : nat) (g : Snake * World) : nat :=
  let span :=
    Z.to_nat (Z.max (Curses.LINES (term g.2)) (Curses.COLS (term g.2))) in
  if (Curses.reads (term g.2) <? N)%nat
  then (N - Curses.reads (term g.2) + span)%nat
  else run_left g.

(** The snake lies in row 0 with its head in column [k] and faces right,
    nobody steers, the screen is held and the food, if any, is on it. *)
Definition eastbound (k : Z) (g : Snake * World) : Prop :=
  wf g /\ held g /\ quiet 0 g /\ facing g.1 = "right" /\
  Forall (fun c => c.1 = 0 /\ 0 <= c.2 <= k) (snake g.1) /\
  last (snake g.1) = Some (0, k) /\
  (forall f, food g.1 = Some f -> on_screen g.2 f).

(** The player steers in a circle: down, left, up, right, and again. *)
Definition circle (i : nat) : Z :=
  match (i mod 4)%nat with
  | 0%nat => Curses.KEY_DOWN
  | 1%nat => Curses.KEY_LEFT
  | 2%nat => Curses.KEY_UP
  | _ => Curses.KEY_RIGHT
  end.

(** The cell the head is in when the [i]-th of these keys is read, on the
    square of four cells whose upper right corner is [(y, x)]. *)
Definition corner (y x : Z) (i : nat) : pos :=
  match (i mod 4)%nat with
  | 0%nat => (y, x)
  | 1%nat => (y + 1, x)
  | 2%nat => (y + 1, x - 1)
  | _ => (y, x - 1)
  end.

Definition in_square (y x : Z) (c : pos) : Prop :=
  y <= c.1 <= y + 1 /\ x - 1 <= c.2 <= x.

#[global] Instance in_square_dec y x c : Decision (in_square y x c).
Proof. unfold in_square. apply _. Defined.

(** The snake goes round the square, which lies on the screen away from
    column 0: the body is on it, the head in the corner the [i]-th key
    finds it in, the keys to come are those of the circle, and the food, if
    any, is on the screen. *)
Definition circling (y x : Z) (i : nat) (g : Snake * World) : Prop :=
  wf g /\
  (0 <= y /\ y + 1 < Curses.LINES (term g.2)) /\
  (2 <= x /\ x < Curses.COLS (term g.2)) /\
  (forall j, Curses.keys (term g.2) (Curses.reads (term g.2) + j)
             = circle (i + j)) /\
  Forall (in_square y x) (snake g.1) /\
  last (snake g.1) = Some (corner y x i) /\
  (forall f, food g.1 = Some f -> on_screen g.2 f).

(** States for the examples: the game as the program would start it, on a
    24 x 80 terminal with no key pressed; the same with no terminal to
    open; a snake whose head is in column [COLS]. *)
Definition fresh_game : Snake * World := (__init__, boot 24 80 nokey dice ∅).

Definition headless : Snake * World :=
  (__init__,
   set_term (Curses.Terminal 24 80 false {[Curses.Echo; Curses.Cursor]}
               ∅ ∅ ∅ nokey 0)
     (boot 24 80 nokey dice ∅)).

Definition off_screen : Snake * World :=
  game 24 80 [(3, 79); (3, 80)] (Some (9, 9)) "right" nokey dice.

(** Two cells in row 5 and a player who steers in a circle. *)
Definition round_and_round : Snake * World :=
  ({| snake := [(5, 4); (5, 5)]; food := None; stdscr := None;
      facing := "right"; score := 0 |}, boot 24 80 circle dice ∅).

(** Two states with the same view, taken apart. *)
Ltac by_view H :=
  repeat match goal with g : (Snake * World)%type |- _ =>
    destruct g as [? [[] ]] end;
  injection H as -> -> -> -> -> -> -> -> -> ->.

(** Unfold a frame down to the calls it makes. *)
Ltac open_frame :=
  unfold frame, show, _draw_screen, draw_square, draw_food, the_screen.

(** Unfold the calls of a sequence of mode switches. *)
Ltac run_curses :=
  cbv [bind curses in_world tty zoom the_screen self gets or_raise set_self
       modify ret raise Curses.initscr Curses.endwin Curses.keypad
       Curses.nodelay Curses.echo Curses.noecho Curses.cbreak Curses.nocbreak
       Curses.curs_set Curses.switch Curses.need_started];
  simpl.

(** * Theorems *)

Implicit Types (s : Snake) (w : World) (g : Snake * World) (p : pos).

(** ** Acquiring and releasing the screen *)

Lemma create_screen_run g :
  Curses.available (term g.2) = true -> create_screen g = (Ret tt, opened g).
Proof.
  destruct g as [s [[L C av ms ps buf sh ks rd] rnd n clk fs out]]. simpl.
  intros ->. unfold create_screen, opened. run_curses.
  repeat (rewrite CursesFacts.on_true by (simpl; set_solver); simpl).
  done.
Qed.

Lemma create_screen_unavailable g :
  Curses.available (term g.2) = false ->
  create_screen g = (Raise CursesError, g).
Proof.
  destruct g as [s [[L C av ms ps buf sh ks rd] rnd n clk fs out]]. simpl.
  by intros ->.
Qed.

Lemma opened_held g : held (opened g).
Proof. split; [by eexists|]. apply CursesFacts.on_true. simpl. set_solver. Qed.

Lemma close_screen_run g : held g -> close_screen g = (Ret tt, closed g).
Proof.
  destruct g as [s [[L C av ms ps buf sh ks rd] rnd n clk fs out]].
  intros [[scr Hs] Hon]. simpl in *. unfold close_screen, closed. run_curses.
  rewrite Hon. simpl. rewrite Hs. simpl.
  apply bool_decide_eq_true_1 in Hon.
  repeat (rewrite CursesFacts.on_true by (simpl; set_solver); simpl).
  done.
Qed.

Lemma closed_cooked g : Curses.cooked (term (closed g).2).
Proof.
  unfold Curses.cooked, closed, Curses.on. simpl.
  rewrite !bool_decide_eq_true, !bool_decide_eq_false.
  unfold cooked_modes. set_solver.
Qed.

(** Whatever [close_screen] gets to do, it does not uncook a terminal. *)
Lemma close_screen_keeps_cooked :
  preserves (keeps (fun g => Curses.cooked (term g.2))) close_screen.
Proof. unfold close_screen, the_screen. solve_keeps. Qed.

(** ** What a frame keeps *)

Lemma frame_keeps_held : preserves (keeps held) frame.
Proof.
  apply (same_keeps
           (fun g => (stdscr g.1, Curses.on Curses.Started (term g.2)))).
  - intros g g' [= H1 H2] [Hs Ho]. split; [by rewrite H1 | by rewrite H2].
  - apply same_pair; open_frame; solve_keeps.
Qed.

Lemma loop_preserves (R : relation (Snake * World)) `{!PreOrder R} n :
  preserves R frame -> preserves R (loop n).
Proof. intros H. unfold loop. solve_preserves. Qed.

(** ** Repainting *)

Lemma the_screen_run g scr :
  stdscr g.1 = Some scr -> the_screen g = (Ret scr, g).
Proof. intros H. unfold the_screen. cbv [bind self gets]. by rewrite H. Qed.

Lemma clear_run g scr : curses (Curses.clear scr) g = (Ret tt, write ∅ g).
Proof. destruct g as [s w]. by rewrite RuntimeFacts.curses_run. Qed.

Lemma addch_run g scr p ch :
  on_screen g.2 p ->
  curses (Curses.addch scr p.1 p.2 ch) g =
  (Ret tt, write (<[p := Curses.Cell ch 0]> (Curses.buffer (term g.2))) g).
Proof.
  destruct g as [s w], p as [y x]. intros Hp.
  rewrite RuntimeFacts.curses_run, CursesFacts.addch_in; [done|].
  by apply bool_decide_eq_true_2.
Qed.

Lemma addch_off g scr p ch :
  ~ on_screen g.2 p ->
  curses (Curses.addch scr p.1 p.2 ch) g = (Raise CursesError, g).
Proof.
  destruct g as [s w], p as [y x]. intros Hp.
  rewrite RuntimeFacts.curses_run, CursesFacts.addch_out.
  - simpl. by destruct w.
  - by apply bool_decide_eq_false_2.
Qed.

Lemma draw_square_run g scr c :
  stdscr g.1 = Some scr ->
  draw_square c g =
  if decide (on_screen g.2 c)
  then (Ret tt, write (<[c := snake_cell]> (Curses.buffer (term g.2))) g)
  else (Raise CursesError, g).
Proof.
  intros Hs. unfold draw_square. simpl.
  rewrite (bind_Ret _ _ _ _ _ (the_screen_run g scr Hs)).
  case_decide; [by apply addch_run | by apply addch_off].
Qed.

(** The [for] of lines 169-171 when every cell is on the screen ... *)
Lemma draw_body_run body g :
  is_Some (stdscr g.1) -> Forall (on_screen g.2) body ->
  for_each body draw_square g =
  (Ret tt, write (paint_body body (Curses.buffer (term g.2))) g).
Proof.
  intros [scr Hs]. revert g Hs.
  induction body as [|c body IH]; intros g Hs Hall.
  - by destruct g as [s [[] ]].
  - apply Forall_cons in Hall as [Hc Hall]. simpl.
    erewrite bind_Ret by (by rewrite (draw_square_run g scr), decide_True).
    by rewrite IH.
Qed.

(** ... and when some cell is not: the first such cell raises. *)
Lemma draw_body_off body g :
  is_Some (stdscr g.1) -> Exists (fun c => ~ on_screen g.2 c) body ->
  fst (for_each body draw_square g) = Raise CursesError.
Proof.
  intros [scr Hs]. revert g Hs.
  induction body as [|c body IH]; intros g Hs Hex.
  - by apply Exists_nil in Hex.
  - simpl. unfold bind at 1. rewrite (draw_square_run g scr c Hs).
    case_decide; [|done].
    apply IH; [done|]. by apply Exists_cons in Hex as [?|?].
Qed.

(** The repaint up to the food, when the body is on the screen. *)
Lemma draw_screen_body g :
  is_Some (stdscr g.1) -> Forall (on_screen g.2) (snake g.1) ->
  _draw_screen g = draw_food (write (paint_body (snake g.1) ∅) g).
Proof.
  intros [scr Hs] Hall. unfold _draw_screen.
  rewrite (bind_Ret _ _ _ _ _ (the_screen_run g scr Hs)).
  rewrite (bind_Ret _ _ _ _ _ (clear_run g scr)).
  erewrite bind_Ret by done.
  by erewrite bind_Ret by (apply draw_body_run; [by eexists|done]).
Qed.

Lemma draw_food_run g :
  is_Some (stdscr g.1) ->
  draw_food g =
  match food g.1 with
  | Some f => curses (Curses.addch Curses.Stdscr f.1 f.2 FOOD_CHAR) g
  | None => (Raise TypeError, g)
  end.
Proof.
  intros [[] Hs]. unfold draw_food.
  rewrite (bind_Ret _ _ _ _ _ (the_screen_run g _ Hs)).
  erewrite bind_Ret by done. by destruct (food g.1).
Qed.

Lemma draw_screen_run g f :
  is_Some (stdscr g.1) -> food g.1 = Some f -> on_screen g.2 f ->
  Forall (on_screen g.2) (snake g.1) ->
  _draw_screen g = (Ret tt, write (paint (snake g.1) f) g).
Proof.
  intros Hs Hf Hon Hall. rewrite (draw_screen_body g Hs Hall).
  rewrite draw_food_run by done. cbn [write fst]. rewrite Hf.
  by rewrite addch_run.
Qed.

(** A cell of the body off the screen makes the repaint raise. *)
Lemma draw_screen_off g :
  is_Some (stdscr g.1) -> Exists (fun c => ~ on_screen g.2 c) (snake g.1) ->
  fst (_draw_screen g) = Raise CursesError.
Proof.
  intros [scr Hs] Hex. unfold _draw_screen.
  rewrite (bind_Ret _ _ _ _ _ (the_screen_run g scr Hs)).
  rewrite (bind_Ret _ _ _ _ _ (clear_run g scr)).
  erewrite bind_Ret by done.
  apply bind_raises, draw_body_off; [by eexists|done].
Qed.

Lemma paint_body_lookup body b p :
  paint_body body b !! p =
  if decide (p ∈ body) then Some snake_cell else b !! p.
Proof.
  revert b. induction body as [|c body IH]; intros b; [done|].
  change (paint_body (c :: body) b) with (paint_body body (<[c:=snake_cell]> b)).
  rewrite IH. destruct (decide (p = c)) as [->|Hne].
  - rewrite lookup_insert_eq. repeat case_decide; set_solver.
  - rewrite lookup_insert_ne by done. repeat case_decide; set_solver.
Qed.

Lemma paint_lookup body f p :
  paint body f !! p =
  if decide (p = f) then Some food_cell
  else if decide (p ∈ body) then Some snake_cell else None.
Proof.
  unfold paint. case_decide as Hp.
  - subst. by rewrite lookup_insert_eq.
  - rewrite lookup_insert_ne by done. by rewrite paint_body_lookup.
Qed.

(** ** A frame *)

(** A repaint, a refresh and a sleep change nothing the game is played
    on. *)
Lemma show_keeps_view : preserves (same view) show.
Proof.
  unfold view. repeat apply same_pair;
    open_frame; solve_keeps.
Qed.

Lemma show_total : total show.
Proof. open_frame. solve_total. Qed.

Lemma refresh_run g scr :
  curses (Curses.refresh scr) g =
  (Ret tt,
   (g.1, set_term (Curses.set_shown (Curses.buffer (term g.2)) (term g.2)) g.2)).
Proof. destruct g as [s w]. by rewrite RuntimeFacts.curses_run. Qed.

Lemma show_run g f :
  is_Some (stdscr g.1) -> food g.1 = Some f -> on_screen g.2 f ->
  Forall (on_screen g.2) (snake g.1) ->
  show g = (Ret tt, shown (write (paint (snake g.1) f) g)).
Proof.
  intros Hs Hf Hon Hall. unfold show.
  rewrite (bind_Ret _ _ _ _ _ (draw_screen_run g f Hs Hf Hon Hall)).
  destruct Hs as [scr Hs].
  erewrite bind_Ret by (by apply (the_screen_run _ scr)).
  rewrite (bind_Ret _ _ _ _ _ (refresh_run _ scr)).
  by rewrite RuntimeFacts.in_world_run.
Qed.

Lemma show_off g :
  is_Some (stdscr g.1) -> Exists (fun c => ~ on_screen g.2 c) (snake g.1) ->
  fst (show g) = Raise CursesError.
Proof. intros Hs Hex. by apply bind_raises, draw_screen_off. Qed.

(** A frame from a well-formed state: the tick, then the repaint, which
    may raise but leaves what the tick made of the game. *)
Lemma frame_run g :
  wf g ->
  frame g = (match fst (show (tick g).2) with
             | Ret _ => Ret (tick g).1
             | Raise e => Raise e
             | Timeout => Timeout
             end, snd (show (tick g).2)).
Proof.
  intros Hwf. unfold frame.
  rewrite (bind_Ret _ _ _ _ _ (update_logic_run g Hwf)). unfold bind.
  by destruct (show _) as [[[]|e|] g'].
Qed.

Lemma frame_view g : wf g -> view (snd (frame g)) = view (tick g).2.
Proof.
  intros Hwf. rewrite (frame_run g Hwf). simpl.
  apply (preserved show_keeps_view).
Qed.

(** A frame reads one key. *)
Lemma frame_reads g :
  wf g ->
  Curses.reads (term (snd (frame g)).2) = Datatypes.S (Curses.reads (term g.2)).
Proof.
  intros Hwf. destruct (tick_frame g Hwf) as (_ & _ & _ & _ & _ & <- & _).
  pose proof (frame_view g Hwf) as Hv. unfold view, Curses.blank in Hv.
  destruct (snd (frame g)) as [? [[] ]], (tick g).2 as [? [[] ]].
  by simplify_eq/=.
Qed.

(** A frame ends the loop, by [False] or by an exception, or goes on with
    the game the tick left. *)
Lemma frame_cases g :
  wf g ->
  (exists e, fst (frame g) = Raise e) \/ fst (frame g) = Ret (tick g).1.
Proof.
  intros Hwf. rewrite (frame_run g Hwf). simpl.
  pose proof (show_total (tick g).2) as Ht.
  destruct (fst (show _)) as [[]|e|]; [by right | left; by eexists | done].
Qed.

(** ** [play] on an available terminal *)

(** The loop between [create_screen] and [close_screen]. *)
Lemma play_run n g :
  Curses.available (term g.2) = true ->
  play n g =
  (fst (loop n (opened g)),
   if answered (fst (loop n (opened g)))
   then closed (snd (loop n (opened g))) else snd (loop n (opened g))).
Proof.
  intros Hav. unfold play, try_finally.
  rewrite (bind_Ret _ _ _ _ _ (create_screen_run g Hav)).
  pose proof (preserved (loop_preserves (keeps held) n frame_keeps_held)
                (opened g) (opened_held g)) as Hh.
  destruct (loop n (opened g)) as [[[]|e|] g1]; simpl in *;
    by rewrite ?(close_screen_run g1 Hh).
Qed.

Lemma opened_wf g :
  snake g.1 <> [] -> is_Some (directional_mapping !! facing g.1) ->
  room g.2 -> wf (opened g).
Proof.
  destruct g as [[] [[] ]]. intros. split_and!; [done..|].
  apply bool_decide_eq_true. unfold raw_modes. simpl. set_solver.
Qed.

(** ** The terminal is released *)

(** C2: [play] returns the terminal as it found it: when the terminal is
    cooked before the call (echo on, line buffering on, keypad translation
    off, no open session), it is cooked after the call, whether [play]
    returns or raises and whatever exception it raises. *)
Theorem play_restores_terminal n g :
  Curses.cooked (term g.2) -> answered (fst (play n g)) = true ->
  Curses.cooked (term (snd (play n g)).2).
Proof.
  intros Hc Ha. destruct (Curses.available (term g.2)) eqn:Hav.
  { rewrite (play_run n g Hav) in *. simpl in *. rewrite Ha.
    apply closed_cooked. }
  unfold play in *. destruct (try_finally _ _ g) as [r g2] eqn:E. simpl in *.
  destruct (try_finally_runs_fin _ _ _ _ _ E Ha) as (g1 & rf & Hg1 & Hf & _).
  rewrite (bind_Raise _ _ _ _ _ (create_screen_unavailable g Hav)) in Hg1.
  subst g1. simpl in Hf.
  pose proof (preserved close_screen_keeps_cooked g Hc) as H.
  by rewrite Hf in H.
Qed.

(** ** What depends on the view only *)

Lemma wf_view g g' : view g' = view g -> wf g -> wf g'.
Proof. intros H. by by_view H. Qed.

Lemma quiet_view N g g' : view g' = view g -> quiet N g -> quiet N g'.
Proof. intros H. by by_view H. Qed.

Lemma frames_left_view N g g' :
  view g' = view g -> frames_left N g' = frames_left N g.
Proof. intros H. by by_view H. Qed.

Lemma eastbound_view k g g' :
  view g' = view g -> eastbound k g -> eastbound k g'.
Proof. intros H. by by_view H. Qed.

Lemma circling_view y x i g g' :
  view g' = view g -> circling y x i g -> circling y x i g'.
Proof. intros H. by by_view H. Qed.

(** ** Fuel *)

(** More fuel does not change a game that has answered: what is proved of
    [play] at the fuel that suffices holds at any larger one. *)
Lemma play_fuel_mono n m g :
  (n <= m)%nat -> answered (fst (play n g)) = true -> play m g = play n g.
Proof.
  intros Hle. unfold play, try_finally, bind.
  destruct (create_screen g) as [[[]|e|] g1]; [|done..].
  destruct (loop n g1) as [r g2] eqn:El.
  destruct (decide (answered r = true)) as [Ha|Hn].
  - unfold loop in *. rewrite (iter_fuel_mono _ n m) by (by rewrite ?El).
    by rewrite El.
  - by destruct r.
Qed.

(** ** A round of the loop *)

(** One round of the loop. *)
Lemma loop_S n g :
  loop (Datatypes.S n) g =
  match frame g with
  | (Ret true, g') => loop n g'
  | (Ret false, g') => (match n with O => Timeout | _ => Ret tt end, g')
  | (Raise e, g') => (Raise e, g')
  | (Timeout, g') => (Timeout, g')
  end.
Proof.
  unfold loop. rewrite iter_S. unfold bind.
  destruct (frame g) as [[[]|e|] g']; try done. by destruct n.
Qed.

(** The loop runs out of any fuel when every frame goes on: [inv] holds
    at the [i]-th frame, which answers [True] and leaves [inv] for the
    next. *)
Lemma loop_spins {I : Type} (inv : I -> Snake * World -> Prop) (next : I -> I) :
  (forall i g, inv i g ->
     exists g', frame g = (Ret true, g') /\ inv (next i) g') ->
  forall n i g, inv i g -> fst (loop n g) = Timeout.
Proof.
  intros Hstep n. induction n as [|n IH]; intros i g Hi; [done|].
  rewrite loop_S. destruct (Hstep i g Hi) as (g' & -> & Hi'). by eapply IH.
Qed.

(** ** What the screen shows *)

(** C14: a repaint with the body and the food on the screen returns and
    leaves in the buffer the food glyph at the food, the snake glyph at
    every other cell of the body, and nothing elsewhere: the food is
    painted last and hides a cell of the snake under it. *)
Theorem draw_screen_paints g f p :
  is_Some (stdscr g.1) -> food g.1 = Some f -> on_screen g.2 f ->
  Forall (on_screen g.2) (snake g.1) ->
  fst (_draw_screen g) = Ret tt /\
  Curses.buffer (term (snd (_draw_screen g)).2) !! p =
    if decide (p = f) then Some food_cell
    else if decide (p ∈ snake g.1) then Some snake_cell else None.
Proof.
  intros Hs Hf Hon Hall. rewrite (draw_screen_run g f Hs Hf Hon Hall).
  split; [done|]. apply paint_lookup.
Qed.

(** C30: a repaint raises [curses.error] as soon as a cell of the body is
    off the screen, which the bounds test of the tick allows for column
    [COLS]. *)
Theorem draw_screen_raises_off_screen g c :
  is_Some (stdscr g.1) -> c ∈ snake g.1 -> ~ on_screen g.2 c ->
  fst (_draw_screen g) = Raise CursesError.
Proof.
  intros Hs Hc Hoff. apply draw_screen_off; [done|].
  apply Exists_exists. eauto.
Qed.

(** With a screen and no food a repaint raises [TypeError] at the
    unpacking of [self.food], after the body has been painted. *)
Lemma draw_screen_no_food g :
  is_Some (stdscr g.1) -> food g.1 = None ->
  Forall (on_screen g.2) (snake g.1) ->
  _draw_screen g = (Raise TypeError, write (paint_body (snake g.1) ∅) g).
Proof.
  intros Hs Hf Hall. rewrite (draw_screen_body g Hs Hall).
  rewrite draw_food_run by done. cbn [write fst]. by rewrite Hf.
Qed.

(** Food off the screen makes the repaint raise, after the body. *)
Lemma draw_screen_food_off g f :
  is_Some (stdscr g.1) -> Forall (on_screen g.2) (snake g.1) ->
  food g.1 = Some f -> ~ on_screen g.2 f ->
  fst (_draw_screen g) = Raise CursesError.
Proof.
  intros Hs Hall Hf Hoff. rewrite (draw_screen_body g Hs Hall).
  rewrite draw_food_run by done. cbn [write fst]. rewrite Hf.
  by rewrite addch_off.
Qed.

(** With a screen and food, a repaint returns or raises [curses.error]. *)
Lemma show_answers g f :
  is_Some (stdscr g.1) -> food g.1 = Some f ->
  fst (show g) = Ret tt \/ fst (show g) = Raise CursesError.
Proof.
  intros Hs Hf.
  destruct (decide (Forall (on_screen g.2) (snake g.1))) as [Hall|Hex].
  - destruct (decide (on_screen g.2 f)) as [Hon|Hoff].
    + left. by rewrite (show_run g f).
    + right. by eapply bind_raises, draw_screen_food_off.
  - right. apply show_off; [done|].
    apply not_Forall_Exists in Hex; [done|apply _].
Qed.

(** ** Without a terminal *)

(** When [initscr] fails on a terminal with no open session, [play]
    raises [curses.error] and changes nothing: [close_screen] runs in the
    [finally] and fails at its first call. *)
Lemma play_without_terminal n g :
  Curses.available (term g.2) = false ->
  Curses.on Curses.Started (term g.2) = false ->
  play n g = (Raise CursesError, g).
Proof.
  intros Hav Hst. unfold play, try_finally.
  rewrite (bind_Raise _ _ _ _ _ (create_screen_unavailable g Hav)).
  unfold close_screen. erewrite bind_Raise; [done|].
  destruct g as [s w]. simpl in Hst. rewrite RuntimeFacts.curses_run.
  unfold Curses.nocbreak. rewrite CursesFacts.guarded_switch, Hst.
  simpl. by destruct w.
Qed.

(** ** The theorems at concrete games *)

Lemma play_restores_terminal_witness :
  Curses.cooked (term (snd (play 100 fresh_game)).2).
Proof. apply play_restores_terminal; by_compute. Defined.

(** The food under the first cell of the snake: the food glyph is what the
    buffer holds there. *)
Lemma draw_screen_paints_witness :
  fst (_draw_screen scenario2) = Ret tt /\
  Curses.buffer (term (snd (_draw_screen scenario2)).2) !! (5, 5) =
    if decide ((5, 5) = (5, 5)) then Some food_cell
    else if decide ((5, 5) ∈ snake scenario2.1) then Some snake_cell else None.
Proof.
  apply (draw_screen_paints scenario2 (5, 5) (5, 5));
    [by_compute.. | repeat constructor; by_compute].
Defined.

Lemma draw_screen_raises_off_screen_witness :
  fst (_draw_screen off_screen) = Raise CursesError.
Proof.
  apply (draw_screen_raises_off_screen off_screen (3, 80));
    [by_compute | simpl; set_solver | unfold on_screen; simpl; lia].
Defined.

End SnakeGame.
