(* ===== verification/SnakePlay.v ===== *)
(** * SnakePlay: a whole call of [Snake.play]

    What [Snake.play] (lines 175-185 of [src/snake.py]) does from the call
    to the answer, on the definitions and the lemmas of [SnakeLoop].

    The theorems: once no direction key arrives any more the loop ends
    within [max LINES COLS] further frames, so that [play] answers with any
    fuel beyond that; the game started by [__init__] and left alone ends
    with [curses.error] when the head reaches column [COLS]; a game lasts
    a sixth of a second for each frame it completes and reads one key a
    frame; [play] leaves the body a chain; and a game need not end: steered round a square of four cells the
    snake goes on for ever. *)

From Stdlib Require Import Ascii QArith Qcanon.
From stdpp Require Import base tactics numbers option list strings gmap.
From S2P Require Import Prelude Curses Runtime SnakeLogic SnakeTick SnakeLoop.

Module PlayFacts.
Import Runtime Snake TickFacts SnakeGame.
Local Open Scope Z_scope.
Local Open Scope eff_scope.

(** ** The loop ends *)

Lemma run_left_bound g :
  (run_left g <=
   Z.to_nat (Z.max (Curses.LINES (term g.2)) (Curses.COLS (term g.2))))%nat.
Proof. unfold run_left. repeat case_match; lia. Qed.

Lemma frames_left_bound N g :
  (frames_left N g <= N - Curses.reads (term g.2) +
     Z.to_nat (Z.max (Curses.LINES (term g.2)) (Curses.COLS (term g.2))))%nat.
Proof.
  unfold frames_left. pose proof (run_left_bound g). case_match; lia.
Qed.

Lemma steer_quiet N g :
  quiet N g -> (N <= Curses.reads (term g.2))%nat ->
  steer (next_key g) (facing g.1) = facing g.1.
Proof. intros Hq Hn. unfold steer, next_key. by rewrite Hq. Qed.

(** Moving one cell on the board, the way the snake faces, brings the head
    one cell closer to the edge ahead. *)
Lemma run_left_step g g' hd new :
  last (snake g.1) = Some hd -> ahead hd (facing g.1) = Some new ->
  on_board (Curses.LINES (term g.2)) (Curses.COLS (term g.2)) new = true ->
  last (snake g'.1) = Some new -> facing g'.1 = facing g.1 ->
  Curses.LINES (term g'.2) = Curses.LINES (term g.2) ->
  Curses.COLS (term g'.2) = Curses.COLS (term g.2) ->
  (run_left g' < run_left g)%nat.
Proof.
  intros Hhd Ha Hb Hhd' Hf' HL HC. apply on_board_spec in Hb.
  unfold run_left. rewrite Hhd, Hhd', Hf', HL, HC.
  unfold ahead in Ha.
  destruct (directional_mapping !! facing g.1) as [d|] eqn:Hd; [|done].
  injection Ha as <-. apply delta_cases in Hd.
  repeat (apply elem_of_cons in Hd as [->|Hd]; [simpl in *; lia|]).
  by apply elem_of_nil in Hd.
Qed.

(** A tick that goes on leaves fewer frames to go. *)
Lemma tick_frames_left N g :
  wf g -> quiet N g -> (tick g).1 = true ->
  (frames_left N (tick g).2 < frames_left N g)%nat.
Proof.
  intros Hwf Hq Ht. destruct (wf_cell_ahead g Hwf) as [new Hc].
  destruct (tick_frame g Hwf) as (_ & _ & Hf & HL & HC & Hr & _).
  assert (Hb : on_board (Curses.LINES (term g.2)) (Curses.COLS (term g.2))
                 new = true).
  { rewrite (tick_cases g new Hc) in Ht. by destruct (on_board _ _ new). }
  destruct (tick_body g new Hwf Hc Hb) as (_ & _ & Hhd').
  unfold frames_left. rewrite Hr, HL, HC.
  pose proof (run_left_bound (tick g).2) as Hbound. rewrite HL, HC in Hbound.
  destruct (Nat.ltb_spec (Curses.reads (term g.2)) N) as [Hlt|Hge].
  - case_match; lia.
  - rewrite (proj2 (Nat.ltb_ge _ _)) by lia.
    rewrite (steer_quiet N g Hq Hge) in Hf.
    unfold cell_ahead in Hc. rewrite (steer_quiet N g Hq Hge) in Hc.
    destruct (last (snake g.1)) as [hd|] eqn:Hhd; [|done].
    by apply (run_left_step g _ hd new).
Qed.

Lemma tick_quiet N g : wf g -> quiet N g -> quiet N (tick g).2.
Proof.
  intros Hwf Hq n Hn. rewrite (tick_keys g Hwf). by apply Hq.
Qed.

(** The loop answers within the frames left, one round more for the
    frame that ends it and one for the test that leaves. *)
Lemma loop_answers N k g :
  wf g -> quiet N g -> (frames_left N g <= k)%nat ->
  answered (fst (loop (Datatypes.S (Datatypes.S k)) g)) = true.
Proof.
  revert g. induction k as [|k IH]; intros g Hwf Hq Hk; rewrite loop_S.
  all: pose proof (frame_view g Hwf) as Hv.
  all: pose proof (tick_frames_left N g Hwf Hq) as Hdec.
  all: destruct (frame_cases g Hwf) as [[e He]|He];
    destruct (frame g) as [r g']; simpl in He, Hv; subst r; [done|].
  all: destruct (tick g).1; [specialize (Hdec eq_refl)|done].
  - lia.
  - apply IH.
    + by apply (wf_view (tick g).2), tick_wf.
    + by apply (quiet_view N (tick g).2), tick_quiet.
    + rewrite (frames_left_view N _ _ Hv). lia.
Qed.

Lemma close_screen_total : total close_screen.
Proof. unfold close_screen, the_screen. solve_total. Qed.

Lemma opened_frames_left N g : frames_left N (opened g) = frames_left N g.
Proof. by destruct g as [[] [[] ]]. Qed.

(** The fuel that suffices once the player has stopped steering. *)
Lemma play_answers N g :
  snake g.1 <> [] -> is_Some (directional_mapping !! facing g.1) ->
  room g.2 -> quiet N g ->
  let span :=
    Z.to_nat (Z.max (Curses.LINES (term g.2)) (Curses.COLS (term g.2))) in
  answered (fst (play (N - Curses.reads (term g.2) + span + 2) g)) = true.
Proof.
  intros Hne Hdir Hroom Hq span.
  destruct (Curses.available (term g.2)) eqn:Hav.
  - rewrite (play_run _ g Hav). simpl.
    rewrite Nat.add_comm. apply (loop_answers N); [by apply opened_wf|done|].
    rewrite opened_frames_left. apply frames_left_bound.
  - apply try_finally_answers; [|apply close_screen_total].
    by rewrite (bind_Raise _ _ _ _ _ (create_screen_unavailable g Hav)).
Qed.

(** C9: once the player stops steering, the game ends: when no direction
    key arrives from the [N]-th read on, [play] returns or raises with any
    fuel that covers the [N] frames that may steer, [max LINES COLS] frames
    in a straight line, the frame that ends the loop and the test that
    leaves it. *)
Theorem play_terminates N g fuel :
  snake g.1 <> [] -> is_Some (directional_mapping !! facing g.1) ->
  room g.2 -> quiet N g ->
  let span :=
    Z.to_nat (Z.max (Curses.LINES (term g.2)) (Curses.COLS (term g.2))) in
  (N - Curses.reads (term g.2) + span + 2 <= fuel)%nat ->
  answered (fst (play fuel g)) = true.
Proof.
  intros Hne Hdir Hroom Hq span Hfuel.
  rewrite (play_fuel_mono _ fuel g Hfuel); by apply play_answers.
Qed.

(** ** Left alone, the game ends on the right edge *)

Lemma update_logic_keeps_held : preserves (keeps held) _update_logic.
Proof.
  apply (same_keeps
           (fun g => (stdscr g.1, Curses.on Curses.Started (term g.2)))).
  - intros g1 g2 [= H1 H2] [Hs Ho]. split; [by rewrite H1 | by rewrite H2].
  - apply same_pair;
      [by apply update_logic_keeps | by apply update_logic_keeps_term].
Qed.

Lemma held_tick g : wf g -> held g -> held (tick g).2.
Proof.
  intros Hwf Hh. pose proof (preserved update_logic_keeps_held g Hh) as H.
  by rewrite (update_logic_run g Hwf) in H.
Qed.

(** A tick of an eastbound snake short of column [COLS]. *)
Lemma eastbound_tick k g :
  eastbound k g -> k < Curses.COLS (term g.2) ->
  (tick g).1 = true /\ eastbound (k + 1) (tick g).2.
Proof.
  intros (Hwf & Hheld & Hq & Hf & Hall & Hhd & Hfood) Hk.
  pose proof Hwf as (_ & _ & _ & [HL HC] & _).
  assert (Hc : cell_ahead g = Some (0, k + 1)).
  { unfold cell_ahead. rewrite Hhd. simpl.
    rewrite (steer_quiet 0 g Hq) by lia. by rewrite Hf. }
  assert (Hhd0 : 0 <= k).
  { apply last_elem_of in Hhd. rewrite Forall_forall in Hall.
    apply Hall in Hhd. simpl in Hhd. lia. }
  assert (Hb : on_board (Curses.LINES (term g.2)) (Curses.COLS (term g.2))
                 (0, k + 1) = true)
    by (apply on_board_spec; simpl; lia).
  destruct (tick_body g _ Hwf Hc Hb) as (Ht & Hbody & Hlast).
  destruct (tick_frame g Hwf) as (_ & _ & Hf' & HL' & HC' & _).
  split; [done|].
  split_and!; [by apply tick_wf|by apply held_tick|by apply tick_quiet| | |done|].
  - rewrite Hf'. by rewrite (steer_quiet 0 g Hq) by lia.
  - assert (Forall (fun c : pos => c.1 = 0 /\ 0 <= c.2 <= k + 1)
              (tail (snake g.1 ++ [(0, k + 1)]))).
    { apply Forall_tail, Forall_app. split.
      - eapply Forall_impl; [done|]. simpl. intros c. lia.
      - apply Forall_singleton. simpl. lia. }
    destruct Hbody as [-> | ->]; [done|by apply Forall_dup_first].
  - intros f Hf2. destruct (tick_food_on_screen g Hwf Hfood) as (f' & Hf3 & Hon).
    rewrite Hf3 in Hf2. injection Hf2 as <-.
    by apply (on_screen_resize g.2).
Qed.

Lemma eastbound_on_screen k g :
  eastbound k g -> k < Curses.COLS (term g.2) ->
  Forall (on_screen g.2) (snake g.1).
Proof.
  intros ((_ & _ & _ & [HL _] & _) & _ & _ & _ & Hall & _) Hk.
  eapply Forall_impl; [done|]. intros [y x]. unfold on_screen. simpl. lia.
Qed.

(** A frame of an eastbound snake: it goes on while the cell ahead is on
    the screen ... *)
Lemma eastbound_frame k g :
  eastbound k g -> k + 1 < Curses.COLS (term g.2) ->
  exists g', frame g = (Ret true, g') /\ eastbound (k + 1) g' /\
             Curses.COLS (term g'.2) = Curses.COLS (term g.2).
Proof.
  intros He Hk. pose proof He as (Hwf & _ & _ & _ & _ & _ & Hfood).
  destruct (eastbound_tick k g He) as (Ht & He'); [lia|].
  destruct (tick_frame g Hwf) as (_ & _ & _ & _ & HC & _).
  destruct (tick_food_on_screen g Hwf Hfood) as (f & Hf & Hon).
  pose proof He' as (_ & (Hs & _) & _ & _ & _ & _ & Hfood').
  pose proof (frame_view g Hwf) as Hv. rewrite (frame_run g Hwf) in Hv |- *.
  rewrite (show_run _ f Hs Hf (Hfood' f Hf)) in Hv |- *
    by (apply (eastbound_on_screen (k + 1)); [done|lia]).
  eexists. split_and!;
    [by rewrite Ht | by apply (eastbound_view _ _ _ Hv) | done].
Qed.

(** ... and raises when the cell ahead is in column [COLS]. *)
Lemma eastbound_crash k g :
  eastbound k g -> k + 1 = Curses.COLS (term g.2) ->
  fst (frame g) = Raise CursesError.
Proof.
  intros He Hk. pose proof He as (Hwf & _).
  destruct (eastbound_tick k g He)
    as (_ & (_ & Hh & _ & _ & _ & Hhd & _)); [lia|].
  destruct (tick_frame g Hwf) as (_ & _ & _ & _ & HC & _).
  rewrite (frame_run g Hwf). simpl. rewrite show_off; [done|apply Hh|].
  apply Exists_exists. exists (0, k + 1). split; [by apply last_elem_of|].
  unfold on_screen. simpl. lia.
Qed.

Lemma loop_crash n k g :
  eastbound k g -> k + Z.of_nat (Datatypes.S n) = Curses.COLS (term g.2) ->
  fst (loop (Datatypes.S n) g) = Raise CursesError /\
  Curses.reads (term (snd (loop (Datatypes.S n) g)).2)
  = (Curses.reads (term g.2) + Datatypes.S n)%nat.
Proof.
  revert k g. induction n as [|n IH]; intros k g He Hk; rewrite loop_S;
    pose proof He as (Hwf & _); pose proof (frame_reads g Hwf) as Hr.
  - pose proof (eastbound_crash k g He ltac:(lia)) as H.
    destruct (frame g) as [[[]|e|] g']; simpl in *; simplify_eq.
    split; [done|lia].
  - destruct (eastbound_frame k g He ltac:(lia)) as (g' & Hf & He' & HC).
    rewrite Hf in Hr |- *. simpl in Hr.
    destruct (IH (k + 1) g' He' ltac:(lia)) as [-> ->]. split; [done|lia].
Qed.

Lemma init_eastbound rows cols ks rnd fs :
  0 < rows -> 0 < cols ->
  (forall n, keypress_movement_mapping !! ks n = None) ->
  eastbound 0 (opened (__init__, boot rows cols ks rnd fs)).
Proof.
  intros Hr Hc Hk. split_and!; try done.
  - intros n _. apply Hk.
  - by apply Forall_singleton.
Qed.

(** [COLS] rounds take the untouched game to its exception: one key is
    read in each. *)
Lemma untouched_game_crash rows cols ks rnd fs :
  0 < rows -> 0 < cols ->
  (forall n, keypress_movement_mapping !! ks n = None) ->
  let g := (__init__, boot rows cols ks rnd fs) in
  fst (play (Z.to_nat cols) g) = Raise CursesError /\
  Curses.reads (term (snd (play (Z.to_nat cols) g)).2) = Z.to_nat cols.
Proof.
  intros Hr Hc Hk g.
  pose proof (init_eastbound rows cols ks rnd fs Hr Hc Hk) as He. fold g in He.
  destruct (Z.to_nat cols) as [|n] eqn:En; [lia|].
  rewrite (play_run _ g eq_refl). simpl.
  destruct (loop_crash n 0 (opened g) He) as [Hl Hreads]; [simpl; lia|].
  rewrite Hl. simpl in *. by split.
Qed.

(** C12: the game as the program would start it, left alone, does not end
    by returning: on any terminal with at least one line and one column,
    with no direction key ever pressed, the snake walks east from (0, 0),
    enters column [COLS] at the [COLS]-th frame, and the repaint of that
    frame raises [curses.error], which [play] lets through after
    releasing the terminal, whatever fuel of at least [COLS] rounds it is
    given: [COLS] keys have been read, one a frame, when it does. *)
Theorem untouched_game_crashes rows cols ks rnd fs fuel :
  0 < rows -> 0 < cols ->
  (forall n, keypress_movement_mapping !! ks n = None) ->
  (Z.to_nat cols <= fuel)%nat ->
  fst (play fuel (__init__, boot rows cols ks rnd fs)) = Raise CursesError /\
  Curses.reads (term (snd (play fuel (__init__, boot rows cols ks rnd fs))).2)
  = Z.to_nat cols.
Proof.
  intros Hr Hc Hk Hfuel.
  destruct (untouched_game_crash rows cols ks rnd fs Hr Hc Hk) as [H Hreads].
  rewrite (play_fuel_mono _ fuel _ Hfuel); [done|]. by rewrite H.
Qed.

(** ** The pace *)

Lemma draw_screen_keeps_clock :
  preserves (same (fun g : Snake * World => clock g.2)) _draw_screen.
Proof. open_frame. solve_keeps. Qed.

Lemma update_logic_keeps_clock :
  preserves (same (fun g : Snake * World => clock g.2)) _update_logic.
Proof.
  unfold _update_logic, spawn_food, random_cell, read_input, move, eat.
  solve_keeps.
Qed.

Lemma lasted_0 : lasted 0 = 0%Qc.
Proof. by apply Qc_is_canon. Qed.

Lemma lasted_S k : lasted (Datatypes.S k) = (lasted k + frame_time)%Qc.
Proof.
  apply Qc_is_canon. unfold lasted, frame_time, FRAMERATE.
  cbn [Qcplus Qcinv this Q2Qc]. rewrite !Qred_correct.
  unfold Qeq. simpl. lia.
Qed.

(** The sleep is the last thing a repaint does. *)
Lemma show_sleeps_last :
  show =e= ((_draw_screen;; w <- the_screen;; curses (Curses.refresh w));;
            in_world (sleep frame_time)).
Proof.
  unfold show. etrans; [|symmetry; apply bind_assoc].
  apply bind_proper; [done|]. intros ?. symmetry. apply bind_assoc.
Qed.

Lemma show_duration g :
  clock (snd (show g)).2 =
  (clock g.2 + (if returned (fst (show g)) then frame_time else 0))%Qc.
Proof.
  rewrite show_sleeps_last. apply RuntimeFacts.sleep_after_clock.
  pose proof draw_screen_keeps_clock. unfold the_screen. solve_keeps.
Qed.

(** A frame that completes takes [1 / FRAMERATE] of a second, whatever the
    tick did; a frame that raises takes none. *)
Lemma frame_duration g :
  clock (snd (frame g)).2 =
  (clock g.2 + (if returned (fst (frame g)) then frame_time else 0))%Qc.
Proof.
  pose proof (preserved update_logic_keeps_clock g) as H1.
  unfold frame, bind, same in *.
  destruct (_update_logic g) as [[b|e|] g1]; simpl in *;
    [|by rewrite H1, Qcplus_0_r..].
  pose proof (show_duration g1) as H2.
  destruct (show g1) as [[[]|e|] g2]; simpl in *; congruence.
Qed.

(** The loop reads one key a frame and sleeps once for each frame that
    completes. *)
Lemma loop_duration n g r g' :
  wf g -> loop n g = (r, g') -> answered r = true ->
  exists k, (k < n)%nat /\
    Curses.reads (term g'.2) = (Curses.reads (term g.2) + Datatypes.S k)%nat /\
    clock g'.2 =
      (clock g.2 + lasted (if returned r then Datatypes.S k else k))%Qc.
Proof.
  revert g. induction n as [|n IH]; intros g Hwf Hl Ha.
  { unfold loop in Hl. simpl in Hl. by injection Hl as <- <-. }
  rewrite loop_S in Hl.
  pose proof (frame_reads g Hwf) as Hr. pose proof (frame_duration g) as Hc.
  pose proof (frame_view g Hwf) as Hv.
  destruct (frame g) as [[[]|e|] g1]; simpl in *; [| |simplify_eq/=..].
  - destruct (IH g1 (wf_view _ _ Hv (tick_wf g Hwf)) Hl Ha)
      as (k & Hk & Hr' & Hc').
    exists (Datatypes.S k). split_and!; [lia|lia|].
    rewrite Hc', Hc. destruct (returned r); rewrite !lasted_S; ring.
  - destruct n; simplify_eq/=. exists 0%nat.
    split_and!; [lia|lia|]. by rewrite Hc, lasted_S, lasted_0, Qcplus_0_l.
  - exists 0%nat. split_and!; [lia|lia|]. by rewrite Hc, lasted_0.
Qed.

(** C11: a game paces itself: when [play] answers on an available
    terminal it has read one key for each tick it made, [k + 1] of them,
    and the clock is a sixth of a second further for each frame that
    completed: all [k + 1] when [play] returns, and [k] when the last
    repaint raised, since the sleep comes after the repaint. *)
Theorem play_duration n g :
  snake g.1 <> [] -> is_Some (directional_mapping !! facing g.1) ->
  room g.2 -> Curses.available (term g.2) = true ->
  answered (fst (play n g)) = true ->
  exists k, (k < n)%nat /\
    Curses.reads (term (snd (play n g)).2)
    = (Curses.reads (term g.2) + Datatypes.S k)%nat /\
    clock (snd (play n g)).2
    = (clock g.2
       + lasted (if returned (fst (play n g)) then Datatypes.S k else k))%Qc.
Proof.
  intros Hne Hdir Hroom Hav. rewrite (play_run n g Hav). simpl. intros Ha.
  rewrite Ha.
  destruct (loop n (opened g)) as [r g1] eqn:Hl. simpl in *.
  apply (loop_duration n _ _ _ (opened_wf g Hne Hdir Hroom)) in Hl as Hd;
    [|done].
  by destruct g as [[] [[] ]], g1 as [[] [[] ]].
Qed.

(** ** The body stays a chain *)

Lemma play_keeps_chain_any n : preserves (keeps chained) (play n).
Proof.
  pose proof update_logic_keeps_chain.
  assert (preserves (keeps chained) create_screen)
    by (apply same_body_keeps_chain; unfold create_screen, the_screen;
        solve_preserves).
  assert (preserves (keeps chained) show)
    by (apply same_body_keeps_chain; open_frame; solve_preserves).
  assert (preserves (keeps chained) close_screen)
    by (apply same_body_keeps_chain; unfold close_screen, the_screen;
        solve_preserves).
  unfold play, loop, frame. solve_preserves.
Qed.

(** C21: the body of the snake is a chain through a whole game: when every
    cell of the body is the cell before it or a neighbour of it in its row
    or its column, the same holds of the body [play] leaves, whatever the
    keys, the food, the terminal and the fuel, and whether [play] returns,
    raises or is still running. *)
Theorem play_keeps_chain n g :
  chain (snake g.1) -> chain (snake (snd (play n g)).1).
Proof. apply (preserved (play_keeps_chain_any n)). Qed.

(** ** A game without end *)

Lemma mod4_cases i :
  (i mod 4 = 0 /\ Datatypes.S i mod 4 = 1 \/
   i mod 4 = 1 /\ Datatypes.S i mod 4 = 2 \/
   i mod 4 = 2 /\ Datatypes.S i mod 4 = 3 \/
   i mod 4 = 3 /\ Datatypes.S i mod 4 = 0)%nat.
Proof.
  pose proof (Nat.mod_upper_bound i 4 ltac:(lia)).
  replace (Datatypes.S i) with (i + 1)%nat by lia.
  rewrite <- (Nat.Div0.add_mod_idemp_l i 1 4).
  destruct (i mod 4)%nat as [|[|[|[|]]]]; [..|lia]; simpl; lia.
Qed.

(** The [i]-th key of the circle takes the head to the next corner,
    whatever the snake faced. *)
Lemma circle_ahead y x i dir :
  ahead (corner y x i) (steer (circle i) dir)
  = Some (corner y x (Datatypes.S i)).
Proof.
  unfold circle, corner.
  destruct (mod4_cases i) as [[-> ->]|[[-> ->]|[[-> ->]|[-> ->]]]];
    unfold ahead;
    match goal with |- _ <$> ?o = _ =>
      let v := eval vm_compute in o in change o with v end;
    simpl; f_equal; f_equal; lia.
Qed.

Lemma corner_in_square y x i : in_square y x (corner y x i).
Proof.
  unfold corner, in_square. pose proof (Nat.mod_upper_bound i 4 ltac:(lia)).
  destruct (i mod 4)%nat as [|[|[|[|]]]]; simpl; lia.
Qed.

Lemma circling_on_screen y x i g :
  circling y x i g -> Forall (on_screen g.2) (snake g.1).
Proof.
  intros (_ & Hy & Hx & _ & Hall & _).
  eapply Forall_impl; [done|]. intros [cy cx] [? ?]. unfold on_screen.
  simpl in *. lia.
Qed.

(** A tick of a snake that goes round: the head enters the next corner. *)
Lemma circling_tick y x i g :
  circling y x i g ->
  (tick g).1 = true /\ circling y x (Datatypes.S i) (tick g).2.
Proof.
  intros (Hwf & Hy & Hx & Hk & Hall & Hhd & Hfood).
  assert (Hc : cell_ahead g = Some (corner y x (Datatypes.S i))).
  { unfold cell_ahead, next_key. rewrite Hhd. simpl.
    rewrite <- (Nat.add_0_r (Curses.reads _)), Hk, Nat.add_0_r.
    apply circle_ahead. }
  pose proof (corner_in_square y x (Datatypes.S i)) as [Hs1 Hs2].
  assert (Hb : on_board (Curses.LINES (term g.2)) (Curses.COLS (term g.2))
                 (corner y x (Datatypes.S i)) = true)
    by (apply on_board_spec; lia).
  destruct (tick_body g _ Hwf Hc Hb) as (Ht & Hbody & Hlast).
  destruct (tick_frame g Hwf) as (_ & _ & _ & HL' & HC' & Hr & _).
  split; [done|].
  split_and!; [by apply tick_wf|lia..| | |done|].
  - intros j. rewrite (tick_keys g Hwf), Hr.
    replace (Datatypes.S (Curses.reads (term g.2)) + j)%nat
      with (Curses.reads (term g.2) + Datatypes.S j)%nat by lia.
    rewrite Hk. f_equal. lia.
  - assert (Forall (in_square y x)
              (tail (snake g.1 ++ [corner y x (Datatypes.S i)])))
      by (by apply Forall_tail_snoc).
    destruct Hbody as [-> | ->]; [done|by apply Forall_dup_first].
  - intros f Hf2.
    destruct (tick_food_on_screen g Hwf Hfood) as (f' & Hf3 & Hon).
    rewrite Hf3 in Hf2. injection Hf2 as <-.
    by apply (on_screen_resize g.2).
Qed.

(** Its frame answers [True]. *)
Lemma circling_frame y x i g :
  circling y x i g ->
  exists g', frame g = (Ret true, g') /\ circling y x (Datatypes.S i) g'.
Proof.
  intros Hc. pose proof Hc as (Hwf & _ & _ & _ & _ & _ & Hfood).
  destruct (circling_tick y x i g Hc) as (Ht & Hc').
  destruct (tick_food_on_screen g Hwf Hfood) as (f & Hf & Hon).
  pose proof Hc' as ((_ & _ & Hs & _) & _ & _ & _ & _ & _ & Hfood').
  pose proof (frame_view g Hwf) as Hv. rewrite (frame_run g Hwf) in Hv |- *.
  rewrite (show_run _ f Hs Hf (Hfood' f Hf)) in Hv |- *
    by apply (circling_on_screen _ _ _ _ Hc').
  eexists. split; [by rewrite Ht|by apply (circling_view _ _ _ _ _ Hv)].
Qed.

(** C10: a game need not end.  On an available terminal, with the body on
    a square of four cells that lies on the screen away from column 0, the
    head in its upper right corner [(y, x)], the food, if there is any
    yet, on the screen, and a player who presses
    down, left, up, right, again and again, [play] is still running when
    the fuel is used up, however much there is: the snake goes round the
    square, eating what food it finds there, and overlapping itself without
    harm. *)
Theorem play_goes_round n y x g :
  Curses.available (term g.2) = true ->
  is_Some (directional_mapping !! facing g.1) ->
  0 <= y /\ y + 1 < Curses.LINES (term g.2) ->
  2 <= x /\ x < Curses.COLS (term g.2) ->
  (forall j, Curses.keys (term g.2) (Curses.reads (term g.2) + j) = circle j) ->
  Forall (in_square y x) (snake g.1) -> last (snake g.1) = Some (y, x) ->
  (forall f, food g.1 = Some f -> on_screen g.2 f) ->
  fst (play n g) = Timeout.
Proof.
  intros Hav Hd Hy Hx Hk Hall Hhd Hfood.
  assert (Hne : snake g.1 <> []) by (by intros E; rewrite E in Hhd).
  assert (Hc : circling y x 0 (opened g)).
  { split_and!; try done;
      [apply opened_wf; [done..|split; simpl; lia]|simpl; lia..]. }
  rewrite (play_run _ g Hav). simpl.
  apply (loop_spins (circling y x) Datatypes.S (circling_frame y x) n 0%nat _ Hc).
Qed.

(** ** The theorems at concrete games *)

Lemma play_terminates_witness : answered (fst (play 90 fresh_game)) = true.
Proof. apply (play_terminates 0 fresh_game 90); by_compute. Defined.

Lemma untouched_game_crashes_witness :
  fst (play 1000 (__init__, boot 24 80 nokey dice ∅)) = Raise CursesError /\
  Curses.reads (term (snd (play 1000 (__init__, boot 24 80 nokey dice ∅))).2)
  = Z.to_nat 80.
Proof. apply untouched_game_crashes; by_compute. Defined.

(** The game as [__init__] starts it, left alone: 80 keys read, 79 frames
    slept through. *)
Lemma play_duration_witness :
  exists k, (k < 90)%nat /\
    Curses.reads (term (snd (play 90 fresh_game)).2)
    = (Curses.reads (term fresh_game.2) + Datatypes.S k)%nat /\
    clock (snd (play 90 fresh_game)).2
    = (clock fresh_game.2
       + lasted (if returned (fst (play 90 fresh_game))
                 then Datatypes.S k else k))%Qc.
Proof. apply play_duration; by_compute. Defined.

(** Three cells in a row, through ten frames. *)
Lemma play_keeps_chain_witness : chain (snake (snd (play 10 feeding)).1).
Proof. apply play_keeps_chain. compute_done. Defined.

(** Two cells in row 5 of a 24 x 80 screen, going round with fifty units
    of fuel. *)
Lemma play_goes_round_witness : fst (play 50 round_and_round) = Timeout.
Proof.
  apply (play_goes_round 50 5 5); try by_compute.
  all: unfold in_square; compute_done.
Defined.

End PlayFacts.
