(* ===== verification/SnakeSpec.v ===== *)
(** * SnakeSpec: the game as a transition system

    What [Snake._update_logic] promises, told without the object, the
    terminal and the generator: a configuration is a body, the food (or
    none yet) and a heading; a tick is a step labelled by the key that was
    read and by what happened ([Moved], [Ate], [Crashed]).  The rules are
    those of the tick (lines 144-165 of [src/snake.py]): food is placed if
    there is none, the key turns the snake, the head enters the cell ahead
    if the board allows it, and the snake doubles its first cell and new
    food is placed when the head it had before the move was on the food.
    The cells the generator picks are the only choice a step has.

    The relation [step] has a function beside it, [next], which computes
    the step from the cells the generator gives, and a decision procedure,
    [stepb], which reads those cells off the two configurations.

    The theorems: every tick of the code from a well-formed state is a step
    of the system (the code refines it), every step of the system is
    the tick of the code for some random numbers (the system says nothing
    the code cannot do), and, by induction on runs of the system, the body
    never shrinks and gains exactly one cell per meal.  A step from a
    configuration on the screen leads to one on the screen, or to one
    whose head is in column [COLS], entered heading right.  The runs of
    the system and the games of [Snake.play] are compared in
    [SnakeRuns]. *)

From stdpp Require Import base tactics numbers option list strings gmap.
From S2P Require Import Prelude Curses Runtime SnakeLogic SnakeTick SnakeLoop.

Module Game.
Import Runtime Snake TickFacts.
Local Open Scope Z_scope.

(** ** Configurations *)

Inductive dir : Set := Left | Right | Up | Down.

#[global] Instance dir_eq_dec : EqDecision dir.
Proof. solve_decision. Defined.

(** The string the object holds for a heading, and back. *)
Definition name (d : dir) : string :=
  match d with
  | Left => "left" | Right => "right" | Up => "up" | Down => "down"
  end.

Definition of_name (s : string) : option dir :=
  if decide (s = "left") then Some Left
  else if decide (s = "right") then Some Right
  else if decide (s = "up") then Some Up
  else if decide (s = "down") then Some Down
  else None.

(** The heading a key asks for. *)
Definition of_key (k : Z) : option dir :=
  if decide (k = Curses.KEY_LEFT) then Some Left
  else if decide (k = Curses.KEY_RIGHT) then Some Right
  else if decide (k = Curses.KEY_UP) then Some Up
  else if decide (k = Curses.KEY_DOWN) then Some Down
  else None.

Definition turn (k : Z) (d : dir) : dir := default d (of_key k).

Definition delta (d : dir) : pos :=
  match d with
  | Left => (0, -1) | Right => (0, 1) | Up => (-1, 0) | Down => (1, 0)
  end.

(** The cell next to [hd] in direction [d]. *)
Definition towards (d : dir) (hd : pos) : pos :=
  (hd.1 + (delta d).1, hd.2 + (delta d).2).

Record config : Type := Config {
  body : list pos;                   (* tail first, head last *)
  food : option pos;
  heading : dir
}.

#[global] Instance config_eq_dec : EqDecision config.
Proof. solve_decision. Defined.

Inductive event : Set := Moved | Ate | Crashed.

#[global] Instance event_eq_dec : EqDecision event.
Proof. solve_decision. Defined.

Definition goes_on (e : event) : bool :=
  match e with Crashed => false | _ => true end.

(** ** The rules *)

Section rules.
Variables rows cols : Z.

(** The cells the head may enter, and those food may be placed on. *)
Definition allowed (p : pos) : Prop := 0 <= p.1 < rows /\ 0 < p.2 <= cols.

Definition placed (p : pos) : Prop := 0 <= p.1 < rows /\ 0 <= p.2 < cols.

#[global] Instance allowed_dec p : Decision (allowed p).
Proof. unfold allowed. apply _. Defined.

#[global] Instance placed_dec p : Decision (placed p).
Proof. unfold placed. apply _. Defined.

(** The food a tick is played with: the food there is, or a cell placed
    as the tick starts. *)
Definition in_play (f0 : option pos) (f : pos) : Prop :=
  match f0 with Some f1 => f = f1 | None => placed f end.

#[global] Instance in_play_dec o f : Decision (in_play o f).
Proof. destruct o; simpl; apply _. Defined.

Inductive step : config -> Z -> event -> config -> Prop :=
  | step_move b f0 d k hd f :
      last b = Some hd -> in_play f0 f ->
      allowed (towards (turn k d) hd) -> hd <> f ->
      step (Config b f0 d) k Moved
           (Config (tail (b ++ [towards (turn k d) hd])) (Some f) (turn k d))
  | step_eat b f0 d k hd f' :
      last b = Some hd -> in_play f0 hd ->
      allowed (towards (turn k d) hd) -> placed f' ->
      step (Config b f0 d) k Ate
           (Config (dup_first (tail (b ++ [towards (turn k d) hd])))
                   (Some f') (turn k d))
  | step_crash b f0 d k hd f :
      last b = Some hd -> in_play f0 f ->
      ~ allowed (towards (turn k d) hd) ->
      step (Config b f0 d) k Crashed (Config b (Some f) (turn k d)).

(** The runs of a game that goes on. *)
Inductive run : config -> list (Z * event) -> config -> Prop :=
  | run_nil c : run c [] c
  | run_cons c k e c1 tr c2 :
      step c k e c1 -> goes_on e = true -> run c1 tr c2 ->
      run c ((k, e) :: tr) c2.

(** A configuration the screen can show: the body and the food are on
    it. *)
Definition visible (c : config) : Prop :=
  Forall placed (body c) /\
  from_option placed False (food c).

#[global] Instance visible_dec c : Decision (visible c).
Proof. unfold visible. destruct (food c); apply _. Defined.

(** A configuration on the screen that may still be without food. *)
Definition seen (c : config) : Prop :=
  Forall placed (body c) /\ from_option placed True (food c).

#[global] Instance seen_dec c : Decision (seen c).
Proof. unfold seen. destruct (food c); apply _. Defined.

(** The head is in the column after the last one, heading right. *)
Definition past_right_edge (c : config) : Prop :=
  exists hd, last (body c) = Some hd /\ 0 <= hd.1 < rows /\ hd.2 = cols /\
             heading c = Right.

(** The step as a function of the cells the generator gives: [f] if food
    has to be placed, [f'] if the snake eats. *)
Definition next (f f' : pos) (c : config) (k : Z) : event * config :=
  let d := turn k (heading c) in
  let f1 := default f (food c) in
  match last (body c) with
  | Some hd =>
      let new := towards d hd in
      if decide (allowed new)
      then if decide (hd = f1)
           then (Ate, Config (dup_first (tail (body c ++ [new]))) (Some f') d)
           else (Moved, Config (tail (body c ++ [new])) (Some f1) d)
      else (Crashed, Config (body c) (Some f1) d)
  | None => (Crashed, c)
  end.

(** The cells a step from [c] to [c'] was played with, read off the two
    configurations. *)
Definition cells_of (c : config) (e : event) (c' : config) : option (pos * pos) :=
  f ← match food c with
      | Some f1 => Some f1
      | None => if decide (e = Ate) then last (body c) else food c'
      end;
  f' ← (if decide (e = Ate) then food c' else Some f);
  Some (f, f').

(** The relation, decided. *)
Definition stepb (c : config) (k : Z) (e : event) (c' : config) : bool :=
  match cells_of c e c' with
  | Some (f, f') =>
      bool_decide (body c <> [] /\ in_play (food c) f /\
                   (e = Ate -> placed f') /\
                   next f f' c k = (e, c'))
  | None => false
  end.
End rules.

(** The meals of a run. *)
Definition meals (tr : list (Z * event)) : nat :=
  length (filter (fun ke => ke.2 = Ate) tr).

(** ** The game an object and its world stand for *)

Definition abs (g : Snake * World) : config :=
  Config (snake g.1) (Snake.food g.1) (default Right (of_name (facing g.1))).

(** The world with the next draws of the generator set to [cells]. *)
Definition deal (cells : list Z) (w : World) : World :=
  {| term := term w;
     rand := fun n => default (rand w n) (cells !! (n - draws w)%nat);
     draws := draws w; clock := clock w; files := files w;
     stdout := stdout w |}.

(** The numbers a cell is drawn from. *)
Definition numbers_of (o : option pos) : list Z :=
  match o with Some p => [p.1; p.2] | None => [] end.

(** The numbers a step from [c] to [c'] takes from the generator: those
    of the food it places, if there was none (the cell the head was on when
    the snake eats, the food that is left otherwise), then those of the
    new food of a snake that eats. *)
Definition needs (c : config) (e : event) (c' : config) : list Z :=
  match food c with
  | None => numbers_of (if decide (e = Ate) then last (body c) else food c')
  | Some _ => []
  end ++ (if decide (e = Ate) then numbers_of (food c') else []).

(** The keys a terminal answers next, and the numbers the generator
    gives next. *)
Definition types (ks : list Z) (t : Curses.terminal) : Prop :=
  forall i k, ks !! i = Some k -> Curses.keys t (Curses.reads t + i) = k.

Definition gives (cells : list Z) (w : World) : Prop :=
  forall i z, cells !! i = Some z -> rand w (draws w + i) = z.

(** The streams a state reads from. *)
Definition streams (g : Snake * World) : (nat -> Z) * (nat -> Z) :=
  (Curses.keys (term g.2), rand g.2).

(** The cell the second pair of draws of a tick gives. *)
Definition second_draw (g : Snake * World) : pos := drawn (fed g).2.

End Game.

Module GameFacts.
Import Runtime Snake TickFacts Game.
Local Open Scope Z_scope.

Implicit Types (g : Snake * World) (c : config) (d : dir) (e : event)
  (f hd : pos).

(** ** Headings, strings and keys *)

Lemma of_name_name d : of_name (name d) = Some d.
Proof. by destruct d. Qed.

Lemma name_of_name s d : of_name s = Some d -> name d = s.
Proof. unfold of_name. repeat case_decide; naive_solver. Qed.

Lemma delta_name d : directional_mapping !! name d = Some (delta d).
Proof. by destruct d. Qed.

(** A valid [facing] is the name of a heading. *)
Lemma facing_name s :
  is_Some (directional_mapping !! s) -> exists d, s = name d.
Proof.
  intros H. apply directions in H.
  repeat (apply elem_of_cons in H as [->|H];
          [first [by exists Left|by exists Right|by exists Up|by exists Down]|]).
  by apply elem_of_nil in H.
Qed.

(** The table of keys is [of_key]. *)
Lemma keypress_of_key k : keypress_movement_mapping !! k = name <$> of_key k.
Proof.
  unfold of_key, keypress_movement_mapping.
  repeat case_decide; subst; try done.
  by rewrite !lookup_insert_ne, lookup_singleton_ne.
Qed.

Lemma steer_turn k d : steer k (name d) = name (turn k d).
Proof.
  unfold steer, turn. rewrite keypress_of_key. by destruct (of_key k).
Qed.

Lemma ahead_towards hd d : ahead hd (name d) = Some (towards d hd).
Proof. unfold ahead. by rewrite delta_name. Qed.

(** ** The function and the relation *)

Section rules.
Context (rows cols : Z).
Notation step := (step rows cols).
Notation next := (next rows cols).
Notation run := (run rows cols).

(** Every value of [next] on cells the generator may give is a step. *)
Lemma next_step f f' c k :
  body c <> [] -> in_play rows cols (food c) f ->
  ((next f f' c k).1 = Ate -> placed rows cols f') ->
  step c k (next f f' c k).1 (next f f' c k).2.
Proof.
  destruct c as [b f0 d]. simpl. intros Hb Hf Hf'. unfold next in *. simpl in *.
  destruct (last b) as [hd|] eqn:Hl; [|by apply last_None in Hl].
  assert (Hin : in_play rows cols f0 (default f f0)) by (by destruct f0).
  repeat case_decide; simpl in *.
  - eapply step_eat; eauto. congruence.
  - eapply step_move; eauto.
  - eapply step_crash; eauto.
Qed.

(** Every step is a value of [next]. *)
Lemma step_next c k e c' :
  step c k e c' ->
  exists f f', in_play rows cols (food c) f /\ next f f' c k = (e, c') /\
               (e = Ate -> placed rows cols f').
Proof.
  assert (Hd : forall (o : option pos) f, in_play rows cols o f -> default f o = f)
    by (intros [?|] ?; naive_solver).
  destruct 1 as [b f0 d k hd f Hl Hf Ha Hne|b f0 d k hd f' Hl Hf Ha Hf'
                |b f0 d k hd f Hl Hf Ha].
  - exists f, f. unfold next. simpl. rewrite Hl, (Hd _ _ Hf).
    by rewrite !decide_True, decide_False by done.
  - exists hd, f'. unfold next. simpl. rewrite Hl, (Hd _ _ Hf).
    by rewrite !decide_True by done.
  - exists f, f. unfold next. simpl. rewrite Hl, (Hd _ _ Hf).
    by rewrite decide_False by done.
Qed.

(** The cell for new food matters only to a snake that eats. *)
Lemma next_fresh f f1 f2 c k :
  (next f f1 c k).1 <> Ate -> next f f2 c k = next f f1 c k.
Proof. unfold next. repeat case_match; naive_solver. Qed.

(** The numbers a step draws: a cell if food has to be placed, a cell
    if the snake eats. *)
Lemma next_needs f f' c k :
  body c <> [] -> in_play rows cols (food c) f ->
  needs c (next f f' c k).1 (next f f' c k).2 =
  match food c with None => [f.1; f.2] | Some _ => [] end
  ++ (if decide ((next f f' c k).1 = Ate) then [f'.1; f'.2] else []).
Proof.
  intros Hb Hin. unfold needs, next.
  destruct (last (body c)) as [hd|] eqn:Hl; [|by apply last_None in Hl].
  destruct (food c) as [f1|]; simpl in *;
    repeat case_decide; simplify_eq/=; by rewrite ?Hl.
Qed.

Lemma next_ate f f' c k hd :
  last (body c) = Some hd ->
  (next f f' c k).1 = Ate <->
  goes_on (next f f' c k).1 = true /\ hd = default f (food c).
Proof.
  intros Hl. unfold next. rewrite Hl. repeat case_decide; naive_solver.
Qed.
(** ** The relation, decided *)

Lemma step_nonempty_l c k e c' : step c k e c' -> body c <> [].
Proof.
  destruct 1 as [b ? ? ? hd ? Hl|b ? ? ? hd ? Hl|b ? ? ? hd ? Hl]; simpl;
    intros ->; done.
Qed.

Lemma step_cells c k e c' f f' :
  body c <> [] -> in_play rows cols (food c) f -> next f f' c k = (e, c') ->
  exists f2, cells_of c e c' = Some (f, f2) /\ next f f2 c k = (e, c') /\
             (e = Ate -> f2 = f').
Proof.
  intros Hb Hin Hn. unfold cells_of. unfold next in Hn |- *.
  destruct (last (body c)) as [hd|] eqn:Hl; [|by apply last_None in Hl].
  destruct (food c) as [f1|] eqn:Hf; simpl in *; subst;
    repeat case_decide; simplify_eq/=; rewrite ?Hl; simpl;
    eexists; (split; [done|]); by rewrite ?decide_True, ?decide_False by done.
Qed.

Lemma stepb_spec c k e c' : stepb rows cols c k e c' = true <-> step c k e c'.
Proof.
  unfold stepb. split.
  - destruct (cells_of c e c') as [[f f']|]; [|done].
    intros (Hb & Hin & Hp & Hn)%bool_decide_eq_true.
    pose proof (next_step f f' c k Hb Hin) as Hs. rewrite Hn in Hs.
    by apply Hs.
  - intros Hs. pose proof (step_nonempty_l _ _ _ _ Hs) as Hb.
    apply step_next in Hs as (f & f' & Hin & Hn & Hp).
    destruct (step_cells c k e c' f f' Hb Hin Hn) as (f2 & -> & Hn2 & Hf2).
    apply bool_decide_eq_true. split_and!; [done..| |done].
    intros ->. rewrite Hf2 by done. by apply Hp.
Qed.
(** ** Steps and the screen *)

Lemma visible_seen c : visible rows cols c -> seen rows cols c.
Proof. intros [Hb Hf]. split; [done|]. by destruct (food c). Qed.

Lemma in_play_placed (o : option pos) f :
  from_option (placed rows cols) True o -> in_play rows cols o f -> placed rows cols f.
Proof. destruct o; simpl; naive_solver. Qed.

(** A cell the head may enter from the screen is on the screen, or in the
    column after the last one and entered heading right. *)
Lemma towards_allowed d hd :
  placed rows cols hd -> allowed rows cols (towards d hd) ->
  placed rows cols (towards d hd) \/ ((towards d hd).2 = cols /\ d = Right).
Proof.
  unfold placed, allowed, towards. destruct d; simpl; intros; try (left; lia).
  destruct (decide (hd.2 + 1 = cols)); [by right|left; lia].
Qed.

(** What a step from a configuration on the screen leads to. *)
Lemma step_seen c k e c' :
  seen rows cols c -> step c k e c' ->
  visible rows cols c' \/ (goes_on e = true /\ past_right_edge rows cols c').
Proof.
  intros [Hb Hf].
  destruct 1 as [b f0 d k hd f Hl Hin Ha Hne|b f0 d k hd f' Hl Hin Ha Hf'
                |b f0 d k hd f Hl Hin Ha]; simpl in *.
  3: { left. split; [done|]. by eapply in_play_placed. }
  all: assert (Hhd : placed rows cols hd)
    by (eapply Forall_forall in Hb; [done|by apply last_elem_of]).
  all: assert (Hbne : b <> []) by (by intros ->).
  all: destruct (towards_allowed _ _ Hhd Ha) as [Hp|[Hc Hd]]; [left|right].
  - split; [by apply Forall_tail_snoc|]. by eapply in_play_placed.
  - split; [done|]. exists (towards (turn k d) hd). simpl.
    rewrite last_tail_snoc by done. by destruct Ha.
  - split; [by apply Forall_dup_first, Forall_tail_snoc|done].
  - split; [done|]. exists (towards (turn k d) hd). simpl.
    rewrite last_dup_first, last_tail_snoc by done. by destruct Ha.
Qed.

(** ** Invariants of the system, by induction on its runs *)

Lemma step_nonempty c k e c' : step c k e c' -> body c' <> [].
Proof.
  destruct 1 as [b ? ? ? hd ? Hl|b ? ? ? hd ? Hl|b ? ? ? hd ? Hl]; simpl.
  - destruct b as [|? [|? ?]]; done.
  - destruct b as [|? [|? ?]]; done.
  - intros ->. done.
Qed.

(** What a step does to the length of the body. *)
Lemma step_length c k e c' :
  step c k e c' ->
  length (body c') = (length (body c) + (if decide (e = Ate) then 1 else 0))%nat.
Proof.
  destruct 1 as [b ? ? ? hd ? Hl|b ? ? ? hd ? Hl|b ? ? ? hd ? Hl]; simpl.
  - rewrite length_tail_snoc. lia.
  - destruct b as [|x [|y b]]; [done|simpl; lia|].
    simpl. rewrite length_app. simpl. lia.
  - lia.
Qed.

Lemma run_length c tr c' :
  run c tr c' -> length (body c') = (length (body c) + meals tr)%nat.
Proof.
  induction 1 as [c|c k e c1 tr c2 Hs _ _ IH]; [simpl; unfold meals; simpl; lia|].
  rewrite IH, (step_length _ _ _ _ Hs). unfold meals.
  rewrite filter_cons. simpl. case_decide; simpl; lia.
Qed.

(** The cell next to the head is near it. *)
Lemma towards_near d hd : near hd (towards d hd).
Proof. unfold near, towards. destruct d; simpl; lia. Qed.

(** A step keeps the body a chain ... *)
Lemma step_chain c k e c' : step c k e c' -> chain (body c) -> chain (body c').
Proof.
  destruct 1 as [b ? ? ? hd ? Hl|b ? ? ? hd ? Hl|b ? ? ? hd ? Hl];
    simpl; intros Hc; [|apply chain_dup_first|done];
    eapply Sorted_tail_snoc; eauto using towards_near.
Qed.

(** ... and so does a run. *)
Lemma run_chain c tr c' : run c tr c' -> chain (body c) -> chain (body c').
Proof. induction 1; eauto using step_chain. Qed.

Lemma meals_le tr : (meals tr <= length tr)%nat.
Proof. apply length_filter. Qed.

Lemma run_app c1 tr1 c2 tr2 c3 :
  run c1 tr1 c2 -> run c2 tr2 c3 -> run c1 (tr1 ++ tr2) c3.
Proof. induction 1; [done|]. intros. simpl. econstructor; eauto. Qed.

End rules.

#[global] Instance step_dec rows cols c k e c' : Decision (step rows cols c k e c').
Proof.
  refine (cast_if (decide (stepb rows cols c k e c' = true)));
    by rewrite <- stepb_spec.
Defined.

(** ** The code and the system *)

Notation LINES g := (Curses.LINES (term (snd g))).
Notation COLS g := (Curses.COLS (term (snd g))).

Lemma abs_wf g :
  wf g -> exists d, facing g.1 = name d /\
                    abs g = Config (snake g.1) (Snake.food g.1) d.
Proof.
  intros (_ & Hd & _). apply facing_name in Hd as [d Hd]. exists d.
  split; [done|]. unfold abs. by rewrite Hd, of_name_name.
Qed.

Lemma on_screen_placed w p :
  on_screen w p <-> placed (Curses.LINES (term w)) (Curses.COLS (term w)) p.
Proof. done. Qed.

Lemma on_board_allowed rows cols p :
  on_board rows cols p = bool_decide (allowed rows cols p).
Proof.
  apply eq_true_iff_eq. rewrite on_board_spec, bool_decide_eq_true. done.
Qed.

(** The food a tick is played with is in play. *)
Lemma food_in_play_in_play g :
  room g.2 ->
  exists f, food_in_play g = Some f /\
            in_play (LINES g) (COLS g) (Snake.food g.1) f.
Proof.
  intros Hr. unfold food_in_play, fed.
  destruct (Snake.food g.1) as [f|] eqn:E; simpl.
  - exists f. by rewrite E.
  - exists (drawn g.2). split; [done|]. by apply on_screen_placed, drawn_on_screen.
Qed.

(** The states a tick can leave, as configurations. *)
Lemma abs_steered_fed g d :
  facing g.1 = name d ->
  abs (steered (fed g)) =
  Config (snake g.1) (food_in_play g) (turn (next_key g) d).
Proof.
  intros Hd. unfold abs, food_in_play.
  destruct (fed_frame g) as (Hs & Hf & _ & _ & Ht).
  destruct (steered_frame (fed g)) as (-> & -> & _).
  rewrite Hs. f_equal.
  replace (facing (steered (fed g)).1)
    with (steer (next_key g) (facing g.1)).
  - by rewrite Hd, steer_turn, of_name_name.
  - unfold steered, next_key. simpl. by rewrite Hf, Ht.
Qed.

Lemma abs_moved new g c :
  abs g = c ->
  abs (moved new g) = Config (tail (body c ++ [new])) (food c) (heading c).
Proof. intros <-. by destruct g. Qed.

Lemma abs_grown g c :
  abs g = c -> body c <> [] ->
  abs (grown g) = Config (dup_first (body c)) (Some (drawn g.2)) (heading c).
Proof. intros <-. destruct g as [[[|? ?] ? ? ? ?] ?]; done. Qed.

Lemma drawn_read w : drawn (read w) = drawn w.
Proof. by destruct w. Qed.

Lemma second_draw_placed g :
  room g.2 -> placed (LINES g) (COLS g) (second_draw g).
Proof.
  intros Hr. destruct (fed_frame g) as (_ & _ & _ & _ & Ht).
  unfold second_draw. rewrite <- Ht. apply on_screen_placed, drawn_on_screen.
  unfold room. by rewrite Ht.
Qed.

(** The reference tick is [next] on the cells the generator gives. *)
Lemma tick_next g :
  wf g ->
  exists f,
    food_in_play g = Some f /\
    in_play (LINES g) (COLS g) (Snake.food g.1) f /\
    (goes_on (next (LINES g) (COLS g) f (second_draw g) (abs g) (next_key g)).1,
     (next (LINES g) (COLS g) f (second_draw g) (abs g) (next_key g)).2) =
    ((tick g).1, abs (tick g).2).
Proof.
  intros Hwf. pose proof Hwf as (Hne & _ & _ & Hr & _).
  destruct (abs_wf g Hwf) as (d & Hd & Habs).
  destruct (food_in_play_in_play g Hr) as (f & Hf & Hin).
  exists f. split_and!; [done..|].
  destruct (last (snake g.1)) as [hd|] eqn:Hl; [|by apply last_None in Hl].
  assert (Hc : cell_ahead g = Some (towards (turn (next_key g) d) hd)).
  { unfold cell_ahead. rewrite Hl, Hd, steer_turn. simpl. apply ahead_towards. }
  assert (Hdef : default f (Snake.food g.1) = f)
    by (destruct (Snake.food g.1); naive_solver).
  rewrite (tick_cases g _ Hc), Habs. unfold next. simpl.
  rewrite Hl, Hdef, on_board_allowed, Hf.
  pose proof (abs_steered_fed g d Hd) as H2.
  case_bool_decide; [|rewrite decide_False by done; simpl; by rewrite H2, Hf].
  rewrite decide_True by done.
  set (new := towards (turn (next_key g) d) hd) in *.
  pose proof (abs_moved new _ _ H2) as H3. simpl in H3.
  destruct (decide (hd = f)) as [->|Hn].
  - rewrite decide_True by done. simpl.
    rewrite (abs_grown _ _ H3); simpl.
    + by rewrite drawn_read.
    + by destruct (snake g.1) as [|? [|? ?]].
  - rewrite decide_False by congruence. simpl. by rewrite H3, Hf.
Qed.

Lemma tick_refines_run g :
  wf g ->
  exists e,
    step (LINES g) (COLS g) (abs g) (next_key g) e (abs (tick g).2) /\
    (tick g).1 = goes_on e.
Proof.
  intros Hwf. destruct (tick_next g Hwf) as (f & _ & Hin & [= <- <-]).
  eexists. split; [|done].
  destruct (abs_wf g Hwf) as (d & _ & Habs).
  apply next_step; [by rewrite Habs; destruct Hwf|by rewrite Habs|intros _].
  apply second_draw_placed. by destruct Hwf as (_ & _ & _ & Hr & _).
Qed.

(** ** What a tick reads *)

Lemma steered_fed_streams g :
  streams (steered (fed g)) = streams g /\
  draws (steered (fed g)).2 =
    (draws g.2 + match Snake.food g.1 with Some _ => 0 | None => 2 end)%nat.
Proof.
  unfold streams, steered, fed.
  destruct g as [[? [?|] ? ? ?] [? ? ? ? ? ?]]; simpl; split; try done; lia.
Qed.

Lemma moved_streams new g : streams (moved new g) = streams g.
Proof. done. Qed.

Lemma grown_moved_streams new g :
  snake g.1 <> [] ->
  streams (grown (moved new g)) = streams g /\
  draws (grown (moved new g)).2 = (draws g.2 + 2)%nat.
Proof.
  unfold streams, grown, moved. simpl. intros Hne.
  destruct (tail (snake g.1 ++ [new])) eqn:E; simpl; [|split; [done|lia]].
  by destruct (snake g.1) as [|? [|? ?]].
Qed.

Lemma tick_streams g :
  wf g ->
  streams (tick g).2 = streams g /\
  draws (tick g).2.2 =
    (draws g.2 + match Snake.food g.1 with Some _ => 0 | None => 2 end
     + (if (tick g).1 && bool_decide (last (snake g.1) = food_in_play g)
        then 2 else 0))%nat.
Proof.
  intros Hwf. destruct (wf_cell_ahead g Hwf) as [new Hc].
  rewrite (tick_cases g new Hc).
  destruct (steered_fed_streams g) as [Hs Hd].
  assert (Hne : snake (steered (fed g)).1 <> []).
  { destruct (steered_frame (fed g)) as (-> & _), (fed_frame g) as (-> & _).
    by destruct Hwf. }
  destruct (grown_moved_streams new _ Hne) as [Hs' Hd'].
  destruct (on_board _ _ new); [|split; [done|simpl in *; lia]].
  case_bool_decide; rewrite ?decide_True, ?decide_False by done;
    (split; [cbn [snd]; by rewrite ?Hs', ?moved_streams, Hs|simpl in *; lia]).
Qed.

(** ** The generator and the keys, set by hand *)

Lemma gives_deal cells w : gives cells (deal cells w).
Proof.
  intros i z H. simpl. replace (draws w + i - draws w)%nat with i by lia.
  by rewrite H.
Qed.

(** What is left for a world that has drawn the first numbers. *)
Lemma gives_skip l1 l2 w w' :
  gives (l1 ++ l2) w -> rand w' = rand w ->
  draws w' = (draws w + length l1)%nat -> gives l2 w'.
Proof.
  intros H Hr Hd i z Hi. rewrite Hr, Hd, <- Nat.add_assoc.
  apply H. by rewrite lookup_app_r, Nat.add_comm, Nat.add_sub by lia.
Qed.

Lemma gives_drawn p rest w :
  placed (Curses.LINES (term w)) (Curses.COLS (term w)) p ->
  gives (p.1 :: p.2 :: rest) w -> drawn w = p.
Proof.
  intros [H1 H2] H. unfold drawn.
  rewrite <- (Nat.add_0_r (draws w)) at 1.
  rewrite <- (Nat.add_1_r (draws w)).
  rewrite (H 0%nat p.1), (H 1%nat p.2) by done.
  rewrite !Z.mod_small by done. by destruct p.
Qed.

(** The food a tick is played with and the cell it draws for new food,
    when the generator gives them. *)
Lemma food_in_play_gives g f rest :
  in_play (LINES g) (COLS g) (Snake.food g.1) f ->
  gives (match Snake.food g.1 with None => [f.1; f.2] | Some _ => [] end
         ++ rest) g.2 ->
  food_in_play g = Some f /\ gives rest (fed g).2.
Proof.
  unfold food_in_play, fed, in_play.
  destruct (Snake.food g.1) as [f1|] eqn:E; simpl.
  - intros -> H. by rewrite E.
  - intros Hp H. rewrite (gives_drawn f rest) by done.
    split; [done|].
    apply (gives_skip [f.1; f.2] rest g.2); [done|done|simpl; lia].
Qed.

Lemma second_draw_gives g f' rest :
  placed (LINES g) (COLS g) f' ->
  gives (f'.1 :: f'.2 :: rest) (fed g).2 -> second_draw g = f'.
Proof.
  intros Hp H. apply (gives_drawn f' rest); [|done].
  by destruct (fed_frame g) as (_ & _ & _ & _ & ->).
Qed.

(** The tick draws for new food exactly when the step is a meal. *)
Lemma tick_ate g f f' k e c' :
  wf g -> in_play (LINES g) (COLS g) (Snake.food g.1) f ->
  food_in_play g = Some f ->
  next (LINES g) (COLS g) f f' (abs g) k = (e, c') ->
  (tick g).1 = goes_on e ->
  (tick g).1 && bool_decide (last (snake g.1) = food_in_play g)
  = bool_decide (e = Ate).
Proof.
  intros Hwf Hin Hf Hn ->.
  destruct (last (snake g.1)) as [hd|] eqn:Hl;
    [|by apply last_None in Hl; destruct Hwf].
  pose proof (next_ate (LINES g) (COLS g) f f' (abs g) k hd Hl) as Ha.
  rewrite Hn in Ha. simpl in Ha.
  assert (default f (Snake.food g.1) = f) as Hdef
    by (destruct (Snake.food g.1); naive_solver).
  rewrite Hdef, Hf in *. apply eq_true_iff_eq.
  rewrite andb_true_iff, !bool_decide_eq_true. naive_solver.
Qed.

(** A tick whose key and numbers are those of a step makes that step. *)
Lemma tick_scripted g k e c' ks cells :
  wf g -> step (LINES g) (COLS g) (abs g) k e c' ->
  types (k :: ks) (term g.2) -> gives (needs (abs g) e c' ++ cells) g.2 ->
  (tick g).1 = goes_on e /\ abs (tick g).2 = c' /\
  types ks (term (tick g).2.2) /\ gives cells (tick g).2.2.
Proof.
  intros Hwf Hs Hty Hgv.
  assert (Hk : next_key g = k).
  { unfold next_key. rewrite <- (Nat.add_0_r (Curses.reads _)). by apply Hty. }
  apply step_next in Hs as (f & f' & Hin & Hn & Hp).
  pose proof (next_needs (LINES g) (COLS g) f f' (abs g) k
                (proj1 Hwf) Hin) as Hnd.
  rewrite Hn in Hnd. simpl in Hnd. pose proof Hgv as Hgv1.
  rewrite Hnd, <- app_assoc in Hgv1.
  destruct (food_in_play_gives g f _ Hin Hgv1) as [Hf Hgv2].
  destruct (tick_next g Hwf) as (f1 & Hf1 & _ & Ht). rewrite Hk in Ht.
  assert (f1 = f) as -> by congruence.
  assert (Hn' : next (LINES g) (COLS g) f (second_draw g) (abs g) k = (e, c')).
  { destruct (decide (e = Ate)) as [->|Hne].
    - by rewrite (second_draw_gives g f' _ (Hp eq_refl) Hgv2).
    - rewrite (next_fresh _ _ f f') by (by rewrite Hn). done. }
  rewrite Hn' in Ht. injection Ht as Ht1 Ht2.
  destruct (tick_streams g Hwf) as [[= Hks Hrd] Hdr].
  split_and!; [done|done| |].
  - intros i z Hi. destruct (tick_frame g Hwf) as (_ & _ & _ & _ & _ & Hr & _).
    simpl in Hr. rewrite Hks, Hr. simpl. rewrite <- Nat.add_succ_r. by apply Hty.
  - apply (gives_skip _ cells _ _ Hgv); [done|]. rewrite Hdr, Hnd.
    rewrite (tick_ate g f (second_draw g) k e c') by done.
    rewrite length_app.
    destruct (Snake.food g.1), (decide (e = Ate)) as [->|?];
      rewrite ?bool_decide_eq_false_2 by done; simpl; lia.
Qed.

(** A meal may leave the food where it was: the new cell is drawn from the
    whole screen, the cell just eaten included. *)
Lemma meal_may_repeat g f new cells :
  wf g -> Snake.food g.1 = Some f -> last (snake g.1) = Some f ->
  placed (LINES g) (COLS g) f -> cell_ahead g = Some new ->
  on_board (LINES g) (COLS g) new = true ->
  gives (f.1 :: f.2 :: cells) g.2 ->
  Snake.food (snd (_update_logic g)).1 = Some f.
Proof.
  intros Hwf Hf Hl Hp Hc Hb Hg. rewrite (update_logic_run g Hwf). simpl.
  rewrite (tick_cases g new Hc), Hb. simpl.
  assert (Hfed : fed g = g) by (unfold fed; by rewrite Hf).
  unfold food_in_play. rewrite Hfed, Hf, decide_True by done.
  rewrite <- (second_draw_gives g f cells Hp) by (by rewrite Hfed).
  unfold second_draw. rewrite Hfed.
  destruct g as [[[|c [|c' b]] ? ? ? ?] w]; by destruct Hwf.
Qed.

(** ** What every step leaves *)

Lemma goes_on_false e : goes_on e = false -> e = Crashed.
Proof. by destruct e. Qed.

Lemma step_food rows cols c k e c' :
  step rows cols c k e c' -> is_Some (food c').
Proof. destruct 1; by eexists. Qed.

(** ** Theorems *)

(** C3: the code refines the system: from a well-formed state a tick
    returns, what it leaves is a step of the system away from what it
    found, under the key it read, and it answers [False] exactly when that
    step is a crash. *)
Theorem tick_refines g :
  wf g ->
  exists e,
    step (LINES g) (COLS g) (abs g) (next_key g) e
         (abs (snd (_update_logic g))) /\
    fst (_update_logic g) = Ret (goes_on e).
Proof.
  intros Hwf. rewrite (update_logic_run g Hwf). simpl.
  destruct (tick_refines_run g Hwf) as (e & Hs & ->). eauto.
Qed.

(** C18: the system says nothing the code cannot do: every step of the
    system from the configuration of a well-formed state, under the key
    that is waiting, is what the tick does for some numbers of the
    generator. *)
Theorem step_realised g e c' :
  wf g ->
  step (LINES g) (COLS g) (abs g) (next_key g) e c' ->
  exists cells,
    fst (_update_logic (g.1, deal cells g.2)) = Ret (goes_on e) /\
    abs (snd (_update_logic (g.1, deal cells g.2))) = c'.
Proof.
  intros Hwf Hs. exists (needs (abs g) e c').
  set (g0 := (g.1, deal (needs (abs g) e c') g.2)).
  assert (Hwf0 : wf g0) by done.
  rewrite (update_logic_run g0 Hwf0). simpl.
  destruct (tick_scripted g0 (next_key g) e c' [] []) as (-> & -> & _);
    [done|done| |rewrite app_nil_r; apply gives_deal|done].
  intros [|i] k [=]. unfold next_key. simpl. by rewrite Nat.add_0_r.
Qed.

(** ** The theorems at a game on a 24 x 80 terminal *)

Lemma tick_refines_witness :
  exists e,
    step (LINES feeding) (COLS feeding) (abs feeding) (next_key feeding) e
         (abs (snd (_update_logic feeding))) /\
    fst (_update_logic feeding) = Ret (goes_on e).
Proof. apply (tick_refines feeding). by_compute. Defined.

(** A snake of three cells with the food under its head eats and finds
    new food at [(2, 3)]. *)
Lemma step_realised_witness :
  exists cells,
    fst (_update_logic (feeding.1, deal cells feeding.2)) = Ret (goes_on Ate) /\
    abs (snd (_update_logic (feeding.1, deal cells feeding.2))) =
    Config [(5, 5); (5, 5); (5, 6); (5, 7)] (Some (2, 3)) Right.
Proof.
  apply (step_realised feeding Ate); [by_compute|compute_done].
Defined.

End GameFacts.
