(* ===== verification/SnakeRuns.v ===== *)
(** * SnakeRuns: whole games

    The loop of [Snake.play] (lines 178-183 of [src/snake.py]) against the
    runs of the transition system of [SnakeSpec].  A round of the loop is
    a frame that answers [True], and [rounds n] is [n] of them in a row
    ([nsteps]); a story is a run of the system told in full, every
    configuration one the screen can show.

    The theorems: the rounds of the loop are a run of the system, so that
    the invariants of the system hold through a game; every game [play]
    ends is a run and one last step, a crash when [play] returns; when
    it returns, the screen shows the body and the food it ended with; and
    every story is played by the loop for some keys and some numbers of
    the generator: on the configurations the screen can show, the loop and
    the system have the same runs. *)

From stdpp Require Import base tactics relations numbers option list strings gmap.
From S2P Require Import Prelude Curses Runtime SnakeLogic SnakeTick SnakeLoop SnakeSpec.

Module Runs.
Import Runtime Snake TickFacts Game.
Local Open Scope Z_scope.

(** A round of the loop of [play] that goes on: the frame answers
    [True]. *)
Definition round : relation (Snake * World) :=
  fun g g1 => SnakeGame.frame g = (Ret true, g1).

(** [n] rounds, one after the other. *)
Notation rounds := (nsteps round).

Section told.
Variables rows cols : Z.

(** A game told round by round: the key, what happened and the
    configuration reached, each of them one the screen can show. *)
Fixpoint told (c : config) (l : list (Z * event * config)) : Prop :=
  match l with
  | [] => True
  | (k, e, c') :: l' =>
      step rows cols c k e c' /\ goes_on e = true /\ visible rows cols c' /\ told c' l'
  end.

#[global] Instance told_dec c l : Decision (told c l).
Proof.
  revert c. induction l as [|[[k e] c'] l IH]; intros c; simpl; apply _.
Defined.
End told.

(** The configuration a story ends in. *)
Fixpoint ending (c : config) (l : list (Z * event * config)) : config :=
  match l with [] => c | (_, _, c') :: l' => ending c' l' end.

(** The numbers and the keys a story needs, and the world that has them
    ready. *)
Fixpoint numbers (c : config) (l : list (Z * event * config)) : list Z :=
  match l with
  | [] => []
  | (_, e, c') :: l' => needs c e c' ++ numbers c' l'
  end.

Definition typed (ks : list Z) (w : World) : World :=
  let t := term w in
  set_term
    (Curses.Terminal (Curses.LINES t) (Curses.COLS t) (Curses.available t)
       (Curses.modes t) (Curses.pairs t) (Curses.buffer t) (Curses.shown t)
       (fun n => default (Curses.keys t n) (ks !! (n - Curses.reads t)%nat))
       (Curses.reads t)) w.

(** The screen shows the game: the food glyph at the food, the snake
    glyph at every other cell of the body, and nothing elsewhere. *)
Definition showing (g : Snake * World) : Prop :=
  exists f, Snake.food g.1 = Some f /\
    forall p, Curses.shown (term g.2) !! p =
      if decide (p = f) then Some SnakeGame.food_cell
      else if decide (p ∈ snake g.1) then Some SnakeGame.snake_cell else None.

(** A snake of three cells with the food under its head eats, then turns
    down. *)
Definition meal_then_turn : list (Z * event * config) :=
  [(Curses.ERR, Ate, Config [(5, 5); (5, 5); (5, 6); (5, 7)] (Some (2, 3)) Right);
   (Curses.KEY_DOWN, Moved,
    Config [(5, 5); (5, 6); (5, 7); (6, 7)] (Some (2, 3)) Down)].

End Runs.

Module RunFacts.
Import Runtime Snake TickFacts Game GameFacts Runs.
Local Open Scope Z_scope.

Implicit Types (g : Snake * World) (c : config) (e : event).

(** ** The rounds of [play] *)

Lemma abs_view g g' : SnakeGame.view g' = SnakeGame.view g -> abs g' = abs g.
Proof. intros H. unfold abs. by injection H as -> _. Qed.

Lemma size_view g g' :
  SnakeGame.view g' = SnakeGame.view g ->
  LINES g' = LINES g /\ COLS g' = COLS g.
Proof. intros H. by SnakeGame.by_view H. Qed.

(** A round that goes on is a step that goes on. *)
Lemma round_step g g1 :
  wf g -> SnakeGame.frame g = (Ret true, g1) ->
  wf g1 /\ LINES g1 = LINES g /\ COLS g1 = COLS g /\
  exists e, goes_on e = true /\
            step (LINES g) (COLS g) (abs g) (next_key g) e (abs g1).
Proof.
  intros Hwf Hfr.
  pose proof (SnakeGame.frame_view g Hwf) as Hv.
  pose proof (SnakeGame.frame_run g Hwf) as Hrun.
  rewrite Hfr in Hv, Hrun. simpl in Hv.
  assert (Ht : (tick g).1 = true).
  { destruct (fst (SnakeGame.show _)); by simplify_eq. }
  destruct (tick_frame g Hwf) as (_ & _ & _ & HL & HC & _).
  destruct (size_view _ _ Hv) as [-> ->].
  split_and!; [by eapply SnakeGame.wf_view, tick_wf|done..|].
  destruct (tick_refines_run g Hwf) as (e & Hs & He).
  exists e. rewrite (abs_view _ _ Hv). split; [congruence|done].
Qed.

Lemma rounds_run n g g' :
  wf g -> rounds n g g' ->
  exists tr, run (LINES g) (COLS g) (abs g) tr (abs g') /\ length tr = n.
Proof.
  intros Hwf Hr. induction Hr as [g|n g g1 g2 Hfr _ IH].
  - exists []. split; [constructor|done].
  - destruct (round_step g g1 Hwf Hfr) as (Hwf1 & HL & HC & e & He & Hs).
    destruct (IH Hwf1) as (tr & Hrun & Hlen). rewrite HL, HC in Hrun.
    exists ((next_key g, e) :: tr). split; [by econstructor|by simpl; f_equal].
Qed.

(** C25: through any number of rounds of [play] that go on the body never
    shrinks, and it gains at most one cell a round. *)
Theorem rounds_body_length n g g' :
  wf g -> rounds n g g' ->
  (length (snake g.1) <= length (snake g'.1) <= length (snake g.1) + n)%nat.
Proof.
  intros Hwf Hr. destruct (rounds_run n g g' Hwf Hr) as (tr & Hrun & <-).
  apply run_length in Hrun. simpl in Hrun. pose proof (meals_le tr). lia.
Qed.

(** ** Every game is a run *)

(** The round that ends the loop is a step as well: the tick is made, and
    the repaint returns or raises [curses.error]. *)
Lemma last_round_step g r g1 :
  wf g -> SnakeGame.frame g = (r, g1) -> r <> Ret true ->
  exists e, step (LINES g) (COLS g) (abs g) (next_key g) e (abs g1) /\
            (r = Ret false /\ e = Crashed \/ r = Raise CursesError).
Proof.
  intros Hwf Hfr Hr.
  pose proof (SnakeGame.frame_view g Hwf) as Hv. pose proof (SnakeGame.frame_run g Hwf) as Hrun.
  rewrite Hfr in Hv, Hrun. simpl in Hv.
  destruct (tick_refines_run g Hwf) as (e & Hs & He).
  exists e. rewrite (abs_view _ _ Hv). split; [done|].
  destruct (step_food _ _ _ _ _ _ Hs) as [f Hf].
  destruct (tick_wf g Hwf) as (_ & _ & Hscr & _).
  destruct (SnakeGame.show_answers (tick g).2 f Hscr Hf) as [Hsh|Hsh];
    rewrite Hsh in Hrun; injection Hrun as -> _; [left|by right].
  destruct (tick g).1; [done|]. split; [done|]. by apply goes_on_false.
Qed.

(** Every run of the loop that answers is a run of the system and one last
    step: a crash when the loop returns; and the loop raises nothing but
    [curses.error]. *)
Lemma loop_trace n g r g' :
  wf g -> SnakeGame.loop n g = (r, g') -> answered r = true ->
  exists tr c k e,
    run (LINES g) (COLS g) (abs g) tr c /\
    step (LINES g) (COLS g) c k e (abs g') /\
    (length tr < n)%nat /\
    (r = Ret tt /\ e = Crashed \/ r = Raise CursesError).
Proof.
  revert g. induction n as [|n IH]; intros g Hwf Hl Ha.
  { unfold SnakeGame.loop in Hl. simpl in Hl. by injection Hl as <- <-. }
  rewrite SnakeGame.loop_S in Hl. destruct (SnakeGame.frame g) as [rf g1] eqn:Hfr.
  destruct (decide (rf = Ret true)) as [->|Hne].
  - destruct (round_step g g1 Hwf Hfr) as (Hwf1 & HL & HC & e & He & Hs).
    destruct (IH g1 Hwf1 Hl Ha) as (tr & c & k & e' & Hrun & Hs' & Hlen & Hc).
    rewrite HL, HC in Hrun, Hs'.
    exists ((next_key g, e) :: tr), c, k, e'.
    split_and!; [by econstructor|done|simpl; lia|done].
  - destruct (last_round_step g rf g1 Hwf Hfr Hne) as (e & Hs & Hc).
    exists [], (abs g), (next_key g), e.
    destruct Hc as [[-> ->]| ->]; simplify_eq.
    + destruct n; simplify_eq.
      split_and!; [constructor|done|simpl; lia|by left].
    + split_and!; [constructor|done|simpl; lia|by right].
Qed.

(** C5: every game that ends was played by the rules: when [play]
    answers on an available terminal, the configurations it went through
    are a run of the system followed by one last step; when it returns, the
    last step is a crash, and the only exception it lets out is
    [curses.error]. *)
Theorem play_trace n g :
  snake g.1 <> [] -> is_Some (directional_mapping !! facing g.1) ->
  room g.2 -> Curses.available (term g.2) = true ->
  answered (fst (SnakeGame.play n g)) = true ->
  exists tr c k e,
    run (LINES g) (COLS g) (abs g) tr c /\
    step (LINES g) (COLS g) c k e (abs (snd (SnakeGame.play n g))) /\
    (length tr < n)%nat /\
    (fst (SnakeGame.play n g) = Ret tt /\ e = Crashed \/
     fst (SnakeGame.play n g) = Raise CursesError).
Proof.
  intros Hne Hdir Hroom Hav. rewrite (SnakeGame.play_run n g Hav). simpl. intros Ha.
  rewrite Ha.
  destruct (SnakeGame.loop n (SnakeGame.opened g)) as [r g1] eqn:Hl. simpl in *.
  apply (loop_trace n _ _ _ (SnakeGame.opened_wf g Hne Hdir Hroom)) in Hl as Htr; [|done].
  by destruct g as [[] [[] ]], g1 as [[] [[] ]].
Qed.

(** ** How a game ends *)

(** The configurations a repaint can show. *)
Lemma visible_show g :
  is_Some (stdscr g.1) -> visible (LINES g) (COLS g) (abs g) ->
  fst (SnakeGame.show g) = Ret tt.
Proof.
  intros Hs [Hb Hf]. simpl in *.
  destruct (Snake.food g.1) as [f|] eqn:E; [|done].
  by rewrite (SnakeGame.show_run g f).
Qed.

(** A repaint returns exactly on the configurations the screen can show. *)
Lemma show_visible g :
  is_Some (stdscr g.1) ->
  fst (SnakeGame.show g) = Ret tt <-> visible (LINES g) (COLS g) (abs g).
Proof.
  intros Hs. split; [|by apply visible_show].
  intros Hr. unfold visible. simpl.
  destruct (decide (Forall (on_screen g.2) (snake g.1))) as [Hall|Hex].
  - split; [done|]. destruct (Snake.food g.1) as [f|] eqn:Hf; simpl.
    + destruct (decide (on_screen g.2 f)) as [|Hoff]; [done|].
      unfold SnakeGame.show in Hr.
      by rewrite (bind_raises _ _ _ _
                    (SnakeGame.draw_screen_food_off g f Hs Hall Hf Hoff)) in Hr.
    + unfold SnakeGame.show in Hr.
      by rewrite (bind_Raise _ _ _ _ _
                    (SnakeGame.draw_screen_no_food g Hs Hf Hall)) in Hr.
  - apply not_Forall_Exists in Hex; [|apply _].
    by rewrite (SnakeGame.show_off g Hs Hex) in Hr.
Qed.

Lemma past_right_edge_show g :
  is_Some (stdscr g.1) -> past_right_edge (LINES g) (COLS g) (abs g) ->
  fst (SnakeGame.show g) = Raise CursesError.
Proof.
  intros Hs (hd & Hl & _ & Hc & _). apply SnakeGame.show_off; [done|].
  apply Exists_exists. exists hd. split; [by apply last_elem_of|].
  unfold on_screen. lia.
Qed.

(** A frame from a configuration on the screen shows one, or raises
    [curses.error] with the head past the right edge. *)
Lemma frame_seen g :
  wf g -> seen (LINES g) (COLS g) (abs g) ->
  match fst (SnakeGame.frame g) with
  | Ret _ => visible (LINES g) (COLS g) (abs (snd (SnakeGame.frame g)))
  | Raise x =>
      x = CursesError /\
      past_right_edge (LINES g) (COLS g) (abs (snd (SnakeGame.frame g)))
  | Timeout => False
  end.
Proof.
  intros Hwf Hseen.
  rewrite (abs_view _ _ (SnakeGame.frame_view g Hwf)), (SnakeGame.frame_run g Hwf).
  simpl. destruct (tick_refines_run g Hwf) as (e & Hs & _).
  destruct (tick_frame g Hwf) as (_ & _ & _ & HL & HC & _).
  destruct (tick_wf g Hwf) as (_ & _ & Hscr & _).
  destruct (step_seen _ _ _ _ _ _ Hseen Hs) as [Hv|[_ Hp]].
  - rewrite visible_show; [done|done|by rewrite HL, HC].
  - rewrite past_right_edge_show; [done|done|by rewrite HL, HC].
Qed.

Lemma loop_seen n g :
  wf g -> seen (LINES g) (COLS g) (abs g) ->
  match fst (SnakeGame.loop n g) with
  | Ret _ => visible (LINES g) (COLS g) (abs (snd (SnakeGame.loop n g)))
  | Raise x =>
      x = CursesError /\
      past_right_edge (LINES g) (COLS g) (abs (snd (SnakeGame.loop n g)))
  | Timeout => True
  end.
Proof.
  revert g. induction n as [|n IH]; intros g Hwf Hseen; [done|].
  rewrite SnakeGame.loop_S. pose proof (frame_seen g Hwf Hseen) as Hf.
  pose proof (SnakeGame.frame_view g Hwf) as Hv.
  destruct (SnakeGame.frame g) as [[[]|x|] g1]; simpl in *; [|by destruct n|done..].
  destruct (size_view _ _ Hv) as [HL HC].
  destruct (tick_frame g Hwf) as (_ & _ & _ & HL' & HC' & _).
  rewrite <- HL', <- HC', <- HL, <- HC in *.
  apply IH; [by eapply SnakeGame.wf_view, tick_wf|by apply visible_seen].
Qed.

(** C6: a game ends at a wall or past the right edge: when the body is
    on the screen, and the food if there is any, [play] on an available
    terminal returns with the body and the food on the screen, or raises
    [curses.error] with the head in column [COLS], off the screen, entered
    heading right; it raises nothing else. *)
Theorem play_ends_on_screen n g :
  snake g.1 <> [] -> is_Some (directional_mapping !! facing g.1) ->
  room g.2 -> Curses.available (term g.2) = true ->
  seen (LINES g) (COLS g) (abs g) ->
  match fst (SnakeGame.play n g) with
  | Ret _ => visible (LINES g) (COLS g) (abs (snd (SnakeGame.play n g)))
  | Raise x =>
      x = CursesError /\
      past_right_edge (LINES g) (COLS g) (abs (snd (SnakeGame.play n g)))
  | Timeout => True
  end.
Proof.
  intros Hne Hdir Hroom Hav Hseen. rewrite (SnakeGame.play_run n g Hav). simpl.
  pose proof (loop_seen n (SnakeGame.opened g)
                (SnakeGame.opened_wf g Hne Hdir Hroom)) as Hl.
  destruct (SnakeGame.loop n (SnakeGame.opened g)) as [r g1]. simpl in *.
  destruct g as [[] [[] ]], g1 as [[] [[] ]], r; by apply Hl.
Qed.

(** ** What is on the screen when a game ends *)

(** A repaint that returns shows the game. *)
Lemma show_shows g :
  is_Some (stdscr g.1) -> fst (SnakeGame.show g) = Ret tt ->
  showing (snd (SnakeGame.show g)).
Proof.
  intros Hs Hr. apply (show_visible g Hs) in Hr as [Hb Hf]. simpl in *.
  destruct (Snake.food g.1) as [f|] eqn:E; [|done].
  rewrite (SnakeGame.show_run g f) by done.
  exists f. split; [done|]. intros p. apply SnakeGame.paint_lookup.
Qed.

(** So does a frame that returns, whatever the tick answered ... *)
Lemma frame_shows g :
  wf g -> returned (fst (SnakeGame.frame g)) = true ->
  showing (snd (SnakeGame.frame g)).
Proof.
  intros Hwf. rewrite (SnakeGame.frame_run g Hwf). simpl.
  destruct (tick_wf g Hwf) as (_ & _ & Hscr & _).
  pose proof (show_shows (tick g).2 Hscr) as H.
  destruct (fst (SnakeGame.show (tick g).2)) as [[]|x|]; [auto|done..].
Qed.

(** ... and the loop, when it is left. *)
Lemma loop_shows n g :
  wf g -> fst (SnakeGame.loop n g) = Ret tt ->
  showing (snd (SnakeGame.loop n g)).
Proof.
  revert g. induction n as [|n IH]; intros g Hwf; [done|].
  rewrite SnakeGame.loop_S. pose proof (frame_shows g Hwf) as Hf.
  pose proof (SnakeGame.frame_view g Hwf) as Hv.
  destruct (SnakeGame.frame g) as [[[]|x|] g1]; simpl in *; [|destruct n|..];
    try done; [|auto].
  apply IH. by eapply SnakeGame.wf_view, tick_wf.
Qed.

(** C23: when [play] returns, the screen shows the game as it ended: the
    food glyph at the food, the snake glyph at every other cell of the
    body the tick that answered [False] left, and no glyph anywhere else.
    The last frame cleared the buffer, painted the body, then the food,
    and refreshed; [close_screen] leaves the picture. *)
Theorem play_shows_game n g :
  snake g.1 <> [] -> is_Some (directional_mapping !! facing g.1) ->
  room g.2 -> Curses.available (term g.2) = true ->
  fst (SnakeGame.play n g) = Ret tt ->
  exists f, Snake.food (snd (SnakeGame.play n g)).1 = Some f /\
    forall p, Curses.shown (term (snd (SnakeGame.play n g)).2) !! p =
      if decide (p = f) then Some SnakeGame.food_cell
      else if decide (p ∈ snake (snd (SnakeGame.play n g)).1)
           then Some SnakeGame.snake_cell else None.
Proof.
  intros Hne Hdir Hroom Hav. rewrite (SnakeGame.play_run n g Hav). simpl.
  intros Hr. rewrite Hr. simpl.
  apply (loop_shows n _ (SnakeGame.opened_wf g Hne Hdir Hroom) Hr).
Qed.

(** ** Every story is a game *)

(** A story is a run. *)
Lemma told_run rows cols c l :
  told rows cols c l -> run rows cols c l.*1 (ending c l).
Proof.
  revert c. induction l as [|[[k e] c'] l IH]; intros c; [constructor|].
  intros (Hs & He & _ & Ht). econstructor; eauto.
Qed.

Lemma types_typed ks w : types ks (term (typed ks w)).
Proof.
  intros i z H. destruct w as [[] ]. simpl in *.
  replace (reads + i - reads)%nat with i by lia. by rewrite H.
Qed.

Lemma streams_view ks cells g g' :
  SnakeGame.view g' = SnakeGame.view g ->
  types ks (term g.2) -> gives cells g.2 ->
  types ks (term g'.2) /\ gives cells g'.2.
Proof. intros H. by SnakeGame.by_view H. Qed.

(** A frame whose key and numbers are those of a step that goes on to a
    configuration the screen can show makes that step and goes on. *)
Lemma frame_scripted g k e c' ks cells :
  wf g -> step (LINES g) (COLS g) (abs g) k e c' -> goes_on e = true ->
  visible (LINES g) (COLS g) c' ->
  types (k :: ks) (term g.2) -> gives (needs (abs g) e c' ++ cells) g.2 ->
  exists g1,
    SnakeGame.frame g = (Ret true, g1) /\ wf g1 /\ abs g1 = c' /\
    LINES g1 = LINES g /\ COLS g1 = COLS g /\
    types ks (term g1.2) /\ gives cells g1.2.
Proof.
  intros Hwf Hs He [Hb Hf] Hty Hgv.
  destruct (tick_scripted g k e c' ks cells) as (Ht & <- & Hty' & Hgv');
    [done..|].
  destruct (tick_frame g Hwf) as (_ & _ & _ & HL & HC & _).
  pose proof (tick_wf g Hwf) as Hwf'.
  pose proof (SnakeGame.frame_view g Hwf) as Hv.
  pose proof (SnakeGame.frame_run g Hwf) as Hrun.
  simpl in Hf. destruct (Snake.food (tick g).2.1) as [f|] eqn:Hfood; [|done].
  rewrite (SnakeGame.show_run _ f) in Hrun;
    [|by destruct Hwf' as (_ & _ & ? & _)|done|by rewrite <- HL, <- HC in Hf
     |by rewrite <- HL, <- HC in Hb].
  simpl in Hrun. rewrite Ht, He in Hrun. rewrite Hrun in Hv. simpl in Hv.
  eexists. split; [exact Hrun|].
  destruct (size_view _ _ Hv) as [-> ->].
  destruct (streams_view ks cells _ _ Hv Hty' Hgv').
  split_and!; [by eapply SnakeGame.wf_view|by apply abs_view|done..].
Qed.

(** The rounds of a story, for a state whose streams hold what the story
    needs. *)
Lemma told_rounds l g :
  wf g -> told (LINES g) (COLS g) (abs g) l ->
  types l.*1.*1 (term g.2) -> gives (numbers (abs g) l) g.2 ->
  exists g', rounds (length l) g g' /\ abs g' = ending (abs g) l.
Proof.
  revert g. induction l as [|[[k e] c'] l IH]; intros g Hwf Ht Hty Hgv.
  { exists g. split; [constructor|done]. }
  destruct Ht as (Hs & He & Hvis & Ht).
  destruct (frame_scripted g k e c' _ _ Hwf Hs He Hvis Hty Hgv)
    as (g1 & Hfr & Hwf1 & <- & HL & HC & Hty1 & Hgv1).
  rewrite <- HL, <- HC in Ht.
  destruct (IH g1 Hwf1 Ht Hty1 Hgv1) as (g' & Hr & Hend).
  exists g'. split; [by econstructor|done].
Qed.

(** Every story is played by the loop, for the keys and the numbers of
    the story. *)
Lemma story_rounds g l :
  wf g -> told (LINES g) (COLS g) (abs g) l ->
  exists g',
    rounds (length l) (g.1, deal (numbers (abs g) l) (typed l.*1.*1 g.2)) g' /\
    abs g' = ending (abs g) l.
Proof.
  intros Hwf Ht.
  apply (told_rounds l (g.1, deal (numbers (abs g) l) (typed l.*1.*1 g.2))).
  - by destruct g as [? [[] ]].
  - by destruct g as [? [[] ]].
  - apply types_typed.
  - apply gives_deal.
Qed.

(** The rounds of the loop are a story of the system: each is a step that
    goes on, to a configuration the screen has shown. *)
Lemma rounds_told n g g' :
  wf g -> rounds n g g' ->
  exists l, length l = n /\ told (LINES g) (COLS g) (abs g) l /\
            ending (abs g) l = abs g'.
Proof.
  intros Hwf Hr. induction Hr as [g|n g g1 g2 Hfr _ IH]; [by exists []|].
  destruct (round_step g g1 Hwf Hfr) as (Hwf1 & HL & HC & e & He & Hs).
  destruct (IH Hwf1) as (l & Hlen & Ht & Hend). rewrite HL, HC in Ht.
  exists ((next_key g, e, abs g1) :: l). simpl.
  split_and!; [by f_equal|done|done| |done|done].
  pose proof (SnakeGame.frame_run g Hwf) as Hrun. rewrite Hfr in Hrun.
  pose proof (SnakeGame.frame_view g Hwf) as Hv. rewrite Hfr in Hv. simpl in Hv.
  destruct (tick_frame g Hwf) as (_ & _ & _ & HL' & HC' & _).
  destruct (tick_wf g Hwf) as (_ & _ & Hscr & _).
  rewrite (abs_view _ _ Hv), <- HL', <- HC'. apply show_visible; [done|].
  destruct (fst (SnakeGame.show _)) as [[]| |]; by simplify_eq.
Qed.

(** C19: the games of the loop are the stories of the system: from a
    well-formed state, the configurations the loop of [play] can be in
    after [n] rounds that go on, for some keys and some numbers of the
    generator, are those the stories of length [n] end in: the runs of
    the system told round by round, each step one that goes on to a
    configuration whose body and food are on the screen. *)
Theorem games_are_stories n g c :
  wf g ->
  (exists ks cells g',
     rounds n (g.1, deal cells (typed ks g.2)) g' /\ abs g' = c) <->
  (exists l, length l = n /\ told (LINES g) (COLS g) (abs g) l /\
             ending (abs g) l = c).
Proof.
  intros Hwf. split.
  - intros (ks & cells & g' & Hr & <-).
    apply rounds_told in Hr; by destruct g as [? [[] ]].
  - intros (l & <- & Ht & <-).
    destruct (story_rounds g l Hwf Ht) as (g' & ? & ?).
    by exists l.*1.*1, (numbers (abs g) l), g'.
Qed.

(** ** The theorems at a game on a 24 x 80 terminal *)

Lemma rounds_body_length_witness :
  (length (snake feeding.1)
   <= length (snake (snd (SnakeGame.frame (snd (SnakeGame.frame feeding)))).1)
   <= length (snake feeding.1) + 2)%nat.
Proof.
  apply (rounds_body_length 2 feeding); [by_compute|].
  apply (nsteps_l _ _ _ (snd (SnakeGame.frame feeding))); [by vm_compute|].
  apply (nsteps_l _ _ _ (snd (SnakeGame.frame (snd (SnakeGame.frame feeding)))));
    [by vm_compute|].
  apply nsteps_O.
Defined.

(** The game as [__init__] starts it, left alone for a hundred rounds. *)
Lemma play_trace_witness :
  exists tr c k e,
    run (LINES SnakeGame.fresh_game) (COLS SnakeGame.fresh_game)
        (abs SnakeGame.fresh_game) tr c /\
    step (LINES SnakeGame.fresh_game) (COLS SnakeGame.fresh_game) c k e
         (abs (snd (SnakeGame.play 100 SnakeGame.fresh_game))) /\
    (length tr < 100)%nat /\
    (fst (SnakeGame.play 100 SnakeGame.fresh_game) = Ret tt /\ e = Crashed \/
     fst (SnakeGame.play 100 SnakeGame.fresh_game) = Raise CursesError).
Proof. apply play_trace; by_compute. Defined.

Lemma games_are_stories_witness :
  (exists ks cells g',
     rounds 2 (feeding.1, deal cells (typed ks feeding.2)) g' /\
     abs g' = ending (abs feeding) meal_then_turn) <->
  (exists l, length l = 2%nat /\
             told (LINES feeding) (COLS feeding) (abs feeding) l /\
             ending (abs feeding) l = ending (abs feeding) meal_then_turn).
Proof. apply (games_are_stories 2 feeding). by_compute. Defined.

(** The game as [__init__] starts it, left alone, ends past the right
    edge. *)
Lemma play_ends_on_screen_witness :
  match fst (SnakeGame.play 90 SnakeGame.fresh_game) with
  | Ret _ =>
      visible (LINES SnakeGame.fresh_game) (COLS SnakeGame.fresh_game)
        (abs (snd (SnakeGame.play 90 SnakeGame.fresh_game)))
  | Raise x =>
      x = CursesError /\
      past_right_edge (LINES SnakeGame.fresh_game) (COLS SnakeGame.fresh_game)
        (abs (snd (SnakeGame.play 90 SnakeGame.fresh_game)))
  | Timeout => True
  end.
Proof. apply play_ends_on_screen; [by_compute..|compute_done]. Defined.

(** A cell in column 1 heading left: the first tick ends the game, and
    the screen shows that cell and the food the tick placed. *)
Lemma play_shows_game_witness :
  exists f, Snake.food (snd (SnakeGame.play 5 scenario3)).1 = Some f /\
    forall p, Curses.shown (term (snd (SnakeGame.play 5 scenario3)).2) !! p =
      if decide (p = f) then Some SnakeGame.food_cell
      else if decide (p ∈ snake (snd (SnakeGame.play 5 scenario3)).1)
           then Some SnakeGame.snake_cell else None.
Proof. apply play_shows_game; by_compute. Defined.

End RunFacts.
