(* ===== verification/Widgets.v ===== *)
(** * Widgets: the rectangle and the main menu

    [Widget] and [MainMenu] of [src/snake.py] (lines 8-60).  The abstract
    method [draw] is the class [Draw], of which [MainMenu] is an instance.
    [draw_rect] only calls [addstr] on the object it holds, so it is written
    against the [Surface] interface and its theorems are proved from the
    laws of the interface alone; [MainMenu.draw] uses it on the terminal.

    The theorems: [draw_rect] is the sequence of writes [rect_writes]; when
    they all fit it returns, paints exactly the cells under them (a later
    write over an earlier one) and shows nothing; the first write that does
    not fit raises and nothing is clipped; the label goes at the
    truncated third of the dimensions; [MainMenu.draw] never assigns
    [chosen_button], and ends by returning, by [FileNotFoundError] or by
    [curses.error] according to the file and to the room. *)

From Stdlib Require Import Ascii.
From stdpp Require Import base tactics numbers option list strings gmap.
From S2P Require Import Prelude Curses Runtime.

Module Widget.
Local Open Scope Z_scope.
Local Open Scope eff_scope.

(** Lines 8-10: a widget holds the window it draws on. *)
Record Widget : Type := mkWidget { stdscr : Curses.window }.

Definition __init__ (stdscr : Curses.window) : Widget := {| stdscr := stdscr |}.

(** Lines 33-35: the abstract method.  A kind of widget is a type of
    objects with a [draw] of its own. *)
Class Draw (O : Type) : Type := draw : Eff (O * Runtime.World) unit.
#[global] Hint Mode Draw ! : typeclass_instances.

(** The four rows of line 16, 19, 24 and 26. *)
Definition top_line (width : Z) : string :=
  String.append "/" (str_mul "$" (width - 1)).

Definition bottom_line (width : Z) : string :=
  String.append "|" (String.append (str_mul "_" (width - 3)) " /").

Definition last_inner_line (width : Z) : string :=
  String.append "|$$" (String.append (str_mul "_" (width - 6)) "|$$").

Definition inner_line (width : Z) : string :=
  String.append "|$$" (String.append (str_mul " " (width - 6)) "|$$").

(** Line 30: [int(top_left[k] + dimensions[k] / 3)] for [k] in 0, 1.  The
    division is exact here and the sum is truncated towards zero, as [int]
    does. *)
Definition text_pos (top_left dimensions : Z * Z) : Z * Z :=
  (Z.quot (3 * top_left.1 + dimensions.1) 3,
   Z.quot (3 * top_left.2 + dimensions.2) 3).

Section widget.
Context {W : Type} `{!Surface W}.

(** [self.stdscr.addstr(y, x, s)]: no attribute. *)
Definition addstr (y x : Z) (s : string) : Eff W unit := surf_addstr y x s 0.

(** Lines 22-26: the body of the [for]. *)
Definition draw_side (top_left bottom_left dimensions : Z * Z) (i : Z)
  : Eff W unit :=
  if decide (i = bottom_left.1 - 1)
  then addstr (bottom_left.1 - 1) bottom_left.2 (last_inner_line dimensions.2)
  else addstr i top_left.2 (inner_line dimensions.2).

(** Lines 12-31. *)
Definition draw_rect (top_left dimensions : Z * Z) (inner_text : option string)
  : Eff W unit :=
  let bottom_left := (top_left.1 + dimensions.1, top_left.2) in
  addstr top_left.1 top_left.2 (top_line dimensions.2);;
  addstr bottom_left.1 bottom_left.2 (bottom_line dimensions.2);;
  for_each (py_range (top_left.1 + 1) bottom_left.1)
    (draw_side top_left bottom_left dimensions);;
  if truthy inner_text
  then match inner_text with
       | Some text =>
           let tp := text_pos top_left dimensions in addstr tp.1 tp.2 text
       | None => ret tt
       end
  else ret tt.

(** ** What the theorems speak of *)

(** One call of [addstr]: where, what, and the attribute. *)
Definition write : Type := (Z * Z * string * Z)%type.

Definition do_write (wr : write) : Eff W unit :=
  surf_addstr wr.1.1.1 wr.1.1.2 wr.1.2 wr.2.

(** The writes of [draw_rect], in the order it makes them. *)
Definition side_write (top_left dimensions : Z * Z) (i : Z) : write :=
  if decide (i = top_left.1 + dimensions.1 - 1)
  then (i, top_left.2, last_inner_line dimensions.2, 0)
  else (i, top_left.2, inner_line dimensions.2, 0).

Definition label_write (top_left dimensions : Z * Z) (inner_text : option string)
  : list write :=
  match inner_text with
  | Some text =>
      if truthy text
      then [((text_pos top_left dimensions).1,
             (text_pos top_left dimensions).2, text, 0)]
      else []
  | None => []
  end.

Definition rect_writes (top_left dimensions : Z * Z) (inner_text : option string)
  : list write :=
  [(top_left.1, top_left.2, top_line dimensions.2, 0);
   (top_left.1 + dimensions.1, top_left.2, bottom_line dimensions.2, 0)] ++
  (side_write top_left dimensions <$>
     py_range (top_left.1 + 1) (top_left.1 + dimensions.1)) ++
  label_write top_left dimensions inner_text.

End widget.

(** A write lies within a surface of the given size. *)
Definition write_fits (rows cols : Z) (wr : write) : Prop :=
  Curses.fits rows cols wr.1.1.1 wr.1.1.2 wr.1.2.

#[global] Instance write_fits_dec rows cols wr : Decision (write_fits rows cols wr).
Proof. unfold write_fits. apply _. Defined.

(** The cells under a write. *)
Definition covers (wr : write) (p : Z * Z) : Prop :=
  p.1 = wr.1.1.1 /\
  wr.1.1.2 <= p.2 < wr.1.1.2 + Z.of_nat (String.length wr.1.2).

#[global] Instance covers_dec wr p : Decision (covers wr p).
Proof. unfold covers. apply _. Defined.

(** A write lies within the block of a box: the rows [top .. top + h] and
    the columns [left .. left + width). *)
Definition inside (top left h width : Z) (wr : write) : Prop :=
  top <= wr.1.1.1 <= top + h /\
  left <= wr.1.1.2 < left + width /\
  wr.1.1.2 + Z.of_nat (String.length wr.1.2) <= left + width.

(** The label is short enough to end within a box [width] wide: it starts
    a third of the width in. *)
Definition label_in_box (width : Z) (inner_text : option string) : Prop :=
  match inner_text with
  | Some text => width / 3 + Z.of_nat (String.length text) <= width
  | None => True
  end.

#[global] Instance label_in_box_dec width t : Decision (label_in_box width t).
Proof. destruct t; simpl; apply _. Defined.

Definition cell_at (wr : write) (p : Z * Z) : option Curses.cell :=
  flip Curses.Cell wr.2 <$> String.get (Z.to_nat (p.2 - wr.1.1.2)) wr.1.2.

(** What a sequence of writes leaves at a cell that held [c]: the cell of
    the last write that covers it. *)
Definition written (ws : list write) (c : option Curses.cell) (p : Z * Z)
  : option Curses.cell :=
  foldl (fun c wr => if decide (covers wr p) then cell_at wr p else c) c ws.

Section after.
Context {W : Type} `{!Surface W}.

(** The surface [w'] is [w] with the writes [ws] made: same size, same
    picture shown, and the cells [written]. *)
Definition after (ws : list write) (w w' : W) : Prop :=
  surf_rows w' = surf_rows w /\ surf_cols w' = surf_cols w /\
  (forall p, surf_shown w' p = surf_shown w p) /\
  forall p, surf_cell w' p = written ws (surf_cell w p) p.

End after.

End Widget.

Module MainMenu.
Import Runtime.
Local Open Scope Z_scope.
Local Open Scope eff_scope.

(** The object (lines 39-42): the widget's [stdscr] and the two attributes
    of the menu. *)
Record MainMenu : Type := mkMainMenu {
  widget : Widget.Widget;
  hovering_button : Z;
  chosen_button : option Z
}.

(** [self.stdscr]: the attribute [Widget.__init__] has set. *)
Definition stdscr (m : MainMenu) : Curses.window := Widget.stdscr (widget m).

(** Lines 39-42, with [super().__init__(stdscr)]. *)
Definition __init__ (stdscr : Curses.window) : MainMenu :=
  {| widget := Widget.__init__ stdscr; hovering_button := 1;
     chosen_button := None |}.

(** Line 46. *)
Definition main_menu_file_path : string := "./assets/word_art/main_menu.txt".

(** [enumerate(l)]. *)
Definition enumerate {A} (l : list A) : list (Z * A) :=
  zip (seqZ 0 (Z.of_nat (length l))) l.

(** Lines 51-52. *)
Definition draw_title (main_menu_art : list string) : Eff (MainMenu * World) unit :=
  for_each (enumerate main_menu_art) (fun il =>
    scr <- self stdscr;;
    curses (Curses.addstr scr il.1 0 il.2 (Curses.color_pair 1))).

(** [self.draw_rect(...)]: the method of [Widget], on the terminal. *)
Definition draw_rect (top_left dimensions : Z * Z) (inner_text : option string)
  : Eff (MainMenu * World) unit :=
  curses (Widget.draw_rect top_left dimensions inner_text).

(** Lines 44-60. *)
Definition draw : Eff (MainMenu * World) unit :=
  main_menu_art <- in_world (readlines main_menu_file_path);;
  draw_title main_menu_art;;
  let play_button_location := (Z.of_nat (length main_menu_art) + 2, 1) in
  let settings_button_location := (Z.of_nat (length main_menu_art) + 2, 34) in
  draw_rect play_button_location (3, 25) (Some "Play");;
  draw_rect settings_button_location (3, 25) (Some "Settings");;
  scr <- self stdscr;;
  curses (Curses.refresh scr).

(** [class MainMenu(Widget)]: the menu is a widget, with this [draw]. *)
#[global] Instance drawable : Widget.Draw MainMenu := draw.

(** ** What the theorems speak of *)

(** The writes of [draw], in order: the title, then the two buttons. *)
Definition title_writes (art : list string) : list Widget.write :=
  (fun il : Z * string => (il.1, 0, il.2, Curses.color_pair 1)) <$> enumerate art.

Definition menu_writes (art : list string) : list Widget.write :=
  title_writes art ++
  Widget.rect_writes (Z.of_nat (length art) + 2, 1) (3, 25) (Some "Play") ++
  Widget.rect_writes (Z.of_nat (length art) + 2, 34) (3, 25) (Some "Settings").

(** What [draw] does to the terminal once it has read [art]. *)
Definition menu_program (art : list string) : Eff Curses.terminal unit :=
  for_each (menu_writes art) Widget.do_write;;
  surf_refresh.

(** A world in which the title art is [art], with a menu on its terminal;
    a two-line title for the examples. *)
Definition menu_on (rows cols : Z) (art : list string) : MainMenu * World :=
  (__init__ Curses.Stdscr,
   boot rows cols (fun _ => Curses.ERR) (fun _ => 0)
     {[ main_menu_file_path := art ]}).

Definition small_art : list string := ["SNAKE"; "-----"].

End MainMenu.

Module WidgetFacts.
Import Widget.
Local Open Scope Z_scope.
Local Open Scope eff_scope.

Lemma get_is_Some (n : nat) (s : string) :
  (n < String.length s)%nat -> is_Some (String.get n s).
Proof.
  revert n. induction s as [|c s IH]; intros n Hn; simpl in *; [lia|].
  destruct n; [by eexists|]. apply IH. lia.
Qed.

Lemma cell_at_covers wr p : covers wr p -> is_Some (cell_at wr p).
Proof.
  intros [_ Hx]. unfold cell_at. apply fmap_is_Some, get_is_Some. lia.
Qed.

Lemma written_snoc ws wr c p :
  written (ws ++ [wr]) c p =
  if decide (covers wr p) then cell_at wr p else written ws c p.
Proof. unfold written. by rewrite foldl_app. Qed.

Lemma written_cons ws wr c p :
  written (wr :: ws) c p =
  written ws (if decide (covers wr p) then cell_at wr p else c) p.
Proof. done. Qed.

(** A cell no write covers keeps what it held. *)
Lemma written_outside ws c p :
  Forall (fun wr => ~ covers wr p) ws -> written ws c p = c.
Proof.
  revert c. induction ws as [|wr ws IH]; intros c Hall; [done|].
  apply Forall_cons in Hall as [Hwr Hall].
  rewrite written_cons, decide_False by done. by apply IH.
Qed.

(** ** The shape of the box *)

Lemma length_top_line width :
  1 <= width -> Z.of_nat (String.length (top_line width)) = width.
Proof.
  intros. unfold top_line. rewrite length_append, length_str_mul. simpl. lia.
Qed.

Lemma length_bottom_line width :
  3 <= width -> Z.of_nat (String.length (bottom_line width)) = width.
Proof.
  intros. unfold bottom_line. rewrite !length_append, length_str_mul. simpl. lia.
Qed.

Lemma length_inner_line width :
  6 <= width -> Z.of_nat (String.length (inner_line width)) = width.
Proof.
  intros. unfold inner_line. rewrite !length_append, length_str_mul. simpl. lia.
Qed.

Lemma length_last_inner_line width :
  6 <= width -> Z.of_nat (String.length (last_inner_line width)) = width.
Proof.
  intros. unfold last_inner_line. rewrite !length_append, length_str_mul.
  simpl. lia.
Qed.

(** Every row of a box at least six wide is as wide as the box. *)
Lemma side_write_shape top_left dimensions i :
  6 <= dimensions.2 ->
  exists s, side_write top_left dimensions i = (i, top_left.2, s, 0) /\
            Z.of_nat (String.length s) = dimensions.2.
Proof.
  intros Hw. unfold side_write. case_decide; eexists; split; try done;
    by (apply length_last_inner_line || apply length_inner_line).
Qed.

(** For a box placed at non-negative coordinates the label starts at the
    corner plus a third of each dimension, rounded down. *)
Lemma text_pos_nonneg top left h width :
  0 <= top -> 0 <= left -> 0 <= h -> 0 <= width ->
  text_pos (top, left) (h, width) = (top + h / 3, left + width / 3).
Proof.
  intros. unfold text_pos. simpl. rewrite !Z.quot_div_nonneg by lia.
  f_equal; rewrite (Z.add_comm (3 * _)), Z.mul_comm, Z.div_add by lia; lia.
Qed.

(** Every write of a box at least six wide, with a label that is short
    enough, lies within the block of the box. *)
Lemma label_write_inside top left h width inner_text :
  0 <= top -> 0 <= left -> 1 <= h -> 6 <= width ->
  label_in_box width inner_text ->
  Forall (inside top left h width) (label_write (top, left) (h, width) inner_text).
Proof.
  intros Ht Hl Hh Hw Hlab. unfold label_write.
  destruct inner_text as [text|]; [|done]. destruct (truthy text); [|done].
  rewrite (text_pos_nonneg top left h width) by lia.
  apply Forall_singleton. unfold inside, label_in_box in *. cbn [fst snd] in *.
  pose proof (Z.div_pos h 3). pose proof (Z.div_le_upper_bound h 3 h).
  pose proof (Z.div_pos width 3). pose proof (Z.div_lt width 3). lia.
Qed.

Lemma rect_writes_inside top left h width inner_text :
  0 <= top -> 0 <= left -> 1 <= h -> 6 <= width ->
  label_in_box width inner_text ->
  Forall (inside top left h width) (rect_writes (top, left) (h, width) inner_text).
Proof.
  intros Ht Hl Hh Hw Hlab. unfold rect_writes. cbn [fst snd app].
  pose proof (length_top_line width) as Htl.
  pose proof (length_bottom_line width) as Hbl.
  repeat (apply Forall_cons; split; [unfold inside; cbn [fst snd]; lia|]).
  apply Forall_app. split; [|by apply label_write_inside].
  apply Forall_fmap, Forall_forall. intros i Hi%elem_of_py_range.
  unfold compose, inside.
  destruct (side_write_shape (top, left) (h, width) i Hw) as (s & -> & Hs).
  cbn [fst snd] in *. lia.
Qed.

Lemma inside_fits rows cols top left h width wr :
  0 <= top -> top + h < rows -> 0 <= left -> left + width <= cols ->
  inside top left h width wr -> write_fits rows cols wr.
Proof. unfold inside, write_fits, Curses.fits. lia. Qed.

Lemma inside_covers top left h width wr p :
  inside top left h width wr -> covers wr p ->
  top <= p.1 <= top + h /\ left <= p.2 < left + width.
Proof. unfold inside, covers. lia. Qed.

(** The box fits a surface exactly when its block does. *)
Lemma rect_fits rows cols top left h width inner_text :
  1 <= h -> 6 <= width -> label_in_box width inner_text ->
  Forall (write_fits rows cols) (rect_writes (top, left) (h, width) inner_text)
  <-> 0 <= top /\ top + h < rows /\ 0 <= left /\ left + width <= cols.
Proof.
  intros Hh Hw Hlab. split.
  - unfold rect_writes. cbn [fst snd app]. rewrite !Forall_cons.
    pose proof (length_top_line width) as Ht.
    intros (H1 & H2 & _). unfold write_fits, Curses.fits in H1, H2.
    cbn [fst snd] in *. lia.
  - intros (? & ? & ? & ?).
    eapply Forall_impl; [by apply rect_writes_inside|].
    intros wr. by apply inside_fits.
Qed.

(** C38: a box of height [h >= 1] and width at least 6, with or without a
    label short enough to end within it, takes the rows [top .. top + h]
    and the columns [left .. left + width): its writes fit a surface
    exactly when that block of [h + 1] rows does. *)
Theorem rect_fits_iff rows cols top left h width inner_text :
  1 <= h -> 6 <= width -> label_in_box width inner_text ->
  Forall (write_fits rows cols) (rect_writes (top, left) (h, width) inner_text)
  <-> 0 <= top /\ top + h < rows /\ 0 <= left /\ left + width <= cols.
Proof. apply rect_fits. Qed.

(** A cell outside the block of the box is under none of its writes. *)
Lemma rect_writes_outside top left h width inner_text p :
  0 <= top -> 0 <= left -> 1 <= h -> 6 <= width ->
  label_in_box width inner_text ->
  ~ (top <= p.1 <= top + h /\ left <= p.2 < left + width) ->
  Forall (fun wr => ~ covers wr p)
    (rect_writes (top, left) (h, width) inner_text).
Proof.
  intros Ht Hl Hh Hw Hlab Hp.
  eapply Forall_impl; [by apply rect_writes_inside|].
  intros wr Hin Hc. by eapply Hp, inside_covers.
Qed.

Section surface.
Context {W : Type} `{!Surface W}.
Implicit Types (w : W) (wr : write) (ws : list write).

Lemma do_write_fits w wr :
  write_fits (surf_rows w) (surf_cols w) wr ->
  exists w', do_write wr w = (Ret tt, w') /\ after [wr] w w'.
Proof.
  destruct wr as [[[y x] s] a]. intros Hfit.
  destruct (surf_addstr_fits w y x s a Hfit) as (w' & Hrun & Hr & Hc & Hs & Hcell).
  exists w'. split; [done|]. split_and!; [done..|].
  intros [y' x']. rewrite Hcell. unfold written, covers, cell_at. simpl.
  by repeat case_decide.
Qed.

Lemma do_write_out w wr :
  ~ write_fits (surf_rows w) (surf_cols w) wr ->
  do_write wr w = (Raise CursesError, w).
Proof. destruct wr as [[[y x] s] a]. apply surf_addstr_out. Qed.

Lemma after_nil w : after [] w w.
Proof. by split_and!. Qed.

Lemma after_app ws1 ws2 w w1 w2 :
  after ws1 w w1 -> after ws2 w1 w2 -> after (ws1 ++ ws2) w w2.
Proof.
  intros (Hr1 & Hc1 & Hs1 & Hp1) (Hr2 & Hc2 & Hs2 & Hp2).
  split_and!; [congruence..| |].
  - intros p. by rewrite Hs2.
  - intros p. rewrite Hp2, Hp1. unfold written. by rewrite foldl_app.
Qed.

(** Writes that all fit are all made. *)
Lemma writes_run ws w :
  Forall (write_fits (surf_rows w) (surf_cols w)) ws ->
  exists w', for_each ws do_write w = (Ret tt, w') /\ after ws w w'.
Proof.
  revert w. induction ws as [|wr ws IH]; intros w Hall.
  { exists w. split; [done|apply after_nil]. }
  apply Forall_cons in Hall as [Hwr Hall].
  destruct (do_write_fits w wr Hwr) as (w1 & Hrun1 & Ha1).
  pose proof Ha1 as (Hr & Hc & _).
  destruct (IH w1) as (w2 & Hrun2 & Ha2); [by rewrite Hr, Hc|].
  exists w2. split; [|by apply (after_app [wr] ws w w1)].
  simpl. by rewrite (bind_Ret _ _ _ _ _ Hrun1).
Qed.

(** The first write that does not fit raises; the earlier ones stay. *)
Lemma writes_out ws1 wr ws2 w :
  Forall (write_fits (surf_rows w) (surf_cols w)) ws1 ->
  ~ write_fits (surf_rows w) (surf_cols w) wr ->
  exists w', for_each (ws1 ++ wr :: ws2) do_write w = (Raise CursesError, w') /\
             after ws1 w w'.
Proof.
  intros Hall Hout. destruct (writes_run ws1 w Hall) as (w1 & Hrun & Ha).
  exists w1. split; [|done]. rewrite (for_each_app _ _ _ w).
  rewrite (bind_Ret _ _ _ _ _ Hrun). simpl. apply bind_Raise, do_write_out.
  destruct Ha as (-> & -> & _). done.
Qed.

(** ** [draw_rect] is its writes *)

Lemma draw_side_write top_left dimensions i :
  draw_side top_left (top_left.1 + dimensions.1, top_left.2) dimensions i =
  do_write (side_write top_left dimensions i).
Proof.
  unfold draw_side, side_write, do_write, addstr. simpl.
  case_decide; [by subst|done].
Qed.

Lemma label_write_run top_left dimensions inner_text :
  (if truthy inner_text
   then match inner_text with
        | Some text =>
            let tp := text_pos top_left dimensions in addstr tp.1 tp.2 text
        | None => ret tt
        end
   else ret tt) =e=
  for_each (label_write top_left dimensions inner_text) do_write.
Proof.
  unfold label_write. destruct inner_text as [text|]; [|done].
  change (truthy (Some text)) with (truthy text).
  destruct (truthy text); [|done]. by rewrite for_each_singleton.
Qed.

Lemma draw_rect_unfold top_left dimensions inner_text :
  draw_rect top_left dimensions inner_text =e=
  for_each (rect_writes top_left dimensions inner_text) do_write.
Proof.
  unfold draw_rect, rect_writes. cbv zeta. simpl.
  apply bind_proper; [done|intros _]. apply bind_proper; [done|intros _].
  rewrite for_each_app, for_each_fmap.
  apply bind_proper; [|intros _; apply label_write_run].
  apply for_each_ext. intros i _. by rewrite draw_side_write.
Qed.

Lemma draw_rect_run top_left dimensions inner_text w :
  Forall (write_fits (surf_rows w) (surf_cols w))
    (rect_writes top_left dimensions inner_text) ->
  exists w',
    draw_rect top_left dimensions inner_text w = (Ret tt, w') /\
    after (rect_writes top_left dimensions inner_text) w w'.
Proof. intros Hall. rewrite (draw_rect_unfold _ _ _ w). by apply writes_run. Qed.

Lemma draw_rect_raises top_left dimensions inner_text w :
  ~ Forall (write_fits (surf_rows w) (surf_cols w))
      (rect_writes top_left dimensions inner_text) ->
  fst (draw_rect top_left dimensions inner_text w) = Raise CursesError.
Proof.
  intros Hn.
  destruct (first_failure _ _ Hn) as (ws1 & wr & ws2 & Heq & Hall & Hout).
  rewrite (draw_rect_unfold _ _ _ w), Heq.
  by destruct (writes_out ws1 wr ws2 w Hall Hout) as (w' & -> & _).
Qed.

(** C13: [draw_rect] makes the writes [rect_writes] and nothing else: when
    they all fit the surface it returns, the surface keeps its size, what
    is shown is unchanged (there is no refresh), and every cell holds what
    the last write covering it put there, or what it held. *)
Theorem draw_rect_paints top_left dimensions inner_text w :
  Forall (write_fits (surf_rows w) (surf_cols w))
    (rect_writes top_left dimensions inner_text) ->
  exists w',
    draw_rect top_left dimensions inner_text w = (Ret tt, w') /\
    after (rect_writes top_left dimensions inner_text) w w'.
Proof. apply draw_rect_run. Qed.

(** C29: nothing is clipped: when one of the writes does not fit the
    surface, [draw_rect] raises [curses.error]. *)
Theorem draw_rect_no_clipping top_left dimensions inner_text w :
  ~ Forall (write_fits (surf_rows w) (surf_cols w))
      (rect_writes top_left dimensions inner_text) ->
  fst (draw_rect top_left dimensions inner_text w) = Raise CursesError.
Proof. apply draw_rect_raises. Qed.


(** C39: a box that was drawn, with or without a label short enough to
    end within it, changed no cell outside its block of rows
    [top .. top + h] and columns [left .. left + width). *)
Theorem draw_rect_confined top left h width inner_text w w' p :
  1 <= h -> 6 <= width -> label_in_box width inner_text ->
  draw_rect (top, left) (h, width) inner_text w = (Ret tt, w') ->
  ~ (top <= p.1 <= top + h /\ left <= p.2 < left + width) ->
  surf_cell w' p = surf_cell w p.
Proof.
  intros Hh Hw Hlab Hrun Hp.
  destruct (decide (Forall (write_fits (surf_rows w) (surf_cols w))
                      (rect_writes (top, left) (h, width) inner_text)))
    as [Hall|Hn].
  - destruct (draw_rect_run _ _ _ w Hall) as (w1 & Hrun1 & _ & _ & _ & Hcell).
    rewrite Hrun in Hrun1. injection Hrun1 as <-.
    apply rect_fits in Hall as (? & _ & ? & _); [|done..].
    rewrite Hcell. by apply written_outside, rect_writes_outside.
  - apply (draw_rect_raises _ _ _ w) in Hn. by rewrite Hrun in Hn.
Qed.

End surface.

(** ** On the terminal *)

(** A box is drawn with the plain attribute and within the screen. *)
Lemma draw_rect_keeps_sound attrs top_left dimensions inner_text :
  0 ∈ attrs ->
  preserves (keeps (Curses.sound attrs))
    (draw_rect top_left dimensions inner_text).
Proof.
  intros H0. unfold draw_rect, draw_side, addstr. solve_keeps.
Qed.

(** A row of the box is [max 6 width] cells wide: in a box narrower
    than six the side rows stick out of its right edge. *)
Lemma inner_line_width width :
  Z.of_nat (String.length (inner_line width)) = Z.max 6 width /\
  Z.of_nat (String.length (last_inner_line width)) = Z.max 6 width.
Proof.
  unfold inner_line, last_inner_line.
  rewrite !length_append, !length_str_mul. simpl. lia.
Qed.

End WidgetFacts.
Module MainMenuFacts.
Import Runtime Widget MainMenu WidgetFacts.
Local Open Scope Z_scope.
Local Open Scope eff_scope.

Implicit Types (m : MainMenu) (w : World) (art : list string).

(** ** [draw] is a program of the terminal *)

Lemma title_write_run (il : Z * string) :
  (scr <- self stdscr;;
   curses (Curses.addstr scr il.1 0 il.2 (Curses.color_pair 1))) =e=
  (curses (do_write (il.1, 0, il.2, Curses.color_pair 1))
     : Eff (MainMenu * World) unit).
Proof. intros [m w]. rewrite RuntimeFacts.self_bind. by destruct (stdscr m). Qed.

Lemma draw_title_run art :
  draw_title art =e= curses (for_each (title_writes art) do_write).
Proof.
  unfold draw_title, title_writes.
  rewrite <- RuntimeFacts.curses_for_each, for_each_fmap.
  apply for_each_ext. intros il _. apply title_write_run.
Qed.

Lemma menu_refresh_run :
  (scr <- self stdscr;; curses (Curses.refresh scr)) =e=
  (curses surf_refresh : Eff (MainMenu * World) unit).
Proof. intros [m w]. rewrite RuntimeFacts.self_bind. by destruct (stdscr m). Qed.

#[local] Instance curses_proper {A} :
  Proper (eff_equiv ==> eff_equiv) (@curses MainMenu A).
Proof. intros m1 m2 Hm [m w]. by rewrite !RuntimeFacts.curses_run, Hm. Qed.

Lemma menu_program_unfold art :
  (for_each (title_writes art) do_write;;
   Widget.draw_rect (Z.of_nat (length art) + 2, 1) (3, 25) (Some "Play");;
   Widget.draw_rect (Z.of_nat (length art) + 2, 34) (3, 25) (Some "Settings");;
   surf_refresh) =e= menu_program art.
Proof.
  unfold menu_program, menu_writes.
  setoid_rewrite draw_rect_unfold.
  etrans; [|apply for_each_app_bind].
  apply bind_proper; [done|intros _]. apply for_each_app_bind.
Qed.

Lemma menu_body_run art :
  (draw_title art;;
   draw_rect (Z.of_nat (length art) + 2, 1) (3, 25) (Some "Play");;
   draw_rect (Z.of_nat (length art) + 2, 34) (3, 25) (Some "Settings");;
   scr <- self stdscr;; curses (Curses.refresh scr)) =e=
  curses (menu_program art).
Proof.
  rewrite <- (menu_program_unfold art). unfold draw_rect.
  setoid_rewrite menu_refresh_run. setoid_rewrite draw_title_run.
  by repeat setoid_rewrite RuntimeFacts.curses_bind.
Qed.

(** Once the title art is read, [draw] is [menu_program] on the
    terminal. *)
Lemma draw_run art m w :
  files w !! main_menu_file_path = Some art ->
  draw (m, w) = curses (menu_program art) (m, w).
Proof.
  intros Hf. unfold draw.
  erewrite bind_Ret
    by (rewrite RuntimeFacts.in_world_run; unfold readlines; by rewrite Hf).
  apply menu_body_run.
Qed.

(** ** What [draw] leaves *)

Lemma draw_keeps {B} (h : MainMenu -> B) :
  preserves (same (fun g : MainMenu * World => h g.1)) draw.
Proof. unfold draw, draw_title, draw_rect. solve_keeps. Qed.

Lemma menu_program_run art t :
  Forall (write_fits (Curses.LINES t) (Curses.COLS t)) (menu_writes art) ->
  exists t1,
    menu_program art t = (Ret tt, Curses.set_shown (Curses.buffer t1) t1) /\
    after (menu_writes art) t t1.
Proof.
  intros Hall. destruct (@writes_run _ terminal_surface (menu_writes art) t Hall)
    as (t1 & Hrun & Ha).
  exists t1. split; [|done]. unfold menu_program.
  by rewrite (bind_Ret _ _ _ _ _ Hrun).
Qed.

Lemma menu_draw_run art m w :
  files w !! main_menu_file_path = Some art ->
  Forall (write_fits (Curses.LINES (term w)) (Curses.COLS (term w)))
    (menu_writes art) ->
  exists t',
    draw (m, w) = (Ret tt, (m, set_term t' w)) /\
    (forall p, Curses.buffer t' !! p =
               written (menu_writes art) (Curses.buffer (term w) !! p) p) /\
    Curses.shown t' = Curses.buffer t'.
Proof.
  intros Hf Hall. rewrite (draw_run art m w Hf), RuntimeFacts.curses_run.
  destruct (menu_program_run art (term w) Hall) as (t1 & -> & _ & _ & _ & Hcell).
  eexists. split_and!; [done| |done]. apply Hcell.
Qed.

(** C15: with the title art in place and room for every write, [draw]
    returns, every cell of the buffer holds what the last write of the
    menu covering it put there (or what it held), and the screen shows the
    buffer: the menu is refreshed once, at the end. *)
Theorem menu_draw_paints art m w :
  files w !! main_menu_file_path = Some art ->
  Forall (write_fits (Curses.LINES (term w)) (Curses.COLS (term w)))
    (menu_writes art) ->
  exists t',
    draw (m, w) = (Ret tt, (m, set_term t' w)) /\
    (forall p, Curses.buffer t' !! p =
               written (menu_writes art) (Curses.buffer (term w) !! p) p) /\
    Curses.shown t' = Curses.buffer t'.
Proof. apply menu_draw_run. Qed.

(** Without the title art [draw] raises [FileNotFoundError] and draws
    nothing. *)
Lemma menu_draw_no_file m w :
  files w !! main_menu_file_path = None ->
  draw (m, w) = (Raise FileNotFoundError, (m, w)).
Proof.
  intros Hf. unfold draw. apply bind_Raise.
  rewrite RuntimeFacts.in_world_run. unfold readlines. by rewrite Hf.
Qed.

(** With the art in place, the first write that does not fit raises. *)
Lemma menu_program_out art t :
  ~ Forall (write_fits (Curses.LINES t) (Curses.COLS t)) (menu_writes art) ->
  fst (menu_program art t) = Raise CursesError.
Proof.
  intros Hn. apply first_failure in Hn as (ws1 & wr & ws2 & E & Hall & Hout);
    [|apply _].
  destruct (@writes_out _ terminal_surface ws1 wr ws2 t Hall Hout)
    as (t1 & Hrun & _).
  unfold menu_program. rewrite E. by rewrite (bind_Raise _ _ _ _ _ Hrun).
Qed.

(** C31: how [draw] ends, in every world.  Without the title art it raises
    [FileNotFoundError] and draws nothing; with the art it returns when
    every write of the menu fits the terminal, and raises [curses.error]
    when one does not. *)
Theorem menu_draw_outcome m w :
  match files w !! main_menu_file_path with
  | None => draw (m, w) = (Raise FileNotFoundError, (m, w))
  | Some art =>
      fst (draw (m, w)) =
      if decide (Forall (write_fits (Curses.LINES (term w))
                           (Curses.COLS (term w))) (menu_writes art))
      then Ret tt else Raise CursesError
  end.
Proof.
  destruct (files w !! main_menu_file_path) as [art|] eqn:Hf;
    [|by apply menu_draw_no_file].
  case_decide as Hall.
  - by destruct (menu_draw_run art m w Hf Hall) as (t' & -> & _).
  - rewrite (draw_run art m w Hf), RuntimeFacts.curses_run.
    pose proof (menu_program_out art (term w) Hall) as H.
    by destruct (menu_program art (term w)) as [r t']; simpl in *; subst.
Qed.

(** The menu is drawn in the plain attribute and in colour pair 1. *)
Lemma menu_draw_keeps_sound attrs :
  0 ∈ attrs -> Curses.color_pair 1 ∈ attrs ->
  preserves
    (keeps (fun g : MainMenu * World => Curses.sound attrs (term g.2))) draw.
Proof.
  intros H0 H1. pose proof (draw_rect_keeps_sound attrs) as Hr.
  unfold draw, draw_title, draw_rect. solve_keeps.
Qed.

(** ** The room the menu needs *)

(** The writes of a button: four rows and the label. *)
Lemma button_writes top left text :
  rect_writes (top, left) (3, 25) (Some text) =
  [(top, left, top_line 25, 0); (top + 3, left, bottom_line 25, 0);
   (top + 1, left, inner_line 25, 0); (top + 2, left, last_inner_line 25, 0)] ++
  label_write (top, left) (3, 25) (Some text).
Proof.
  unfold rect_writes. cbn [fst snd app]. do 3 f_equal.
  rewrite py_range_cons, py_range_cons, py_range_empty by lia.
  unfold side_write. cbn [fst snd fmap list_fmap].
  rewrite decide_False, decide_True by lia.
  by replace (top + 1 + 1) with (top + 2) by lia.
Qed.

Lemma button_fits rows cols top left text :
  0 <= top -> 0 <= left -> text ∈ ["Play"; "Settings"] ->
  Forall (write_fits rows cols) (rect_writes (top, left) (3, 25) (Some text)) <->
  top + 3 < rows /\ left + 25 <= cols.
Proof.
  intros Ht Hl Htext. rewrite WidgetFacts.rect_fits; [lia|lia|lia|].
  repeat (apply elem_of_cons in Htext as [->|Htext]; [compute_done|]).
  by apply elem_of_nil in Htext.
Qed.

(** C37: the menu needs six rows under the title and 59 columns: its
    writes fit a terminal exactly when those of the title do, the terminal
    has [len(art) + 6] rows and it has 59 columns. *)
Theorem menu_needs_room rows cols art :
  Forall (write_fits rows cols) (menu_writes art) <->
  Forall (write_fits rows cols) (title_writes art) /\
  Z.of_nat (length art) + 6 <= rows /\ 59 <= cols.
Proof.
  unfold menu_writes. rewrite !Forall_app.
  rewrite !button_fits by (try lia; set_solver).
  split; intros; destruct_and!; split_and!; (done || lia).
Qed.

(** ** The theorems at a 24 x 80 terminal *)

Lemma draw_rect_paints_witness :
  exists t',
    Widget.draw_rect (4, 1) (3, 25) (Some "Play") (term (menu_on 24 80 []).2) =
      (Ret tt, t') /\
    after (rect_writes (4, 1) (3, 25) (Some "Play")) (term (menu_on 24 80 []).2) t'.
Proof. apply (@draw_rect_paints _ terminal_surface). compute_done. Defined.

(** The second button on a terminal of 58 columns. *)
Lemma draw_rect_no_clipping_witness :
  fst (Widget.draw_rect (4, 34) (3, 25) (Some "Settings")
         (term (menu_on 24 58 []).2)) = Raise CursesError.
Proof. apply (@draw_rect_no_clipping _ terminal_surface). compute_done. Defined.

(** The second button of the menu. *)
Lemma draw_rect_confined_witness :
  surf_cell (snd (Widget.draw_rect (4, 34) (3, 25) (Some "Settings")
                    (term (menu_on 24 80 []).2))) (5, 33) =
  surf_cell (term (menu_on 24 80 []).2) (5, 33).
Proof.
  apply (@draw_rect_confined _ terminal_surface 4 34 3 25 (Some "Settings"));
    [lia | lia | compute_done | by vm_compute | simpl; lia].
Defined.

Lemma rect_fits_iff_witness :
  Forall (write_fits 24 80) (rect_writes (4, 34) (3, 25) (Some "Settings")) <->
  0 <= 4 /\ 4 + 3 < 24 /\ 0 <= 34 /\ 34 + 25 <= 80.
Proof. apply rect_fits_iff; [lia | lia | compute_done]. Defined.

Lemma menu_draw_paints_witness :
  exists t',
    draw (menu_on 24 80 small_art) =
      (Ret tt, ((menu_on 24 80 small_art).1,
                set_term t' (menu_on 24 80 small_art).2)) /\
    (forall p, Curses.buffer t' !! p =
               written (menu_writes small_art)
                 (Curses.buffer (term (menu_on 24 80 small_art).2) !! p) p) /\
    Curses.shown t' = Curses.buffer t'.
Proof. apply menu_draw_paints; [done | compute_done]. Defined.

End MainMenuFacts.
