(* ===== verification/Engine.v ===== *)
(** * Engine: the game engine and the entry point

    [CursesGameEngine] (lines 63-95 of [src/snake.py]), [Controller]
    (98-100) and the module body (194-197).  [__init__] opens the terminal
    and registers the colour pair; [play] builds a [MainMenu], draws it and
    waits in [while not main_menu.chosen_button: pass]; [__del__] releases
    the terminal.  The module body builds an engine, calls [play] and
    prints [Done].

    The theorems: the wait never ends, because nothing assigns
    [chosen_button]: [play] never returns, for any amount of fuel, and
    times out whenever the menu can be drawn; the program never prints
    [Done] and never reads a key; [play] leaves the engine untouched, so [game_state] stays
    [UNKNOWN]; [__del__] undoes what [__init__] did to the terminal; what
    the program leaves on the terminal is sound, and colour pair 1 is
    registered before the title is drawn in it. *)

From Stdlib Require Import Ascii.
From stdpp Require Import base tactics numbers option list strings gmap.
From S2P Require Import Prelude Curses Runtime Widgets.

Module CursesGameEngine.
Import Runtime.
Local Open Scope Z_scope.
Local Open Scope eff_scope.

(** Lines 64-67. *)
Inductive GameState : Set := UNKNOWN | MAIN_MENU | SETTING.

#[global] Instance GameState_eq_dec : EqDecision GameState.
Proof. solve_decision. Defined.

(** The value of a member of the enumeration. *)
Definition value (s : GameState) : Z :=
  match s with UNKNOWN => 0 | MAIN_MENU => 1 | SETTING => 2 end.

(** The object: the attributes [__init__] assigns. *)
Record CursesGameEngine : Type := mkEngine {
  stdscr : Curses.window;
  game_state : GameState
}.

(** Lines 69-83: the constructor, which answers the object. *)
Definition __init__ : Eff World CursesGameEngine :=
  scr <- tty Curses.initscr;;
  tty (Curses.keypad scr true);;
  tty (Curses.curs_set false);;
  tty Curses.noecho;;
  tty Curses.cbreak;;
  tty Curses.start_color;;
  tty (Curses.init_pair 1 Curses.COLOR_GREEN Curses.COLOR_BLACK);;
  ret {| stdscr := scr; game_state := UNKNOWN |}.

(** Lines 88-89: [while not main_menu.chosen_button: pass]. *)
Definition wait (fuel : nat) : Eff (MainMenu.MainMenu * World) unit :=
  while fuel
    (c <- self MainMenu.chosen_button;; ret (negb (truthy c)))
    (ret tt).

(** Lines 85-89.  [main_menu] is a local variable: the object lives for
    the call. *)
Definition play (fuel : nat) : Eff (CursesGameEngine * World) unit :=
  scr <- self stdscr;;
  with_object (MainMenu.__init__ scr) (Widget.draw;; wait fuel).

(** Lines 91-95. *)
Definition __del__ : Eff (CursesGameEngine * World) unit :=
  curses Curses.nocbreak;;
  curses Curses.echo;;
  curses Curses.endwin;;
  scr <- self stdscr;;
  curses (Curses.keypad scr false).

(** ** What the theorems speak of *)

(** The switches after [__init__] and after [__del__]. *)
Definition engine_modes (ms : gset Curses.mode) : gset Curses.mode :=
  ((((((ms ∪ {[Curses.Started]}) ∖ {[Curses.Ended]}) ∪ {[Curses.Keypad]})
      ∖ {[Curses.Cursor]}) ∖ {[Curses.Echo]}) ∪ {[Curses.Cbreak]})
  ∪ {[Curses.Colors]}.

Definition released_modes (ms : gset Curses.mode) : gset Curses.mode :=
  (((ms ∖ {[Curses.Cbreak]}) ∪ {[Curses.Echo]}) ∪ {[Curses.Ended]})
  ∖ {[Curses.Keypad]}.

(** The world [__init__] leaves when the terminal is available, and the
    one [__del__] leaves when a session is open. *)
Definition started (w : World) : World :=
  set_term
    (Curses.set_pairs
       (<[1 := (Curses.COLOR_GREEN, Curses.COLOR_BLACK)]>
          (Curses.pairs (term w)))
       (Curses.set_modes engine_modes (Curses.set_buffer ∅ (term w)))) w.

Definition released (w : World) : World :=
  set_term (Curses.set_modes released_modes (term w)) w.

(** Unfold the calls of a sequence of mode switches. *)
Ltac run_tty :=
  cbv [bind curses in_world tty zoom self gets modify ret raise
       Curses.initscr Curses.endwin Curses.keypad Curses.nodelay Curses.echo
       Curses.noecho Curses.cbreak Curses.nocbreak Curses.curs_set
       Curses.start_color Curses.init_pair Curses.switch Curses.need_started];
  simpl;
  repeat (rewrite CursesFacts.on_true by (simpl; set_solver); simpl).

End CursesGameEngine.

Module Controller.

(** Lines 98-100: a class with no attribute and no method. *)
Record Controller : Type := mkController { }.

Definition __init__ : Controller := mkController.

End Controller.

Module Program.
Import Runtime.
Local Open Scope eff_scope.

(** Lines 195-197: the module body. *)
Definition main (fuel : nat) : Eff World unit :=
  engine <- CursesGameEngine.__init__;;
  on_object engine (CursesGameEngine.play fuel);;
  print "Done".

(** The attributes the program draws with: the plain one and colour
    pair 1. *)
Definition palette : list Z := [0%Z; Curses.color_pair 1].

(** A world for the examples: a fresh 24 x 80 terminal and the title art
    in place. *)
Definition stage : World :=
  boot 24 80 (fun _ => Curses.ERR) (fun _ => 0%Z)
    {[ MainMenu.main_menu_file_path := MainMenu.small_art ]}.

End Program.

Module EngineFacts.
Import Runtime CursesGameEngine Program.
Local Open Scope Z_scope.
Local Open Scope eff_scope.

Implicit Types (e : CursesGameEngine) (w : World) (g : CursesGameEngine * World).

(** ** The wait *)

(** With no button chosen the condition of the loop holds and its body
    changes nothing: the loop uses up any fuel. *)
Lemma wait_spins fuel (s : MainMenu.MainMenu * World) :
  truthy (MainMenu.chosen_button s.1) = false -> wait fuel s = (Timeout, s).
Proof.
  intros Hc. unfold wait, while. induction fuel as [|n IH]; [done|].
  rewrite iter_S. rewrite (bind_Ret _ _ _ (inl tt) s); [exact IH|].
  rewrite (bind_Ret _ _ _ true s); [done|].
  unfold bind, self, gets, ret. by rewrite Hc.
Qed.

(** [play] is the menu drawn and the wait, on a menu of its own. *)
Lemma engine_play_run fuel e w :
  play fuel (e, w) =
  let r := (MainMenu.draw;; wait fuel) (MainMenu.__init__ (stdscr e), w) in
  (fst r, (e, snd (snd r))).
Proof. unfold play. by rewrite RuntimeFacts.self_bind, RuntimeFacts.with_object_run. Qed.

(** The menu and its wait never return. *)
Lemma menu_never_returns fuel (s : MainMenu.MainMenu * World) :
  truthy (MainMenu.chosen_button s.1) = false ->
  returned (fst ((MainMenu.draw;; wait fuel) s)) = false.
Proof.
  intros Hc. unfold bind.
  pose proof (preserved (MainMenuFacts.draw_keeps MainMenu.chosen_button) s) as Hk.
  destruct (MainMenu.draw s) as [[[]|e|] s1]; [|done..].
  unfold same in Hk. simpl in Hk. rewrite wait_spins; [done|by rewrite Hk].
Qed.

Lemma play_never_returns_any fuel g : returned (fst (play fuel g)) = false.
Proof.
  destruct g as [e w]. rewrite engine_play_run. cbv zeta. cbn [fst].
  by apply menu_never_returns.
Qed.

(** C4: [play] never returns: whatever the terminal, the files and the
    fuel, it raises (the menu cannot be drawn) or is still waiting. *)
Theorem play_never_returns fuel g : returned (fst (play fuel g)) = false.
Proof. apply play_never_returns_any. Qed.

(** C28: when the title art is in place and the menu fits the terminal,
    [play] draws the menu and waits for ever: it times out for every amount
    of fuel, with the menu on the screen: what is shown is the buffer, and
    each cell of it holds what the last write of the menu covering it put
    there, or what the buffer held before. *)
Theorem play_waits_for_ever fuel e w art :
  files w !! MainMenu.main_menu_file_path = Some art ->
  Forall (Widget.write_fits (Curses.LINES (term w)) (Curses.COLS (term w)))
    (MainMenu.menu_writes art) ->
  fst (play fuel (e, w)) = Timeout /\
  Curses.shown (term (snd (play fuel (e, w))).2) =
  Curses.buffer (term (snd (play fuel (e, w))).2) /\
  forall p,
    Curses.shown (term (snd (play fuel (e, w))).2) !! p =
    Widget.written (MainMenu.menu_writes art) (Curses.buffer (term w) !! p) p.
Proof.
  intros Hf Hall. rewrite engine_play_run. cbv zeta. cbn [fst snd].
  destruct (MainMenuFacts.menu_draw_run art (MainMenu.__init__ (stdscr e)) w Hf Hall)
    as (t' & Hrun & Hcell & Hshown).
  rewrite (bind_Ret _ _ _ _ _ Hrun), wait_spins by done.
  split_and!; [done..|]. intros p. simpl. by rewrite Hshown.
Qed.

(** ** The program *)

Lemma init_keeps_stdout : preserves (same stdout) __init__.
Proof. unfold __init__. solve_preserves; by apply RuntimeFacts.tty_keeps. Qed.

Lemma play_keeps_stdout fuel :
  preserves (same (fun g => stdout g.2)) (play fuel).
Proof.
  unfold play. apply preserves_bind; [apply _|solve_keeps|intros scr].
  apply RuntimeFacts.with_object_keeps.
  unfold MainMenu.draw, MainMenu.draw_title, MainMenu.draw_rect, wait, while.
  solve_keeps.
Qed.

Lemma main_keeps_stdout fuel w : stdout (snd (main fuel w)) = stdout w.
Proof.
  unfold main, bind.
  pose proof (preserved init_keeps_stdout w) as H1.
  destruct (__init__ w) as [[e|x|] w1]; [|done..].
  pose proof (play_never_returns_any fuel (e, w1)) as Hn.
  pose proof (preserved (play_keeps_stdout fuel) (e, w1)) as H2.
  unfold on_object.
  destruct (play fuel (e, w1)) as [[[]|x|] [e2 w2]]; [done|..];
    unfold same in *; simpl in *; congruence.
Qed.

(** No key is read: neither the engine nor the menu calls [getch]. *)
Lemma init_keeps_reads :
  preserves (same (fun w => Curses.reads (term w))) __init__.
Proof. unfold __init__. solve_keeps. Qed.

Lemma play_keeps_reads fuel :
  preserves (same (fun g : CursesGameEngine * World => Curses.reads (term g.2)))
    (play fuel).
Proof.
  unfold play. apply preserves_bind; [apply _|solve_keeps|intros scr].
  apply (RuntimeFacts.with_object_keeps (fun w => Curses.reads (term w))).
  unfold Widget.draw, MainMenu.drawable, MainMenu.draw, MainMenu.draw_title,
    MainMenu.draw_rect, wait, while, Widget.draw_rect, Widget.draw_side,
    Widget.addstr.
  solve_keeps.
Qed.

Lemma main_keeps_reads fuel :
  preserves (same (fun w => Curses.reads (term w))) (main fuel).
Proof.
  pose proof init_keeps_reads. pose proof (play_keeps_reads fuel).
  unfold main. solve_keeps.
Qed.

(** C26: the program never prints [Done] and never reads a key: whatever
    the world and the fuel, standard output after the module body is what
    it was before, and so is the number of keys read: nothing the player
    types can choose a button. *)
Theorem main_never_prints_done fuel w :
  stdout (snd (main fuel w)) = stdout w /\
  Curses.reads (term (snd (main fuel w))) = Curses.reads (term w).
Proof.
  split; [apply main_keeps_stdout|apply (preserved (main_keeps_reads fuel))].
Qed.

(** [play] leaves the engine as it was: in particular [game_state]
    is never assigned and stays [UNKNOWN]. *)
Lemma play_keeps_engine fuel g : (snd (play fuel g)).1 = g.1.
Proof. destruct g as [e w]. by rewrite engine_play_run. Qed.

(** ** The terminal *)

Lemma init_run w :
  Curses.available (term w) = true ->
  __init__ w =
  (Ret {| stdscr := Curses.Stdscr; game_state := UNKNOWN |}, started w).
Proof.
  destruct w as [[L C av ms ps buf sh ks rd] rnd n clk fs out]. simpl.
  intros ->. unfold __init__, started. by run_tty.
Qed.

Lemma del_run e w :
  Curses.on Curses.Started (term w) = true ->
  __del__ (e, w) = (Ret tt, (e, released w)).
Proof.
  destruct w as [[L C av ms ps buf sh ks rd] rnd n clk fs out]. simpl.
  intros Hon. unfold __del__, released.
  cbv [bind curses in_world tty zoom Curses.nocbreak Curses.need_started].
  simpl. rewrite Hon. simpl. apply bool_decide_eq_true_1 in Hon.
  by run_tty.
Qed.

Lemma released_cooked w : Curses.cooked (term (released w)).
Proof.
  unfold Curses.cooked, released, Curses.on. simpl.
  rewrite !bool_decide_eq_true, !bool_decide_eq_false.
  unfold released_modes. set_solver.
Qed.

(** C33: [__init__] on an available terminal answers an engine in state
    [UNKNOWN] and leaves the session open with keypad translation, cbreak
    and colours on, echo and the cursor off, and colour pair 1 green on
    black. *)
Theorem init_opens w :
  Curses.available (term w) = true ->
  exists e w',
    __init__ w = (Ret e, w') /\ game_state e = UNKNOWN /\
    Curses.modes (term w') = engine_modes (Curses.modes (term w)) /\
    Curses.pairs (term w') !! 1 =
      Some (Curses.COLOR_GREEN, Curses.COLOR_BLACK).
Proof.
  intros Hav. rewrite (init_run w Hav). eexists _, _.
  split_and!; [done..|]. apply lookup_insert_eq.
Qed.

(** C32: [__del__] undoes [__init__]: the finaliser of an engine built on
    an available terminal returns and leaves the terminal cooked. *)
Theorem del_restores w :
  Curses.available (term w) = true ->
  exists e w1 w2,
    __init__ w = (Ret e, w1) /\ __del__ (e, w1) = (Ret tt, (e, w2)) /\
    Curses.cooked (term w2).
Proof.
  intros Hav. rewrite (init_run w Hav). eexists _, _, _.
  split; [done|]. split; [|apply released_cooked].
  apply del_run. apply CursesFacts.on_true. simpl. set_solver.
Qed.

(** The finaliser of an engine whose session was never opened raises
    [curses.error] at its first call and changes nothing. *)
Lemma del_without_session e w :
  Curses.on Curses.Started (term w) = false ->
  __del__ (e, w) = (Raise CursesError, (e, w)).
Proof.
  intros Hst. unfold __del__. apply bind_Raise.
  rewrite RuntimeFacts.curses_run.
  unfold Curses.nocbreak. rewrite CursesFacts.guarded_switch, Hst.
  simpl. by destruct w.
Qed.

(** ** The picture *)

Section sound.
Context (attrs : list Z) (H0 : 0 ∈ attrs) (H1 : Curses.color_pair 1 ∈ attrs).

Lemma init_keeps_sound :
  preserves (keeps (fun w => Curses.sound attrs (term w))) __init__.
Proof. unfold __init__. solve_keeps. Qed.

Lemma engine_play_keeps_sound fuel :
  preserves
    (keeps (fun g : CursesGameEngine * World => Curses.sound attrs (term g.2)))
    (play fuel).
Proof.
  pose proof (MainMenuFacts.menu_draw_keeps_sound attrs H0 H1).
  unfold play, wait, while. solve_keeps.
Qed.

Lemma main_keeps_sound_any fuel :
  preserves (keeps (fun w => Curses.sound attrs (term w))) (main fuel).
Proof.
  pose proof init_keeps_sound. pose proof (engine_play_keeps_sound fuel).
  unfold main. solve_keeps.
Qed.

End sound.

Lemma init_unavailable w :
  Curses.available (term w) = false -> __init__ w = (Raise CursesError, w).
Proof.
  destruct w as [[L C av ms ps buf sh ks rd] rnd n clk fs out]. simpl.
  by intros ->.
Qed.

(** Once the engine is built nothing registers a colour. *)
Lemma play_keeps_pairs fuel :
  preserves (same (fun g : CursesGameEngine * World => Curses.pairs (term g.2)))
    (play fuel).
Proof.
  unfold play. apply preserves_bind; [apply _|solve_keeps|intros scr].
  apply (RuntimeFacts.with_object_keeps (fun w => Curses.pairs (term w))).
  unfold Widget.draw, MainMenu.drawable, MainMenu.draw, MainMenu.draw_title,
    MainMenu.draw_rect, wait, while, Widget.draw_rect, Widget.draw_side,
    Widget.addstr.
  solve_keeps.
Qed.

Lemma main_pairs fuel w :
  Curses.available (term w) = true ->
  Curses.pairs (term (snd (main fuel w))) = Curses.pairs (term (started w)).
Proof.
  intros Hav. unfold main. rewrite (bind_Ret _ _ _ _ _ (init_run w Hav)).
  apply (preserved (R := same (fun w => Curses.pairs (term w)))).
  pose proof (play_keeps_pairs fuel). solve_keeps.
Qed.

(** C22: what the program leaves on the terminal is sound, and its colours
    are registered: from a terminal whose cells are on the screen and
    plain, after the module body, however it ends, every cell of the
    buffer and of the screen is on the screen, plain or in colour pair 1,
    and a cell in colour is shown only when pair 1 is green on black. *)
Theorem main_keeps_sound fuel w :
  Curses.sound [0%Z] (term w) ->
  Curses.sound palette (term (snd (main fuel w))) /\
  forall p c,
    Curses.shown (term (snd (main fuel w))) !! p = Some c ->
    Curses.attr c <> 0%Z ->
    Curses.pairs (term (snd (main fuel w))) !! 1 =
    Some (Curses.COLOR_GREEN, Curses.COLOR_BLACK).
Proof.
  intros Hs. split.
  - apply (preserved (main_keeps_sound_any palette ltac:(set_solver)
                        ltac:(set_solver) fuel)).
    eapply CursesFacts.sound_mono; [|done]. set_solver.
  - intros p c Hp Hc. destruct (Curses.available (term w)) eqn:Hav.
    + rewrite (main_pairs fuel w Hav). apply lookup_insert_eq.
    + unfold main in Hp. rewrite (bind_Raise _ _ _ _ _ (init_unavailable w Hav)) in Hp.
      destruct Hs as [_ Hsh]. apply Hsh in Hp as [_ Hin]. set_solver.
Qed.

(** ** The theorems at the stage *)

Lemma play_waits_for_ever_witness :
  fst (play 100 (mkEngine Curses.Stdscr UNKNOWN, started stage)) = Timeout /\
  Curses.shown (term (snd (play 100 (mkEngine Curses.Stdscr UNKNOWN, started stage))).2) =
  Curses.buffer (term (snd (play 100 (mkEngine Curses.Stdscr UNKNOWN, started stage))).2) /\
  forall p,
    Curses.shown (term (snd (play 100 (mkEngine Curses.Stdscr UNKNOWN, started stage))).2) !! p =
    Widget.written (MainMenu.menu_writes MainMenu.small_art)
      (Curses.buffer (term (started stage)) !! p) p.
Proof.
  apply (play_waits_for_ever 100 _ _ MainMenu.small_art); [done|compute_done].
Defined.

Lemma init_opens_witness :
  exists e w',
    __init__ stage = (Ret e, w') /\ game_state e = UNKNOWN /\
    Curses.modes (term w') = engine_modes (Curses.modes (term stage)) /\
    Curses.pairs (term w') !! 1 =
      Some (Curses.COLOR_GREEN, Curses.COLOR_BLACK).
Proof. by apply init_opens. Defined.

Lemma del_restores_witness :
  exists e w1 w2,
    __init__ stage = (Ret e, w1) /\ __del__ (e, w1) = (Ret tt, (e, w2)) /\
    Curses.cooked (term w2).
Proof. by apply del_restores. Defined.

Lemma main_keeps_sound_witness :
  Curses.sound palette (term (snd (main 10 stage))) /\
  forall p c,
    Curses.shown (term (snd (main 10 stage))) !! p = Some c ->
    Curses.attr c <> 0%Z ->
    Curses.pairs (term (snd (main 10 stage))) !! 1 =
    Some (Curses.COLOR_GREEN, Curses.COLOR_BLACK).
Proof. apply main_keeps_sound. by vm_compute. Defined.

End EngineFacts.
